(** * The image plausibility validator of the crop-disease application

    A shallow embedding of [validateImage] and [computeVegetationScore]
    (the "Image validation helpers" block of the application's main
    component) together with the browser facilities they call: binary64
    arithmetic, [Number.prototype.toFixed], object URLs, image decoding
    and the 2D canvas.

    The file has two parts: the definitions (the model of the code and the
    spec-worded definitions it is compared with), then the lemmas. *)

From Stdlib Require Import ZArith NArith QArith Qround Qabs Qpower Lia Lqa.
From Stdlib Require Import String Ascii Strings.Byte Morphisms.
From Corelib Require Import SpecFloat.
From stdpp Require Import gmap strings.

(* ================================================================== *)
(** * Part I: definitions *)
(* ================================================================== *)

(** ** JavaScript numbers

    A JavaScript number is an IEEE 754 binary64 value.  Every number this
    code computes is finite and non-negative, so a number is modelled by
    the rational it denotes, and each arithmetic operation is the exact
    operation followed by one rounding to the nearest binary64 value, ties
    to even.  The exponent range is left unbounded: for file sizes below
    2^64 and image sides below 2^32 the values met here are 0 or lie
    between 2^-32 and 2^64, far from overflow and from subnormals. *)
Module Binary64.
Local Open Scope Q_scope.

(** Nearest integer, ties to the even one. *)
Definition RNE (x : Q) : Z :=
  let f := Qfloor x in
  match Qcompare (x - inject_Z f) (1 # 2) with
  | Lt => f
  | Gt => (f + 1)%Z
  | Eq => if Z.even f then f else (f + 1)%Z
  end.

(** [ilog2 x] is the integer k with 2^k <= x < 2^(k+1), for 0 < x. *)
Definition ilog2 (x : Q) : Z :=
  let c := (Z.log2 (Qnum x) - Z.log2 (Zpos (Qden x)))%Z in
  if Qle_bool (2 ^ c) x then c else (c - 1)%Z.

(** Exponent of the last of the 53 significant bits of [x]. *)
Definition ulp_exp (x : Q) : Z := (ilog2 x - 52)%Z.

(** Rounding to binary64: the significand [x / 2^e] is rounded to an
    integer of 53 bits.  The result is in lowest terms, so that equal
    numbers are equal terms. *)
Definition fl (x : Q) : Q :=
  if Qeq_bool x 0 then 0
  else let e := ulp_exp (Qabs x) in
       Qred (inject_Z (RNE (x / 2 ^ e)) * 2 ^ e).

Definition of_Z (z : Z) : Q := fl (inject_Z z).
Definition of_N (n : N) : Q := of_Z (Z.of_N n).

(** The operators [*] and [/] (with a divisor that is not zero). *)
Definition mul (x y : Q) : Q := fl (x * y).
Definition div (x y : Q) : Q := fl (x / y).

(** The comparisons [<] and [>]. *)
Definition ltb (x y : Q) : bool := negb (Qle_bool y x).
Definition gtb (x y : Q) : bool := ltb y x.

(** The value of a finite number of the Standard Library's binary64
    specification, used to cross-check [fl] against it. *)
Definition of_spec_float (f : spec_float) : option Q :=
  match f with
  | S754_zero _ => Some 0
  | S754_finite s m e =>
      Some (Qred ((if s then -1 else 1) * inject_Z (Zpos m) * 2 ^ e))
  | _ => None
  end.
Definition b64 (z : Z) : spec_float := binary_normalize 53 1024 z 0 false.
Definition same (f : spec_float) (q : Q) : bool :=
  match of_spec_float f with
  | Some x => Qeq_bool x q
  | None => false
  end.
Definition ints (lo : Z) (n : nat) : list Z :=
  List.map (fun k => (lo + Z.of_nat k)%Z) (List.seq 0 n).
End Binary64.

(** The number literals of the source. *)
Definition lit_1_1 : Q := Binary64.fl (11 # 10).
Definition lit_0_08 : Q := Binary64.fl (8 # 100).

(** ** The built-ins of [Math], [Number] and template literals *)
Module JS.
Definition digit (d : N) : ascii := ascii_of_N (48 + d).

(** Decimal digits of a non-negative integer, as [${n}] prints an
    integer-valued number below 10^21.  The fuel is the number of bits
    of [n], which is at least its number of decimal digits. *)
Fixpoint decimal_fuel (fuel : nat) (n : N) : string :=
  match fuel with
  | O => EmptyString
  | S fuel' =>
      if (n <? 10)%N then String (digit n) EmptyString
      else decimal_fuel fuel' (n / 10) +:+ String (digit (n mod 10)) EmptyString
  end.
Definition decimal (n : N) : string := decimal_fuel (S (N.to_nat (N.log2 n))) n.

Fixpoint zeroes (k : nat) : string :=
  match k with O => EmptyString | S k' => String "0" (zeroes k') end.

(** [x.toFixed(f)] for 0 <= x < 10^21, following the steps of the
    language definition: n is the integer for which n / 10^f - x is
    closest to zero, the larger one if there are two; its digits are
    padded with zeroes to f + 1 characters and the point is put before
    the last f of them. *)
Definition toFixed (x : Q) (f : nat) : string :=
  let n := Z.to_N (Qfloor (x * inject_Z (10 ^ Z.of_nat f) + (1 # 2))%Q) in
  let m := decimal n in
  if Nat.eqb f 0 then m
  else
    let k := String.length m in
    let m := if Nat.leb k f then zeroes (f + 1 - k) +:+ m else m in
    let k := String.length m in
    substring 0 (k - f) m +:+ "." +:+ substring (k - f) f m.

(** [Math.floor], [Math.min] and [Math.max] on finite numbers. *)
Definition floor (x : Q) : Z := Qfloor x.
Definition min (x y : Q) : Q := if Qle_bool x y then x else y.
Definition max (x y : Q) : Q := if Qle_bool x y then y else x.
End JS.

(** ** The objects the validator handles *)

(** A [File]: its declared media type and its size in bytes.  Its content
    is seen by the browser's decoder only (see [Browser]). *)
Module File.
Record t := { type : string; size : N }.
End File.

(** The channel values of a [Uint8ClampedArray]. *)
Definition u8 (b : byte) : Z := Z.of_N (Byte.to_N b).

(** A decoded image.  [width] and [height] are the attributes of the
    element ([unsigned long], so below 2^32).  [pixels img cw ch] is the
    [data] array of [getImageData(0, 0, cw, ch)] after
    [drawImage(img, 0, 0, cw, ch)] on a canvas of [cw] by [ch] pixels: the
    picture resampled by the browser, four bytes (red, green, blue, alpha)
    per pixel, [4 * cw * ch] in all.  The array is read at indices below
    its length only: the loop reads [i] to [i + 3] for a multiple [i] of 4
    below [4 * cw * ch]. *)
Module HTMLImageElement.
Record t := { width : N; height : N; pixels : Z -> Z -> Z -> byte }.
End HTMLImageElement.

(** The [ImageValidation] type of the source, optional fields as options. *)
Module ImageValidation.
Record details_t := {
  width : N;
  height : N;
  sizeMB : Q;
  type : string;
  vegetationScore : option Q
}.
Record t := { ok : bool; reason : option string; details : option details_t }.
End ImageValidation.
Import ImageValidation.

(** ** The browser

    What the run of one validation depends on besides the file: whether
    and how the file's content decodes ([img.onload] or [img.onerror]),
    and whether [canvas.getContext('2d')] yields a context or [null]. *)
Record Browser := {
  decode : File.t -> option HTMLImageElement.t;
  context2d : bool
}.

(** The mutable state: the registry of object URLs.  A URL is modelled by
    its serial number. *)
Record Store := { objectURLs : gmap N File.t; nextURL : N }.

(** ** Effects: state and exceptions

    A computation runs on the store and either returns a value or throws;
    [await] on a rejected promise throws.  The handler of the source binds
    no exception value, so [Throw] carries none. *)
Inductive outcome (A : Type) : Type :=
| Return (a : A)
| Throw.
Arguments Return {A} a.
Arguments Throw {A}.

Definition M (A : Type) : Type := Store -> outcome A * Store.

Definition ret {A} (a : A) : M A := fun s => (Return a, s).
Definition throw {A} : M A := fun s => (Throw, s).
Definition bind {A B} (c : M A) (k : A -> M B) : M B :=
  fun s => match c s with
           | (Return a, s') => k a s'
           | (Throw, s') => (Throw, s')
           end.

Notation "'do' x <- c ; k" := (bind c (fun x => k))
  (at level 10, x name, c at level 100, k at level 200).

(** [try { body } catch { handler } finally { fin }]: the handler runs if
    the body throws, the finaliser runs in every case, and the value (or
    exception) of the body or handler is the result unless the finaliser
    throws. *)
Definition try_catch_finally {A} (body handler : M A) (fin : M unit) : M A :=
  fun s =>
    let '(o, s1) := body s in
    let '(o', s2) := match o with
                     | Return a => (Return a, s1)
                     | Throw => handler s1
                     end in
    match fin s2 with
    | (Return _, s3) => (o', s3)
    | (Throw, s3) => (Throw, s3)
    end.

(** [URL.createObjectURL(file)] and [URL.revokeObjectURL(url)]. *)
Definition createObjectURL (file : File.t) : M N :=
  fun s => (Return (nextURL s),
            {| objectURLs := <[nextURL s := file]> (objectURLs s);
               nextURL := N.succ (nextURL s) |}).

Definition revokeObjectURL (url : N) : M unit :=
  fun s => (Return tt,
            {| objectURLs := delete url (objectURLs s); nextURL := nextURL s |}).

(** ** The source functions *)

(** [loadImageFromBlob]: the promise resolves with the image when the
    browser decodes what the URL stands for, and rejects otherwise. *)
Definition loadImageFromBlob (B : Browser) (blobUrl : N) : M HTMLImageElement.t :=
  fun s => match objectURLs s !! blobUrl with
           | Some file =>
               match decode B file with
               | Some img => ret img s
               | None => throw s
               end
           | None => throw s
           end.

(** [Math.max(img.width, img.height)] *)
Definition longer_side (img : HTMLImageElement.t) : Q :=
  JS.max (Binary64.of_N (HTMLImageElement.width img))
         (Binary64.of_N (HTMLImageElement.height img)).

(** [Math.min(1, maxSide / Math.max(img.width, img.height))].  When both
    sides are 0 the quotient is [Infinity] and the minimum is 1. *)
Definition scale_of (img : HTMLImageElement.t) : Q :=
  let maxSide := 512%Q in
  if Qeq_bool (longer_side img) 0 then 1%Q
  else JS.min 1 (Binary64.div maxSide (longer_side img)).

(** [canvas.width] and [canvas.height]. *)
Definition canvas_width (img : HTMLImageElement.t) : Z :=
  Z.max 1 (JS.floor (Binary64.mul (Binary64.of_N (HTMLImageElement.width img)) (scale_of img))).
Definition canvas_height (img : HTMLImageElement.t) : Z :=
  Z.max 1 (JS.floor (Binary64.mul (Binary64.of_N (HTMLImageElement.height img)) (scale_of img))).

(** [g > r * 1.1 && g > b * 1.1 && g > 60] *)
Definition isGreen (r g b : Z) : bool :=
  Binary64.gtb (inject_Z g) (Binary64.mul (inject_Z r) lit_1_1)
  && Binary64.gtb (inject_Z g) (Binary64.mul (inject_Z b) lit_1_1)
  && (60 <? g)%Z.

(** The [for] loop of [computeVegetationScore], from index [i] on, with
    the counters [greenish] and [total]; one unit of fuel per iteration. *)
Fixpoint scan (fuel : nat) (data : Z -> byte) (length step : Z)
    (i greenish total : Z) : Z * Z :=
  match fuel with
  | O => (greenish, total)
  | S fuel' =>
      if (i <? length)%Z then
        let r := u8 (data i) in
        let g := u8 (data (i + 1)%Z) in
        let b := u8 (data (i + 2)%Z) in
        let a := u8 (data (i + 3)%Z) in
        if (a <? 50)%Z then scan fuel' data length step (i + 4 * step)%Z greenish total
        else
          let total := (total + 1)%Z in
          let greenish := if isGreen r g b then (greenish + 1)%Z else greenish in
          scan fuel' data length step (i + 4 * step)%Z greenish total
      else (greenish, total)
  end.

(** [Math.max(1, Math.floor((data.length / 4) / 10000))] *)
Definition step_of (length : Z) : Z :=
  Z.max 1 (JS.floor (Binary64.div (Binary64.div (inject_Z length) 4) 10000)).

Definition computeVegetationScore (B : Browser) (img : HTMLImageElement.t) : Q :=
  let cw := canvas_width img in
  let ch := canvas_height img in
  if negb (context2d B) then 0%Q
  else
    let data := HTMLImageElement.pixels img cw ch in
    let length := (4 * cw * ch)%Z in
    let step := step_of length in
    let '(greenish, total) := scan (Z.to_nat length) data length step 0 0 0 in
    if (total =? 0)%Z then 0%Q
    else Binary64.div (inject_Z greenish) (inject_Z total).

(** The thresholds: [MAX_IMAGE_MB], [MIN_DIM] and [MIN_VEG_SCORE] are
    constants of the source; the checks are written once for any values
    and [validateImage] is the instance at the source's. *)
Record Limits := { maxImageMB : N; minDim : N; minVegScore : Q }.

Definition MAX_IMAGE_MB : N := 10.
Definition MIN_DIM : N := 256.
Definition MIN_VEG_SCORE : Q := lit_0_08.

Definition source_limits : Limits :=
  {| maxImageMB := MAX_IMAGE_MB; minDim := MIN_DIM; minVegScore := MIN_VEG_SCORE |}.

(** The reason strings. *)
Definition not_an_image : string := "File is not an image.".
Definition too_large (L : Limits) (sizeMB : Q) : string :=
  "Image is too large (" +:+ JS.toFixed sizeMB 1 +:+ " MB). Max "
  +:+ JS.decimal (maxImageMB L) +:+ " MB.".
Definition too_small (L : Limits) (w h : N) : string :=
  "Image is too small (" +:+ JS.decimal w +:+ "x" +:+ JS.decimal h
  +:+ "). Minimum " +:+ JS.decimal (minDim L) +:+ "x" +:+ JS.decimal (minDim L) +:+ ".".
Definition not_a_plant : string :=
  "Wrong image: looks unlike a crop/leaf. Please upload a clear leaf/plant photo.".
Definition could_not_read : string := "Could not read the image. Try another file.".

Definition rejected (why : string) : ImageValidation.t :=
  {| ok := false; reason := Some why; details := None |}.

(** [file.size / (1024 * 1024)] *)
Definition sizeMB_of (file : File.t) : Q :=
  Binary64.div (Binary64.of_N (File.size file)) 1048576.

Definition validateImageWith (L : Limits) (B : Browser) (file : File.t)
    : M ImageValidation.t :=
  if negb (String.prefix "image/" (File.type file)) then ret (rejected not_an_image)
  else
    let sizeMB := sizeMB_of file in
    if Binary64.gtb sizeMB (Binary64.of_N (maxImageMB L))
    then ret (rejected (too_large L sizeMB))
    else
      do blobUrl <- createObjectURL file;
      try_catch_finally
        (do img <- loadImageFromBlob B blobUrl;
         if (HTMLImageElement.width img <? minDim L)%N
            || (HTMLImageElement.height img <? minDim L)%N
         then ret (rejected (too_small L (HTMLImageElement.width img)
                                         (HTMLImageElement.height img)))
         else
           let score := computeVegetationScore B img in
           let d := {| width := HTMLImageElement.width img;
                       height := HTMLImageElement.height img;
                       sizeMB := sizeMB;
                       type := File.type file;
                       vegetationScore := Some score |} in
           if Binary64.ltb score (minVegScore L)
           then ret {| ok := false; reason := Some not_a_plant; details := Some d |}
           else ret {| ok := true; reason := None; details := Some d |})
        (ret (rejected could_not_read))
        (revokeObjectURL blobUrl).

Definition validateImage : Browser -> File.t -> M ImageValidation.t :=
  validateImageWith source_limits.

(** The value [validateImageWith] returns and the store it leaves, as
    functions of the browser, the file and the store it starts from
    (lemma [validateImageWith_run]). *)
Definition verdict_on_image (L : Limits) (B : Browser) (file : File.t)
    (img : HTMLImageElement.t) : ImageValidation.t :=
  if (HTMLImageElement.width img <? minDim L)%N
     || (HTMLImageElement.height img <? minDim L)%N
  then rejected (too_small L (HTMLImageElement.width img) (HTMLImageElement.height img))
  else
    let score := computeVegetationScore B img in
    let d := {| width := HTMLImageElement.width img;
                height := HTMLImageElement.height img;
                sizeMB := sizeMB_of file;
                type := File.type file;
                vegetationScore := Some score |} in
    if Binary64.ltb score (minVegScore L)
    then {| ok := false; reason := Some not_a_plant; details := Some d |}
    else {| ok := true; reason := None; details := Some d |}.

Definition verdict (L : Limits) (B : Browser) (file : File.t) : ImageValidation.t :=
  if negb (String.prefix "image/" (File.type file)) then rejected not_an_image
  else if Binary64.gtb (sizeMB_of file) (Binary64.of_N (maxImageMB L))
  then rejected (too_large L (sizeMB_of file))
  else match decode B file with
       | Some img => verdict_on_image L B file img
       | None => rejected could_not_read
       end.

Definition store_after (L : Limits) (file : File.t) (s : Store) : Store :=
  if negb (String.prefix "image/" (File.type file))
     || Binary64.gtb (sizeMB_of file) (Binary64.of_N (maxImageMB L))
  then s
  else {| objectURLs := delete (nextURL s) (<[nextURL s := file]> (objectURLs s));
          nextURL := N.succ (nextURL s) |}.

(** ** The specification's wording

    The vegetation score as the specification words it, in exact
    arithmetic on integers and rationals; Part II compares it with the
    functions above. *)
Module Spec.
(** "green > red x 1.1 AND green > blue x 1.1 AND green > 60" *)
Definition green_dominant (r g b : Z) : bool :=
  (11 * r <? 10 * g)%Z && (11 * b <? 10 * g)%Z && (60 <? g)%Z.

(** "near-transparent samples (alpha < 50)" *)
Definition transparent (a : Z) : bool := (a <? 50)%Z.

(** "scale factor = min(1, 512 / max(width, height))", for an image with
    a side that is not 0 *)
Definition scale (w h : N) : Q :=
  let q := (512 / inject_Z (Z.of_N (N.max w h)))%Q in
  if Qle_bool 1 q then 1%Q else q.

(** "stride = max(1, totalPixels / 10000)", a whole number of pixels *)
Definition stride (totalPixels : Z) : Z := Z.max 1 (totalPixels / 10000).

(** The pixels [p], [p + stride], [p + 2 stride], ..., [n] of them. *)
Fixpoint points (n : nat) (p stride : Z) : list Z :=
  match n with
  | O => []
  | S n' => p :: points n' (p + stride)%Z stride
  end.

(** The pixels inspected in a buffer of [totalPixels] pixels: every
    [stride]-th one from pixel 0 on. *)
Definition samples (totalPixels : Z) : list Z :=
  let s := stride totalPixels in
  points (Z.to_nat ((totalPixels + s - 1) / s)) 0 s.

(** The channels of pixel [p] of an RGBA buffer. *)
Definition red (data : Z -> byte) (p : Z) : Z := u8 (data (4 * p)%Z).
Definition green (data : Z -> byte) (p : Z) : Z := u8 (data (4 * p + 1)%Z).
Definition blue (data : Z -> byte) (p : Z) : Z := u8 (data (4 * p + 2)%Z).
Definition alpha (data : Z -> byte) (p : Z) : Z := u8 (data (4 * p + 3)%Z).

Definition opaque_in (data : Z -> byte) (ps : list Z) : list Z :=
  List.filter (fun p => negb (transparent (alpha data p))) ps.
Definition green_in (data : Z -> byte) (ps : list Z) : list Z :=
  List.filter (fun p => green_dominant (red data p) (green data p) (blue data p))
              (opaque_in data ps).

(** "count of green-dominant samples" and "count of non-transparent
    samples sampled" *)
Definition green_count (data : Z -> byte) (totalPixels : Z) : Z :=
  Z.of_nat (length (green_in data (samples totalPixels))).
Definition opaque_count (data : Z -> byte) (totalPixels : Z) : Z :=
  Z.of_nat (length (opaque_in data (samples totalPixels))).

(** "Score = (count of green-dominant samples) / (count of
    non-transparent samples sampled).  If no non-transparent samples
    were found, score = 0": the exact ratio. *)
Definition score (data : Z -> byte) (totalPixels : Z) : Q :=
  if (opaque_count data totalPixels =? 0)%Z then 0%Q
  else (inject_Z (green_count data totalPixels)
        / inject_Z (opaque_count data totalPixels))%Q.

(** A raster without a single non-transparent pixel. *)
Definition all_transparent (data : Z -> byte) : Prop :=
  forall p : Z, (alpha data p < 50)%Z.
End Spec.

(** ** Sample inputs *)

(** The bytes of a uniformly green, opaque raster: (0, 200, 0, 255). *)
Definition green_data (i : Z) : byte :=
  match (i mod 4)%Z with
  | 0%Z => x00
  | 1%Z => xc8
  | 2%Z => x00
  | _ => xff
  end.

(** The bytes of a fully transparent raster: (0, 0, 0, 0). *)
Definition clear_data (i : Z) : byte := x00.

Definition uniform_image (w h : N) (data : Z -> byte) : HTMLImageElement.t :=
  {| HTMLImageElement.width := w; HTMLImageElement.height := h;
     HTMLImageElement.pixels := fun _ _ => data |}.

Definition browser_with (img : option HTMLImageElement.t) : Browser :=
  {| decode := fun _ => img; context2d := true |}.

Definition png (bytes : N) : File.t := {| File.type := "image/png"; File.size := bytes |}.

Definition empty_store : Store := {| objectURLs := ∅; nextURL := 0 |}.

(** ** The disease table

    [Treatment], [Disease], [DISEASE_DATABASE] and [getRandomDisease] of
    the data module, and the crop options of the two crop selects. *)
Module Treatment.
Inductive kind : Type := fertilizer | pesticide | organic.
Record t := {
  type : kind;
  name : string;
  dosage : string;
  application : string;
  timing : string
}.
End Treatment.

Module Disease.
Inductive severity_t : Type := Low | Medium | High.
Record t := {
  name : string;
  confidence : N;
  severity : severity_t;
  description : string;
  treatments : list Treatment.t;
  prevention : list string
}.
End Disease.

Definition early_blight : Disease.t :=
  {| Disease.name := "Early Blight";
     Disease.confidence := 92;
     Disease.severity := Disease.Medium;
     Disease.description := "A common fungal disease affecting tomato leaves, causing dark spots with concentric rings. Can reduce yield significantly if left untreated.";
     Disease.treatments :=
       [ {| Treatment.type := Treatment.fertilizer;
            Treatment.name := "Balanced NPK (10-10-10)";
            Treatment.dosage := "2-3 kg per acre";
            Treatment.application := "Soil application around plant base";
            Treatment.timing := "Every 2 weeks" |};
         {| Treatment.type := Treatment.pesticide;
            Treatment.name := "Chlorothalonil Fungicide";
            Treatment.dosage := "2ml per liter water";
            Treatment.application := "Foliar spray covering all leaves";
            Treatment.timing := "Early morning or evening" |};
         {| Treatment.type := Treatment.organic;
            Treatment.name := "Neem Oil";
            Treatment.dosage := "5ml per liter water";
            Treatment.application := "Spray on affected areas";
            Treatment.timing := "Weekly application" |} ];
     Disease.prevention :=
       [ "Ensure proper air circulation between plants";
         "Avoid overhead watering to reduce leaf wetness";
         "Remove infected plant debris promptly";
         "Apply mulch to prevent soil splash on leaves";
         "Rotate crops every 2-3 years" ] |}.

Definition blast_disease : Disease.t :=
  {| Disease.name := "Blast Disease";
     Disease.confidence := 87;
     Disease.severity := Disease.High;
     Disease.description := "A serious fungal disease causing lesions on leaves, stems, and panicles. Can cause significant yield losses in rice crops.";
     Disease.treatments :=
       [ {| Treatment.type := Treatment.fertilizer;
            Treatment.name := "Potassium Chloride";
            Treatment.dosage := "50 kg per hectare";
            Treatment.application := "Basal application before transplanting";
            Treatment.timing := "At planting time" |};
         {| Treatment.type := Treatment.pesticide;
            Treatment.name := "Tricyclazole";
            Treatment.dosage := "75g per 100L water";
            Treatment.application := "Foliar spray";
            Treatment.timing := "At first symptom appearance" |};
         {| Treatment.type := Treatment.organic;
            Treatment.name := "Silicon Fertilizer";
            Treatment.dosage := "100 kg per hectare";
            Treatment.application := "Soil application";
            Treatment.timing := "Before tillering stage" |} ];
     Disease.prevention :=
       [ "Use resistant rice varieties";
         "Maintain proper water management";
         "Avoid excessive nitrogen fertilization";
         "Practice field sanitation";
         "Monitor and remove infected plants early" ] |}.

Definition late_blight : Disease.t :=
  {| Disease.name := "Late Blight";
     Disease.confidence := 94;
     Disease.severity := Disease.High;
     Disease.description := "A devastating disease caused by Phytophthora infestans that can destroy entire potato crops within days under favorable conditions.";
     Disease.treatments :=
       [ {| Treatment.type := Treatment.fertilizer;
            Treatment.name := "Calcium Nitrate";
            Treatment.dosage := "200 kg per hectare";
            Treatment.application := "Side dressing around plants";
            Treatment.timing := "During active growth" |};
         {| Treatment.type := Treatment.pesticide;
            Treatment.name := "Metalaxyl + Mancozeb";
            Treatment.dosage := "2.5g per liter water";
            Treatment.application := "Preventive foliar spray";
            Treatment.timing := "Every 7-10 days" |};
         {| Treatment.type := Treatment.organic;
            Treatment.name := "Copper Oxychloride";
            Treatment.dosage := "3g per liter water";
            Treatment.application := "Foliar spray";
            Treatment.timing := "Weekly during humid conditions" |} ];
     Disease.prevention :=
       [ "Plant certified disease-free seed potatoes";
         "Ensure good drainage and air circulation";
         "Remove volunteer potatoes and infected plant debris";
         "Monitor weather conditions for disease-favorable periods";
         "Apply preventive fungicide sprays" ] |}.

(** The record [getRandomDisease] returns for a crop without an entry. *)
Definition default_disease : Disease.t :=
  {| Disease.name := "Fungal Leaf Spot";
     Disease.confidence := 78;
     Disease.severity := Disease.Medium;
     Disease.description := "A common fungal infection causing circular spots on leaves. Can be managed with proper fungicide application and cultural practices.";
     Disease.treatments :=
       [ {| Treatment.type := Treatment.fertilizer;
            Treatment.name := "Balanced NPK (15-15-15)";
            Treatment.dosage := "25 kg per acre";
            Treatment.application := "Broadcast and incorporate into soil";
            Treatment.timing := "Monthly application" |};
         {| Treatment.type := Treatment.pesticide;
            Treatment.name := "Copper-based Fungicide";
            Treatment.dosage := "2-3g per liter water";
            Treatment.application := "Foliar spray on affected areas";
            Treatment.timing := "Every 10-14 days" |};
         {| Treatment.type := Treatment.organic;
            Treatment.name := "Compost Tea";
            Treatment.dosage := "1:10 ratio with water";
            Treatment.application := "Soil drench around plants";
            Treatment.timing := "Bi-weekly application" |} ];
     Disease.prevention :=
       [ "Maintain proper plant spacing for air circulation";
         "Remove infected plant material immediately";
         "Avoid overhead irrigation during humid periods";
         "Apply organic mulch to suppress soil-borne pathogens";
         "Practice crop rotation with non-host plants" ] |}.

(** The own properties of the [DISEASE_DATABASE] object.  The properties
    an object inherits from [Object.prototype] ("constructor", ...) are
    not modelled: the crop types the application looks up are the options
    of its crop selects, [crop_options], none of which names one. *)
Definition DISEASE_DATABASE : gmap string (list Disease.t) :=
  <["Tomato" := [early_blight]]>
    (<["Rice" := [blast_disease]]>
       (<["Potato" := [late_blight]]> ∅)).

Definition CROP_TYPES : list string :=
  [ "Rice"; "Wheat"; "Corn"; "Tomato"; "Potato"; "Cotton"; "Soybean";
    "Sugarcane"; "Banana"; "Apple"; "Grapes"; "Citrus"; "Other" ].

(** The values of the options of a crop select: the empty placeholder and
    the crop types. *)
Definition crop_options : list string := EmptyString :: CROP_TYPES.

(** What [Math.random()] may return: a number, at least 0 and below 1. *)
Definition is_random (x : Q) : Prop :=
  (Binary64.fl x == x)%Q /\ (0 <= x)%Q /\ (x < 1)%Q.

(** [l[Math.floor(random * l.length)]]; [None] stands for [undefined],
    the value of an index outside the array. *)
Definition random_element {A : Type} (random : Q) (l : list A) : option A :=
  let i := JS.floor (Binary64.mul random (Binary64.of_Z (Z.of_nat (length l)))) in
  if (i <? 0)%Z then None else nth_error l (Z.to_nat i).

Definition getRandomDisease (random : Q) (cropType : string) : option Disease.t :=
  match DISEASE_DATABASE !! cropType with
  | Some diseases =>
      if (0 <? length diseases)%nat then random_element random diseases
      else Some default_disease
  | None => Some default_disease
  end.

(** ** The application state and its handlers *)
Module Step.
Inductive t : Type := home | image | text | results.
End Step.

Module Mode.
Inductive t : Type := image | text.
End Mode.

(** The state variables of [App]. *)
Module App.
Record t := {
  selectedImage : option File.t;
  symptoms : string;
  cropType : string;
  analysis : option Disease.t;
  isAnalyzing : bool;
  currentStep : Step.t;
  analysisMode : option Mode.t;
  errorMsg : option string;
  infoMsg : option string
}.
End App.

(** The state of the first render. *)
Definition initial_state : App.t :=
  {| App.selectedImage := None; App.symptoms := EmptyString;
     App.cropType := EmptyString; App.analysis := None;
     App.isAnalyzing := false; App.currentStep := Step.home;
     App.analysisMode := None; App.errorMsg := None; App.infoMsg := None |}.

(** A call of a state setter with its argument. *)
Inductive action : Type :=
| setSelectedImage (file : option File.t)
| setSymptoms (s : string)
| setCropType (c : string)
| setAnalysis (d : option Disease.t)
| setIsAnalyzing (b : bool)
| setCurrentStep (s : Step.t)
| setAnalysisMode (m : option Mode.t)
| setErrorMsg (m : option string)
| setInfoMsg (m : option string).

Definition apply_action (st : App.t) (a : action) : App.t :=
  let '{| App.selectedImage := img; App.symptoms := sy; App.cropType := ct;
          App.analysis := an; App.isAnalyzing := ia; App.currentStep := cs;
          App.analysisMode := am; App.errorMsg := em; App.infoMsg := im |} := st in
  match a with
  | setSelectedImage v => App.Build_t v sy ct an ia cs am em im
  | setSymptoms v => App.Build_t img v ct an ia cs am em im
  | setCropType v => App.Build_t img sy v an ia cs am em im
  | setAnalysis v => App.Build_t img sy ct v ia cs am em im
  | setIsAnalyzing v => App.Build_t img sy ct an v cs am em im
  | setCurrentStep v => App.Build_t img sy ct an ia v am em im
  | setAnalysisMode v => App.Build_t img sy ct an ia cs v em im
  | setErrorMsg v => App.Build_t img sy ct an ia cs am v im
  | setInfoMsg v => App.Build_t img sy ct an ia cs am em v
  end.

(** The state after a sequence of setter calls, and every state on the
    way (what a render between two calls would show). *)
Definition run (acts : list action) (st : App.t) : App.t :=
  fold_left apply_action acts st.

Fixpoint states (acts : list action) (st : App.t) : list App.t :=
  match acts with
  | [] => [st]
  | a :: acts' => st :: states acts' (apply_action st a)
  end.

Definition handleImageSelect (file : File.t) : list action :=
  [setSelectedImage (Some file); setErrorMsg None; setInfoMsg None].

Definition handleRemoveImage : list action :=
  [setSelectedImage None; setCurrentStep Step.image; setAnalysis None;
   setErrorMsg None; setInfoMsg None].

Definition resetAnalysis : list action :=
  [setAnalysis None; setIsAnalyzing false; setAnalysisMode None;
   setCurrentStep Step.home; setSelectedImage None; setSymptoms EmptyString;
   setCropType EmptyString; setErrorMsg None; setInfoMsg None].

Definition startImageAnalysis : list action :=
  [setCurrentStep Step.image; setAnalysisMode (Some Mode.image); setErrorMsg None;
   setInfoMsg (Some "Upload a clear photo of a leaf or plant. Blurry or non-plant images will be rejected.")].

Definition startTextAnalysis : list action :=
  [setCurrentStep Step.text; setAnalysisMode (Some Mode.text); setErrorMsg None;
   setInfoMsg None].

(** [handleFile] of the upload component: a file is handed to
    [onImageSelect] (the [handleImageSelect] of [App]) only when its type
    starts with "image/". *)
Definition handleFile (file : File.t) : list action :=
  if String.prefix "image/" (File.type file) then handleImageSelect file else [].

(** The size label under the preview:
    [(selectedImage.size / 1024 / 1024).toFixed(2)]. *)
Definition preview_size (file : File.t) : string :=
  JS.toFixed (Binary64.div (Binary64.div (Binary64.of_N (File.size file)) 1024) 1024) 2.

(** The form data sent to the backend; the three treatment arrays are
    the values handed to [JSON.stringify]. *)
Module Payload.
Record t := {
  image : option File.t;
  cropName : string;
  diseaseDetected : string;
  confidence : string;
  severity : string;
  description : string;
  fertilizer : list Treatment.t;
  pesticide : list Treatment.t;
  organic : list Treatment.t;
  symptoms : string
}.
End Payload.

Definition severity_name (s : Disease.severity_t) : string :=
  match s with
  | Disease.Low => "Low"
  | Disease.Medium => "Medium"
  | Disease.High => "High"
  end.

Definition kind_eqb (a b : Treatment.kind) : bool :=
  match a, b with
  | Treatment.fertilizer, Treatment.fertilizer => true
  | Treatment.pesticide, Treatment.pesticide => true
  | Treatment.organic, Treatment.organic => true
  | _, _ => false
  end.

(** [disease.treatments.filter(t => t.type === k)] *)
Definition treatments_of (k : Treatment.kind) (d : Disease.t) : list Treatment.t :=
  List.filter (fun t => kind_eqb (Treatment.type t) k) (Disease.treatments d).

Definition payload_of (st : App.t) (d : Disease.t) : Payload.t :=
  {| Payload.image := App.selectedImage st;
     Payload.cropName := App.cropType st;
     Payload.diseaseDetected := Disease.name d;
     Payload.confidence := JS.decimal (Disease.confidence d);
     Payload.severity := severity_name (Disease.severity d);
     Payload.description := Disease.description d;
     Payload.fertilizer := treatments_of Treatment.fertilizer d;
     Payload.pesticide := treatments_of Treatment.pesticide d;
     Payload.organic := treatments_of Treatment.organic d;
     Payload.symptoms := App.symptoms st |}.

(** How the request to the backend ends: the response is read and is
    valid JSON; the response is not [ok]; or [fetch], [res.text()] or
    [res.json()] rejects with an error of the given message. *)
Inductive fetch_result : Type :=
| Saved
| HttpError (status : N) (errorText : string)
| Failed (message : string).

(** What a run of [handleAnalyze] meets outside the state: the browser,
    the value of [Math.random()], the backend, and the message of the
    [TypeError] thrown on reading a property of [undefined]. *)
Record World := {
  browser : Browser;
  random : Q;
  backend : Payload.t -> fetch_result;
  type_error : string
}.

(** [err.message || 'Failed to save analysis to backend. Please try again.'] *)
Definition message_or_default (message : string) : string :=
  if String.eqb message EmptyString
  then "Failed to save analysis to backend. Please try again."
  else message.

(** The [try] block that sends the result, with its handler. *)
Definition save_actions (r : fetch_result) : list action :=
  match r with
  | Saved => [setInfoMsg (Some "Analysis saved successfully!")]
  | HttpError status errorText =>
      [setErrorMsg (Some (message_or_default
                            ("Backend error: " +:+ JS.decimal status +:+ " " +:+ errorText)))]
  | Failed message => [setErrorMsg (Some (message_or_default message))]
  end.

(** [handleAnalyze] from [setAnalysisMode(mode)] on: the setter calls and
    the request sent, if one is. *)
Definition analyze_and_save (W : World) (m : Mode.t) (st : App.t)
    : list action * option Payload.t :=
  let disease := getRandomDisease (random W) (App.cropType st) in
  let start := [setAnalysisMode (Some m); setCurrentStep Step.results;
                setAnalysis disease] in
  match disease with
  | Some d =>
      (start ++ save_actions (backend W (payload_of st d)) ++ [setIsAnalyzing false],
       Some (payload_of st d))
  | None =>
      (start ++ [setErrorMsg (Some (message_or_default (type_error W)))]
             ++ [setIsAnalyzing false],
       None)
  end.

(** [handleAnalyze]: the setter calls of one run in the order they are
    made, the request sent to the backend if one is, and the store left
    when nothing else touches it meanwhile.  The handler reads
    [selectedImage], [symptoms] and [cropType] from the render it was
    created in, [st].  The run is taken whole here; [handleAnalyze_start]
    and [handleAnalyze_resume] below divide it at its waits. *)
Definition handleAnalyze (W : World) (m : Mode.t) (st : App.t) (s : Store)
    : list action * option Payload.t * Store :=
  let clear := [setErrorMsg None; setInfoMsg None] in
  match m with
  | Mode.image =>
      match App.selectedImage st with
      | None => (clear, None, s)
      | Some file =>
          match validateImage (browser W) file s with
          | (Return validation, s') =>
              if negb (ok validation) then
                (clear ++ [setIsAnalyzing true; setIsAnalyzing false; setAnalysis None;
                           setCurrentStep Step.image;
                           setErrorMsg (Some (match reason validation with
                                              | Some why => why
                                              | None => "Wrong image. Please upload a clear crop/leaf photo."
                                              end))],
                 None, s')
              else
                let '(acts, request) := analyze_and_save W m st in
                (clear ++ [setIsAnalyzing true] ++ acts, request, s')
          | (Throw, s') => (clear ++ [setIsAnalyzing true], None, s')
          end
      end
  | Mode.text =>
      if String.eqb (App.symptoms st) EmptyString
         && String.eqb (App.cropType st) EmptyString
      then (clear, None, s)
      else
        let '(acts, request) := analyze_and_save W m st in
        (clear ++ [setIsAnalyzing true] ++ acts, request, s)
  end.

(** ** Runs of [handleAnalyze] in time

    [handleAnalyze] is an async function: a run gives control back at an
    [await] on something the browser delivers later, which is the loaded
    image (l.327, inside [validateImage] at l.272), the timer (l.346) or
    the answer of the backend (l.371 to l.382).  While a run waits the
    user can act and another run can be started; when it is resumed it
    goes on with the [selectedImage], [symptoms] and [cropType] of the
    render it was started in.  An [await] on a promise that is settled
    already (l.327 when [validateImage] returns before its own [await])
    resumes before the browser delivers anything else, so a run is not
    divided there; and no setter is called between [fetch], [res.text()]
    and [res.json()], so the wait for the backend counts as one. *)

(** [validateImage] up to its [await]: the two checks on the file, and
    past them the object URL. *)
Definition validateImage_start (L : Limits) (file : File.t)
    : M (ImageValidation.t + N) :=
  if negb (String.prefix "image/" (File.type file)) then ret (inl (rejected not_an_image))
  else
    let sizeMB := sizeMB_of file in
    if Binary64.gtb sizeMB (Binary64.of_N (maxImageMB L))
    then ret (inl (rejected (too_large L sizeMB)))
    else
      do blobUrl <- createObjectURL file;
      ret (inr blobUrl).

(** [validateImage] from its [await] on: the [try] statement. *)
Definition validateImage_finish (L : Limits) (B : Browser) (file : File.t)
    (blobUrl : N) : M ImageValidation.t :=
  try_catch_finally
    (do img <- loadImageFromBlob B blobUrl;
     if (HTMLImageElement.width img <? minDim L)%N
        || (HTMLImageElement.height img <? minDim L)%N
     then ret (rejected (too_small L (HTMLImageElement.width img)
                                     (HTMLImageElement.height img)))
     else
       let score := computeVegetationScore B img in
       let d := {| width := HTMLImageElement.width img;
                   height := HTMLImageElement.height img;
                   sizeMB := sizeMB_of file;
                   type := File.type file;
                   vegetationScore := Some score |} in
       if Binary64.ltb score (minVegScore L)
       then ret {| ok := false; reason := Some not_a_plant; details := Some d |}
       else ret {| ok := true; reason := None; details := Some d |})
    (ret (rejected could_not_read))
    (revokeObjectURL blobUrl).

(** A run that waits: for the image to load, for the timer, or for the
    backend; with the world it meets and the state of the render it was
    started in. *)
Inductive suspended : Type :=
| AwaitImage (W : World) (st : App.t) (file : File.t) (blobUrl : N)
| AwaitTimer (W : World) (m : Mode.t) (st : App.t)
| AwaitBackend (W : World) (st : App.t) (d : Disease.t).

(** l.328 to l.343 in image mode: what follows the validation. *)
Definition after_validation (W : World) (st : App.t) (validation : ImageValidation.t)
    : list action * option suspended :=
  if negb (ok validation) then
    ([setIsAnalyzing false; setAnalysis None; setCurrentStep Step.image;
      setErrorMsg (Some (match reason validation with
                         | Some why => why
                         | None => "Wrong image. Please upload a clear crop/leaf photo."
                         end))],
     None)
  else
    ([setAnalysisMode (Some Mode.image); setCurrentStep Step.results],
     Some (AwaitTimer W Mode.image st)).

(** [handleAnalyze] from the click to its first wait: the setter calls,
    the wait it stops at if it does, and the store. *)
Definition handleAnalyze_start (W : World) (m : Mode.t) (st : App.t) (s : Store)
    : list action * option suspended * Store :=
  let clear := [setErrorMsg None; setInfoMsg None] in
  match m with
  | Mode.image =>
      match App.selectedImage st with
      | None => (clear, None, s)
      | Some file =>
          match validateImage_start source_limits file s with
          | (Return (inl validation), s') =>
              let '(acts, next) := after_validation W st validation in
              (clear ++ [setIsAnalyzing true] ++ acts, next, s')
          | (Return (inr blobUrl), s') =>
              (clear ++ [setIsAnalyzing true], Some (AwaitImage W st file blobUrl), s')
          | (Throw, s') => (clear ++ [setIsAnalyzing true], None, s')
          end
      end
  | Mode.text =>
      if String.eqb (App.symptoms st) EmptyString
         && String.eqb (App.cropType st) EmptyString
      then (clear, None, s)
      else
        (clear ++ [setIsAnalyzing true; setAnalysisMode (Some Mode.text);
                   setCurrentStep Step.results],
         Some (AwaitTimer W Mode.text st), s)
  end.

(** [handleAnalyze] from a wait to the next: the setter calls, the next
    wait if there is one, the request if one is sent, and the store. *)
Definition handleAnalyze_resume (t : suspended) (s : Store)
    : list action * option suspended * option Payload.t * Store :=
  match t with
  | AwaitImage W st file blobUrl =>
      match validateImage_finish source_limits (browser W) file blobUrl s with
      | (Return validation, s') =>
          let '(acts, next) := after_validation W st validation in
          (acts, next, None, s')
      | (Throw, s') => ([], None, None, s')
      end
  | AwaitTimer W m st =>
      match getRandomDisease (random W) (App.cropType st) with
      | Some d =>
          ([setAnalysis (Some d)], Some (AwaitBackend W st d), Some (payload_of st d), s)
      | None =>
          ([setAnalysis None; setErrorMsg (Some (message_or_default (type_error W)));
            setIsAnalyzing false],
           None, None, s)
      end
  | AwaitBackend W st d =>
      (save_actions (backend W (payload_of st d)) ++ [setIsAnalyzing false],
       None, None, s)
  end.

(** A run that nothing interrupts: each wait is followed at once by what
    it waits for. *)
Fixpoint to_the_end (fuel : nat) (t : option suspended) (s : Store)
    : list action * option Payload.t * Store :=
  match fuel, t with
  | S fuel', Some t =>
      let '(acts, next, request, s') := handleAnalyze_resume t s in
      let '(acts', request', s'') := to_the_end fuel' next s' in
      (acts ++ acts',
       match request with Some p => Some p | None => request' end,
       s'')
  | _, _ => ([], None, s)
  end.

(** The application with the runs that wait. *)
Record System := { state : App.t; store : Store; pending : list suspended }.

Definition initial_system (s : Store) : System :=
  {| state := initial_state; store := s; pending := [] |}.

(** What happens: the user acts on a control, or a run that waits is
    given what it waits for. *)
Inductive event : Type :=
| FileChosen (file : File.t)
| ImageRemoved
| NewAnalysis
| ImageAnalysisStarted
| TextAnalysisStarted
| BackToOptions
| CropChosen (c : string)
| SymptomsTyped (s : string)
| AnalyzeClicked (m : Mode.t) (W : World)
| Resumed (i : nat).

Definition handle (e : event) (sys : System) : System :=
  let st := state sys in
  let s := store sys in
  let ts := pending sys in
  match e with
  | FileChosen file => {| state := run (handleFile file) st; store := s; pending := ts |}
  | ImageRemoved => {| state := run handleRemoveImage st; store := s; pending := ts |}
  | NewAnalysis => {| state := run resetAnalysis st; store := s; pending := ts |}
  | ImageAnalysisStarted => {| state := run startImageAnalysis st; store := s; pending := ts |}
  | TextAnalysisStarted => {| state := run startTextAnalysis st; store := s; pending := ts |}
  | BackToOptions => {| state := run [setCurrentStep Step.home] st; store := s; pending := ts |}
  | CropChosen c => {| state := run [setCropType c] st; store := s; pending := ts |}
  | SymptomsTyped v => {| state := run [setSymptoms v] st; store := s; pending := ts |}
  | AnalyzeClicked m W =>
      let '(acts, next, s') := handleAnalyze_start W m st s in
      {| state := run acts st; store := s';
         pending := match next with Some t => ts ++ [t] | None => ts end |}
  | Resumed i =>
      match ts !! i with
      | Some t =>
          let '(acts, next, _, s') := handleAnalyze_resume t s in
          {| state := run acts st; store := s';
             pending := match next with
                        | Some t' => <[i := t']> ts
                        | None => delete i ts
                        end |}
      | None => sys
      end
  end.

(** An event the browser can deliver: a crop is chosen among the options
    of a select, and [Math.random()] returns a number in [0, 1). *)
Definition possible (e : event) : Prop :=
  match e with
  | CropChosen c => In c crop_options
  | AnalyzeClicked _ W => is_random (random W)
  | _ => True
  end.

(** The states the application can pass through: the initial one and
    those an event leads to, whatever runs wait.  Here an event is taken
    at any time; [enabled] below tells the events the state offers. *)
Inductive reachable_system : System -> Prop :=
| reachable_initial (s : Store) : reachable_system (initial_system s)
| reachable_step (e : event) (sys : System) :
    reachable_system sys -> possible e -> reachable_system (handle e sys).

Definition reachable (st : App.t) (s : Store) : Prop :=
  exists ts, reachable_system {| state := st; store := s; pending := ts |}.

Definition on_step (a : Step.t) (st : App.t) : bool :=
  match a, App.currentStep st with
  | Step.home, Step.home | Step.image, Step.image
  | Step.text, Step.text | Step.results, Step.results => true
  | _, _ => false
  end.

Definition has_image (st : App.t) : bool :=
  match App.selectedImage st with Some _ => true | None => false end.

Definition has_analysis (st : App.t) : bool :=
  match App.analysis st with Some _ => true | None => false end.

(** A truthy string of JavaScript: one that is not empty. *)
Definition truthy (v : string) : bool := negb (String.eqb v EmptyString).

(** The events a state offers: the controls its render contains and
    does not disable (l.462 to l.682), and the runs that wait.  The
    upload component is on the image step; its own preview state is left
    out, so a file can be chosen whenever the step is shown and the image
    removed whenever one is selected. *)
Definition enabled (e : event) (sys : System) : bool :=
  let st := state sys in
  match e with
  | FileChosen _ => on_step Step.image st
  | ImageRemoved => on_step Step.image st && has_image st
  | NewAnalysis => on_step Step.results st && has_analysis st
  | ImageAnalysisStarted | TextAnalysisStarted => on_step Step.home st
  | BackToOptions => on_step Step.image st || on_step Step.text st
  | CropChosen _ => (on_step Step.image st && has_image st) || on_step Step.text st
  | SymptomsTyped _ => on_step Step.text st
  | AnalyzeClicked Mode.image _ =>
      on_step Step.image st && has_image st && negb (App.isAnalyzing st)
  | AnalyzeClicked Mode.text _ =>
      on_step Step.text st
      && (truthy (App.symptoms st) || truthy (App.cropType st))
      && negb (App.isAnalyzing st)
  | Resumed i => match pending sys !! i with Some _ => true | None => false end
  end.

(** The events of a list one after the other, each one offered by the
    state it meets. *)
Fixpoint play (es : list event) (sys : System) : option System :=
  match es with
  | [] => Some sys
  | e :: es' => if enabled e sys then play es' (handle e sys) else None
  end.

(** The object URLs of the runs that wait for their image, each with
    the file of its run. *)
Fixpoint waiting_urls (ts : list suspended) : list (N * File.t) :=
  match ts with
  | [] => []
  | AwaitImage _ _ file blobUrl :: ts' => (blobUrl, file) :: waiting_urls ts'
  | _ :: ts' => waiting_urls ts'
  end.

(** The file is past the two checks [validateImage] makes before its
    [await]. *)
Definition past_file_checks (file : File.t) : Prop :=
  String.prefix "image/" (File.type file) = true
  /\ Binary64.gtb (sizeMB_of file) (Binary64.of_N MAX_IMAGE_MB) = false.

(** The object URL of every run that waits for its image is bound to
    the file of the run, and no two of these runs share a URL. *)
Definition urls_kept (sys : System) : Prop :=
  (forall blobUrl file, (blobUrl, file) ∈ waiting_urls (pending sys) ->
      (blobUrl < nextURL (store sys))%N
      /\ objectURLs (store sys) !! blobUrl = Some file
      /\ past_file_checks file)
  /\ NoDup (fst <$> waiting_urls (pending sys)).

(** The setters [handleAnalyze] never calls: those of the inputs. *)
Definition keeps_inputs (a : action) : bool :=
  match a with
  | setSelectedImage _ | setSymptoms _ | setCropType _ => false
  | _ => true
  end.

(** The analysis goes past its guards: in image mode an image is selected
    and the validation accepts it, in text mode the symptoms or the crop
    type are given. *)
Definition goes_through (W : World) (m : Mode.t) (st : App.t) (s : Store) : Prop :=
  match m with
  | Mode.image =>
      exists file v,
        App.selectedImage st = Some file
        /\ fst (validateImage (browser W) file s) = Return v
        /\ ok v = true
  | Mode.text => App.symptoms st <> EmptyString \/ App.cropType st <> EmptyString
  end.

(* ================================================================== *)
(** * Part II: lemmas *)
(* ================================================================== *)

(** ** Rounding to binary64 *)
Module Binary64Facts.
Import Binary64.
Local Open Scope Q_scope.

Lemma pow2_pos e : 0 < 2 ^ e.
Proof. apply Qpower_0_lt. reflexivity. Qed.

Lemma pow2_add a b : 2 ^ (a + b) == 2 ^ a * 2 ^ b.
Proof. apply Qpower_plus. discriminate. Qed.

Lemma pow2_succ a : 2 ^ (a + 1) == 2 * 2 ^ a.
Proof. rewrite pow2_add. change (2 ^ 1) with 2. ring. Qed.

Lemma pow2_le a b : (a <= b)%Z -> 2 ^ a <= 2 ^ b.
Proof. intros H. apply Qpower_le_compat_l; [exact H | discriminate]. Qed.

Lemma pow2_lt_inv a b : 2 ^ a < 2 ^ b -> (a < b)%Z.
Proof. intros H. apply (Qpower_lt_compat_l_inv 2); [exact H | reflexivity]. Qed.

Lemma pow2_Z n : (0 <= n)%Z -> inject_Z (2 ^ n) == 2 ^ n.
Proof. intros H. apply (Zpower_Qpower 2 n H). Qed.

Lemma Zlog2_Q n : (0 < n)%Z ->
  2 ^ Z.log2 n <= inject_Z n /\ inject_Z n < 2 ^ (Z.log2 n + 1).
Proof.
  intros Hn. destruct (Z.log2_spec n Hn) as [Hlo Hhi].
  pose proof (Z.log2_nonneg n) as H0.
  split.
  - rewrite <- pow2_Z by exact H0. rewrite <- Zle_Qle. exact Hlo.
  - rewrite <- pow2_Z by lia. rewrite <- Zlt_Qlt.
    replace (Z.log2 n + 1)%Z with (Z.succ (Z.log2 n)) by lia. exact Hhi.
Qed.

(** [ilog2] brackets a positive number between two powers of two. *)
Lemma ilog2_spec x : 0 < x -> 2 ^ ilog2 x <= x /\ x < 2 ^ (ilog2 x + 1).
Proof.
  intros Hx. unfold ilog2.
  destruct x as [n d]. cbn [Qnum Qden].
  assert (Hn : (0 < n)%Z) by (unfold Qlt in Hx; cbn in Hx; lia).
  destruct (Zlog2_Q n Hn) as [Hn1 Hn2].
  destruct (Zlog2_Q (Zpos d) eq_refl) as [Hd1 Hd2].
  set (ln := Z.log2 n) in *. set (ld := Z.log2 (Zpos d)) in *.
  assert (Hdpos : 0 < inject_Z (Zpos d)) by reflexivity.
  assert (HxD : (n # d) * inject_Z (Zpos d) == inject_Z n).
  { rewrite (Qmake_Qdiv n d). field. intro E. rewrite E in Hdpos. discriminate. }
  set (N := inject_Z n) in *. set (D := inject_Z (Zpos d)) in *.
  pose proof (pow2_pos (ln - ld)) as Hp.
  pose proof (pow2_pos ld) as Hpd.
  assert (E1 : 2 ^ ln == 2 ^ (ln - ld) * 2 ^ ld).
  { rewrite <- pow2_add. replace (ln - ld + ld)%Z with ln by lia. reflexivity. }
  pose proof (pow2_succ ld) as E2. pose proof (pow2_succ ln) as E3.
  destruct (Qle_bool (2 ^ (ln - ld)) (n # d)) eqn:Hb.
  - apply Qle_bool_iff in Hb. split; [exact Hb|].
    rewrite pow2_succ.
    apply Qmult_lt_r with (z := D); [exact Hdpos|].
    rewrite HxD. nra.
  - assert (Hlt : (n # d) < 2 ^ (ln - ld)).
    { apply Qnot_le_lt. intro H. apply Qle_bool_iff in H. congruence. }
    replace (ln - ld - 1 + 1)%Z with (ln - ld)%Z by lia.
    split; [|exact Hlt].
    assert (E4 : 2 ^ (ln - ld) == 2 * 2 ^ (ln - ld - 1)).
    { rewrite <- pow2_succ. replace (ln - ld - 1 + 1)%Z with (ln - ld)%Z by lia.
      reflexivity. }
    apply Qmult_le_r with (z := D); [exact Hdpos|].
    rewrite HxD.
    pose proof (pow2_pos (ln - ld - 1)).
    nra.
Qed.

Lemma ilog2_unique x k : 2 ^ k <= x -> x < 2 ^ (k + 1) -> ilog2 x = k.
Proof.
  intros H1 H2.
  assert (Hx : 0 < x) by (pose proof (pow2_pos k); lra).
  destruct (ilog2_spec x Hx) as [H3 H4].
  assert (ilog2 x < k + 1)%Z by (apply pow2_lt_inv; lra).
  assert (k < ilog2 x + 1)%Z by (apply pow2_lt_inv; lra).
  lia.
Qed.

Lemma Qfloor_bounds x : inject_Z (Qfloor x) <= x /\ x < inject_Z (Qfloor x) + 1.
Proof.
  split; [apply Qfloor_le|].
  pose proof (Qlt_floor x) as H. rewrite inject_Z_plus in H. exact H.
Qed.

Lemma Qfloor_unique x z : inject_Z z <= x -> x < inject_Z z + 1 -> Qfloor x = z.
Proof.
  intros H1 H2. destruct (Qfloor_bounds x) as [H3 H4].
  assert (z < Qfloor x + 1)%Z.
  { rewrite Zlt_Qlt, inject_Z_plus. change (inject_Z 1) with 1. lra. }
  assert (Qfloor x < z + 1)%Z.
  { rewrite Zlt_Qlt, inject_Z_plus. change (inject_Z 1) with 1. lra. }
  lia.
Qed.

Ltac Qcompare_facts :=
  repeat match goal with
  | H : Qcompare _ _ = Eq |- _ => apply Qeq_alt in H
  | H : Qcompare _ _ = Lt |- _ => apply Qlt_alt in H
  | H : Qcompare _ _ = Gt |- _ => apply Qgt_alt in H
  end.

Lemma RNE_cases x :
  (RNE x = Qfloor x /\ x - inject_Z (Qfloor x) <= 1 # 2) \/
  (RNE x = (Qfloor x + 1)%Z /\ 1 # 2 <= x - inject_Z (Qfloor x)).
Proof.
  unfold RNE.
  destruct (Qcompare (x - inject_Z (Qfloor x)) (1 # 2)) eqn:Hc; Qcompare_facts.
  - destruct (Z.even (Qfloor x)); [left | right]; split; auto; lra.
  - left. split; auto. lra.
  - right. split; auto. lra.
Qed.

(** The nearest integer is at most one half away. *)
Lemma RNE_err x : - (1 # 2) <= inject_Z (RNE x) - x <= 1 # 2.
Proof.
  destruct (Qfloor_bounds x) as [H1 H2].
  destruct (RNE_cases x) as [[-> H]|[-> H]]; rewrite ?inject_Z_plus;
    change (inject_Z 1) with 1; lra.
Qed.

#[global] Instance RNE_comp : Proper (Qeq ==> eq) RNE.
Proof.
  intros x y E. unfold RNE.
  assert (Hf : Qfloor x = Qfloor y) by (rewrite E; reflexivity).
  rewrite Hf.
  assert (Hc : (x - inject_Z (Qfloor y) ?= 1 # 2) = (y - inject_Z (Qfloor y) ?= 1 # 2)).
  { rewrite E. reflexivity. }
  rewrite Hc. reflexivity.
Qed.

Lemma RNE_Z z : RNE (inject_Z z) = z.
Proof.
  unfold RNE. rewrite Qfloor_Z.
  assert (E : inject_Z z - inject_Z z == 0) by ring.
  rewrite E. reflexivity.
Qed.

Lemma RNE_mono x y : x <= y -> (RNE x <= RNE y)%Z.
Proof.
  intros Hxy. pose proof (Qfloor_resp_le x y Hxy) as Hf.
  destruct (Qfloor_bounds x) as [Hx1 Hx2]. destruct (Qfloor_bounds y) as [Hy1 Hy2].
  destruct (Z.eq_dec (Qfloor x) (Qfloor y)) as [E|NE].
  - unfold RNE. rewrite <- E.
    destruct (Qcompare (x - inject_Z (Qfloor x)) (1 # 2)) eqn:Cx;
    destruct (Qcompare (y - inject_Z (Qfloor x)) (1 # 2)) eqn:Cy;
    Qcompare_facts; try (exfalso; lra); destruct (Z.even (Qfloor x)); lia.
  - destruct (RNE_cases x) as [[-> _]|[-> _]];
    destruct (RNE_cases y) as [[-> _]|[-> _]]; lia.
Qed.

Lemma fl_0 : fl 0 = 0.
Proof. reflexivity. Qed.

(** Equal rationals round to the same term. *)
Lemma Qeq_fl x y : x == y -> fl x = fl y.
Proof.
  intros E. unfold fl, ulp_exp.
  assert (Hb : Qeq_bool x 0 = Qeq_bool y 0) by (rewrite E; reflexivity).
  rewrite Hb. destruct (Qeq_bool y 0) eqn:Hy; [reflexivity|].
  apply Qeq_bool_neq in Hy.
  assert (Hpos : 0 < Qabs y) by (apply Qabs_case; intros; lra).
  assert (Hi : ilog2 (Qabs x) = ilog2 (Qabs y)).
  { destruct (ilog2_spec _ Hpos). apply ilog2_unique; rewrite E; assumption. }
  rewrite Hi. apply Qred_complete. rewrite E. reflexivity.
Qed.

#[global] Instance fl_comp : Proper (Qeq ==> Qeq) fl.
Proof. intros x y E. rewrite (Qeq_fl x y E). reflexivity. Qed.

Lemma fl_pos_eq x : 0 < x ->
  fl x == inject_Z (RNE (x / 2 ^ ulp_exp x)) * 2 ^ ulp_exp x.
Proof.
  intros Hx. unfold fl.
  destruct (Qeq_bool x 0) eqn:E.
  - apply Qeq_bool_iff in E. lra.
  - rewrite Qred_correct.
    assert (Ha : Qabs x == x) by (apply Qabs_pos; lra).
    assert (Hi : ulp_exp (Qabs x) = ulp_exp x).
    { unfold ulp_exp. f_equal.
      destruct (ilog2_spec x Hx). apply ilog2_unique; rewrite Ha; assumption. }
    rewrite Hi. reflexivity.
Qed.

(** Divided by its unit in the last place, a positive number lies in
    [2^52, 2^53). *)
Lemma scaled_range x : 0 < x ->
  2 ^ 52 <= x / 2 ^ ulp_exp x /\ x / 2 ^ ulp_exp x < 2 ^ 53.
Proof.
  intros Hx. destruct (ilog2_spec x Hx) as [H1 H2].
  unfold ulp_exp. set (k := ilog2 x) in *.
  pose proof (pow2_pos (k - 52)) as Hp.
  assert (E1 : 2 ^ k == 2 ^ 52 * 2 ^ (k - 52)).
  { rewrite <- pow2_add. replace (52 + (k - 52))%Z with k by lia. reflexivity. }
  assert (E2 : 2 ^ (k + 1) == 2 ^ 53 * 2 ^ (k - 52)).
  { rewrite <- pow2_add. replace (53 + (k - 52))%Z with (k + 1)%Z by lia.
    reflexivity. }
  split.
  - apply Qle_shift_div_l; [exact Hp|]. rewrite <- E1. exact H1.
  - apply Qlt_shift_div_r; [exact Hp|]. rewrite <- E2. exact H2.
Qed.

Lemma mant_range x : 0 < x ->
  (2 ^ 52 <= RNE (x / 2 ^ ulp_exp x) <= 2 ^ 53)%Z.
Proof.
  intros Hx. destruct (scaled_range x Hx) as [H1 H2].
  split.
  - rewrite <- (RNE_Z (2 ^ 52)). apply RNE_mono. rewrite pow2_Z by lia. exact H1.
  - rewrite <- (RNE_Z (2 ^ 53)). apply RNE_mono. rewrite pow2_Z by lia. lra.
Qed.

(** One rounding changes a positive number by at most 2^-53 of it. *)
Lemma fl_err x : 0 < x ->
  x * (1 - 2 ^ (-53)) <= fl x /\ fl x <= x * (1 + 2 ^ (-53)).
Proof.
  intros Hx. rewrite (fl_pos_eq x Hx).
  destruct (scaled_range x Hx) as [H1 _].
  pose proof (RNE_err (x / 2 ^ ulp_exp x)) as He.
  pose proof (pow2_pos (ulp_exp x)) as Hp.
  set (p := 2 ^ ulp_exp x) in *. set (m := inject_Z (RNE (x / p))) in *.
  assert (Ex : x == (x / p) * p) by (field; lra).
  set (y := x / p) in *.
  change (2 ^ 52) with (4503599627370496 # 1) in H1.
  change (2 ^ (-53)) with (1 # 9007199254740992).
  split; rewrite Ex at 1; nra.
Qed.

Lemma fl_nonneg x : 0 <= x -> 0 <= fl x.
Proof.
  intros Hx. destruct (Qle_lt_or_eq _ _ Hx) as [H|H].
  - destruct (fl_err x H) as [H1 _].
    change (2 ^ (-53)) with (1 # 9007199254740992) in H1. nra.
  - rewrite <- (Qeq_fl 0 x H). rewrite fl_0. lra.
Qed.

(** Rounding is monotone. *)
Lemma fl_mono x y : 0 <= x -> x <= y -> fl x <= fl y.
Proof.
  intros Hx Hxy.
  destruct (Qle_lt_or_eq _ _ Hx) as [Hx0|Hx0].
  2:{ rewrite <- (Qeq_fl 0 x Hx0), fl_0. apply fl_nonneg. lra. }
  assert (Hy0 : 0 < y) by lra.
  rewrite (fl_pos_eq x Hx0), (fl_pos_eq y Hy0).
  destruct (ilog2_spec x Hx0) as [Hx1 Hx2]. destruct (ilog2_spec y Hy0) as [Hy1 Hy2].
  assert (Hk : (ilog2 x <= ilog2 y)%Z).
  { assert (ilog2 x < ilog2 y + 1)%Z by (apply pow2_lt_inv; lra). lia. }
  pose proof (pow2_pos (ulp_exp x)) as Hpx. pose proof (pow2_pos (ulp_exp y)) as Hpy.
  destruct (Z.eq_dec (ilog2 x) (ilog2 y)) as [E|NE].
  - unfold ulp_exp in *. rewrite <- E in *.
    apply Qmult_le_compat_r; [|lra].
    rewrite <- Zle_Qle. apply RNE_mono.
    apply Qmult_le_compat_r; [exact Hxy|].
    apply Qlt_le_weak, Qinv_lt_0_compat. exact Hpx.
  - destruct (mant_range x Hx0) as [_ Hmx]. destruct (mant_range y Hy0) as [Hmy _].
    rewrite Zle_Qle, pow2_Z in Hmx by lia. rewrite Zle_Qle, pow2_Z in Hmy by lia.
    assert (Hp : 2 * 2 ^ ulp_exp x <= 2 ^ ulp_exp y).
    { rewrite <- pow2_succ. apply pow2_le. unfold ulp_exp. lia. }
    change (2 ^ 53) with (2 * 2 ^ 52) in Hmx.
    assert (0 < 2 ^ 52) by reflexivity.
    set (mx := inject_Z (RNE (x / 2 ^ ulp_exp x))) in *.
    set (my := inject_Z (RNE (y / 2 ^ ulp_exp y))) in *.
    set (px := 2 ^ ulp_exp x) in *. set (py := 2 ^ ulp_exp y) in *.
    set (c := 2 ^ 52) in *.
    apply Qle_trans with (2 * c * px); [nra|].
    apply Qle_trans with (c * py); nra.
Qed.

(** Every m * 2^k with an integer m below 2^53 is a binary64 value. *)
Lemma fl_exact m k : (0 <= m < 2 ^ 53)%Z ->
  fl (inject_Z m * 2 ^ k) == inject_Z m * 2 ^ k.
Proof.
  intros [Hm0 Hm].
  destruct (Z.eq_dec m 0%Z) as [->|Hne].
  { assert (E : inject_Z 0 * 2 ^ k == 0) by ring.
    rewrite (Qeq_fl _ _ E), fl_0. ring. }
  assert (Hmpos : (0 < m)%Z) by lia.
  destruct (Zlog2_Q m Hmpos) as [Hl1 Hl2].
  assert (Hlm : (0 <= Z.log2 m <= 52)%Z).
  { split; [apply Z.log2_nonneg|].
    assert (Z.log2 m < 53)%Z; [|lia]. apply Z.log2_lt_pow2; lia. }
  set (lm := Z.log2 m) in *.
  pose proof (pow2_pos k) as Hpk.
  set (x := inject_Z m * 2 ^ k).
  assert (Hx : 0 < x).
  { unfold x. assert (0 < inject_Z m) by (rewrite Zlt_Qlt in Hmpos; exact Hmpos). nra. }
  assert (Hi : ilog2 x = (lm + k)%Z).
  { apply ilog2_unique; unfold x.
    - rewrite pow2_add. nra.
    - replace (lm + k + 1)%Z with ((lm + 1) + k)%Z by lia. rewrite pow2_add. nra. }
  rewrite (fl_pos_eq x Hx). unfold ulp_exp. rewrite Hi.
  assert (Ek : 2 ^ k == 2 ^ (52 - lm) * 2 ^ (lm + k - 52)).
  { rewrite <- pow2_add. replace (52 - lm + (lm + k - 52))%Z with k by lia.
    reflexivity. }
  pose proof (pow2_pos (lm + k - 52)) as Hpe.
  assert (Ey : x / 2 ^ (lm + k - 52) == inject_Z (m * 2 ^ (52 - lm))).
  { unfold x. rewrite inject_Z_mult, pow2_Z by lia. rewrite Ek. field. lra. }
  rewrite Ey, RNE_Z. unfold x.
  rewrite inject_Z_mult, pow2_Z by lia. rewrite Ek. ring.
Qed.

Lemma fl_Z m : (0 <= m < 2 ^ 53)%Z -> fl (inject_Z m) == inject_Z m.
Proof.
  intros H. pose proof (fl_exact m 0 H) as E.
  change (2 ^ 0) with 1 in E.
  assert (E1 : inject_Z m * 1 == inject_Z m) by ring.
  rewrite E1 in E. exact E.
Qed.

Lemma fl_le_repr x c : 0 <= x -> x <= c -> fl c == c -> fl x <= c.
Proof. intros H0 H E. rewrite <- E. apply fl_mono; assumption. Qed.

Lemma fl_ge_repr x c : 0 <= c -> c <= x -> fl c == c -> c <= fl x.
Proof. intros H0 H E. rewrite <- E. apply fl_mono; assumption. Qed.

Lemma ltb_lt x y : ltb x y = true <-> x < y.
Proof.
  unfold ltb. rewrite negb_true_iff. split.
  - intros H. apply Qnot_le_lt. intro Hle. apply Qle_bool_iff in Hle. congruence.
  - intros H. destruct (Qle_bool y x) eqn:E; [|reflexivity].
    apply Qle_bool_iff in E. lra.
Qed.

Lemma ltb_ge x y : ltb x y = false <-> y <= x.
Proof.
  unfold ltb. rewrite negb_false_iff. apply Qle_bool_iff.
Qed.

(** [fl] agrees with the division and the multiplication of the
    Standard Library's binary64 specification on sample operands. *)
Lemma fl_agrees_with_SpecFloat :
  of_spec_float (SFdiv 53 1024 (b64 512) (b64 5000)) = Some (div 512 5000)
  /\ of_spec_float (SFdiv 53 1024 (b64 11) (b64 10)) = Some (fl (11 # 10))
  /\ of_spec_float (SFdiv 53 1024 (b64 8) (b64 100)) = Some (fl (8 # 100))
  /\ of_spec_float (SFdiv 53 1024 (b64 1) (b64 3)) = Some (div 1 3)
  /\ of_spec_float (SFdiv 53 1024 (b64 12897485) (b64 1048576))
     = Some (div 12897485 1048576)
  /\ of_spec_float (SFmul 53 1024 (b64 5000) (SFdiv 53 1024 (b64 512) (b64 5000)))
     = Some (mul 5000 (div 512 5000))
  /\ of_spec_float (SFmul 53 1024 (b64 3000) (SFdiv 53 1024 (b64 512) (b64 4000)))
     = Some (mul 3000 (div 512 4000))
  /\ of_spec_float (SFmul 53 1024 (b64 255) (SFdiv 53 1024 (b64 11) (b64 10)))
     = Some (mul 255 (fl (11 # 10))).
Proof. vm_compute. repeat split; reflexivity. Qed.

(** ... on every product [r * 1.1] of a channel value, and on the scaling
    [m * (512 / m)] of every longer side up to 2048. *)
Lemma fl_agrees_on_channels :
  forallb (fun r => same (SFmul 53 1024 (b64 r) (SFdiv 53 1024 (b64 11) (b64 10)))
                         (mul (inject_Z r) (fl (11 # 10))))
          (ints 0 256) = true.
Proof. vm_compute. reflexivity. Qed.

Lemma fl_agrees_on_sides :
  forallb (fun m => same (SFmul 53 1024 (b64 m) (SFdiv 53 1024 (b64 512) (b64 m)))
                         (mul (inject_Z m) (div 512 (inject_Z m))))
          (ints 1 2048) = true.
Proof. vm_compute. reflexivity. Qed.
End Binary64Facts.

(** ** The canvas, the stride and the colour test *)
Section Raster.
Import Binary64 Binary64Facts.
Local Open Scope Q_scope.

Lemma of_N_nonneg n : 0 <= of_N n.
Proof.
  unfold of_N, of_Z. apply fl_nonneg.
  change 0 with (inject_Z 0). rewrite <- Zle_Qle. lia.
Qed.

Lemma of_Z_exact z : (0 <= z < 2 ^ 53)%Z -> of_Z z == inject_Z z.
Proof. apply fl_Z. Qed.

Lemma of_N_exact n : (n < 2 ^ 53)%N -> of_N n == inject_Z (Z.of_N n).
Proof.
  intros H. unfold of_N. apply of_Z_exact.
  change (2 ^ 53)%Z with (Z.of_N (2 ^ 53)). lia.
Qed.

Lemma max_ge x y : x <= JS.max x y /\ y <= JS.max x y.
Proof.
  unfold JS.max. destruct (Qle_bool x y) eqn:E.
  - apply Qle_bool_iff in E. lra.
  - assert (y < x) by (apply ltb_lt; unfold ltb; rewrite E; reflexivity). lra.
Qed.

Lemma min_le x y : JS.min x y <= x /\ JS.min x y <= y.
Proof.
  unfold JS.min. destruct (Qle_bool x y) eqn:E.
  - apply Qle_bool_iff in E. lra.
  - assert (y < x) by (apply ltb_lt; unfold ltb; rewrite E; reflexivity). lra.
Qed.

Lemma min_cases x y : JS.min x y = x \/ JS.min x y = y.
Proof. unfold JS.min. destruct (Qle_bool x y); auto. Qed.

(** The scale factor is positive, and no side of at most the longer one
    scales to more than 512 (1 + 2^-53). *)
Lemma scale_of_bound img x :
  0 <= x -> x <= longer_side img ->
  0 <= x * scale_of img /\ x * scale_of img <= 512 * (1 + 2 ^ (-53)).
Proof.
  intros Hx0 Hx. unfold scale_of.
  set (l := longer_side img) in *.
  change (2 ^ (-53)) with (1 # 9007199254740992).
  destruct (Qeq_bool l 0) eqn:E.
  - apply Qeq_bool_iff in E. split; nra.
  - apply Qeq_bool_neq in E.
    assert (Hl : 0 < l) by lra.
    assert (Hq : 0 < 512 / l).
    { apply Qlt_shift_div_l; [exact Hl|]. lra. }
    destruct (fl_err (512 / l) Hq) as [Hlo Hhi].
    change (2 ^ (-53)) with (1 # 9007199254740992) in Hlo, Hhi.
    assert (Eq : 512 / l * l == 512) by (field; lra).
    unfold div.
    set (q := 512 / l) in *. set (s := fl q) in *.
    destruct (min_le 1 s) as [_ Hm].
    assert (Hs0 : 0 <= JS.min 1 s).
    { destruct (min_cases 1 s) as [-> | ->]; [lra | nra]. }
    set (k := JS.min 1 s) in *.
    split; [nra|].
    apply Qle_trans with (l * s); [nra|].
    apply Qle_trans with (l * (q * (1 + (1 # 9007199254740992)))); [nra|].
    nra.
Qed.

Lemma scaled_side_le img x :
  0 <= x -> x <= longer_side img -> (JS.floor (mul x (scale_of img)) <= 512)%Z.
Proof.
  intros Hx0 Hx. destruct (scale_of_bound img x Hx0 Hx) as [H0 H1].
  unfold JS.floor, mul.
  assert (E : fl (512 * (1 + 2 ^ (-53))) == 512) by (vm_compute; reflexivity).
  assert (Hfl : fl (x * scale_of img) <= 512).
  { rewrite <- E. apply fl_mono; assumption. }
  apply Qfloor_resp_le in Hfl. exact Hfl.
Qed.

(** Both sides of the canvas are between 1 and 512 samples. *)
Lemma canvas_bounds img :
  (1 <= canvas_width img <= 512)%Z /\ (1 <= canvas_height img <= 512)%Z.
Proof.
  unfold canvas_width, canvas_height.
  destruct (max_ge (of_N (HTMLImageElement.width img))
                   (of_N (HTMLImageElement.height img))) as [Hw Hh].
  fold (longer_side img) in Hw, Hh.
  pose proof (scaled_side_le img _ (of_N_nonneg _) Hw).
  pose proof (scaled_side_le img _ (of_N_nonneg _) Hh).
  lia.
Qed.

(** [Math.floor(n / 10000)] is the integer quotient. *)
Lemma floor_div_10000 n : (0 <= n < 2 ^ 53)%Z ->
  JS.floor (div (inject_Z n) 10000) = (n / 10000)%Z.
Proof.
  intros Hn. unfold JS.floor, div.
  pose proof (Z.div_mod n 10000 ltac:(lia)) as Hdm.
  pose proof (Z.mod_pos_bound n 10000 ltac:(lia)) as Hr.
  set (k := (n / 10000)%Z) in *. set (r := (n mod 10000)%Z) in *.
  assert (Hk : (0 <= k < 2 ^ 53)%Z) by (unfold k; split; [apply Z.div_pos | apply Z.div_lt_upper_bound]; lia).
  assert (En : inject_Z n == 10000 * inject_Z k + inject_Z r).
  { rewrite Hdm, inject_Z_plus, inject_Z_mult. reflexivity. }
  assert (Hr0 : 0 <= inject_Z r) by (change 0 with (inject_Z 0); rewrite <- Zle_Qle; lia).
  assert (Hr1 : inject_Z r <= 9999) by (change 9999 with (inject_Z 9999); rewrite <- Zle_Qle; lia).
  assert (Hk0 : 0 <= inject_Z k) by (change 0 with (inject_Z 0); rewrite <- Zle_Qle; lia).
  assert (Hn1 : inject_Z n < 9007199254740992).
  { change 9007199254740992 with (inject_Z (2 ^ 53)). rewrite <- Zlt_Qlt. lia. }
  assert (Ex : inject_Z n / 10000 * 10000 == 10000 * inject_Z k + inject_Z r).
  { rewrite <- En. field. }
  set (x := inject_Z n / 10000) in *.
  apply Qfloor_unique.
  - apply fl_ge_repr; [exact Hk0 | lra | apply fl_Z; exact Hk].
  - destruct (Qle_lt_or_eq 0 x ltac:(lra)) as [Hx | Hx].
    + destruct (fl_err x Hx) as [_ Hhi].
      change (2 ^ (-53)) with (1 # 9007199254740992) in Hhi.
      nra.
    + rewrite <- (Qeq_fl 0 x Hx), fl_0. lra.
Qed.

(** The stride of the loop is the specification's, for a buffer of [n]
    pixels. *)
Lemma step_of_stride n : (0 <= n < 2 ^ 53)%Z -> step_of (4 * n) = Spec.stride n.
Proof.
  intros Hn. unfold step_of, Spec.stride.
  assert (E : div (inject_Z (4 * n)) 4 / 10000 == inject_Z n / 10000).
  { unfold div.
    assert (E1 : inject_Z (4 * n) / 4 == inject_Z n) by (rewrite inject_Z_mult; field).
    rewrite E1, (fl_Z n Hn). reflexivity. }
  unfold div at 1. rewrite (Qeq_fl _ _ E). fold (div (inject_Z n) 10000).
  rewrite floor_div_10000 by exact Hn. reflexivity.
Qed.
End Raster.

(** ** The sampling loop *)
Section Sampling.
Import Binary64 Binary64Facts.

Lemma u8_range b : (0 <= u8 b <= 255)%Z.
Proof. unfold u8. pose proof (Byte.to_N_bounded b). lia. Qed.

Lemma lit_1_1_value : (lit_1_1 == 2476979795053773 # 2251799813685248)%Q.
Proof. vm_compute. reflexivity. Qed.

(** On channel values, [g > r * 1.1] in binary64 is [10 g > 11 r]. *)
Lemma gt_times_1_1 r g : (0 <= r <= 255)%Z -> (0 <= g <= 255)%Z ->
  gtb (inject_Z g) (mul (inject_Z r) lit_1_1) = (11 * r <? 10 * g)%Z.
Proof.
  intros Hr Hg. unfold gtb, mul.
  assert (E : (inject_Z r * lit_1_1
               == inject_Z r * (2476979795053773 # 2251799813685248))%Q).
  { rewrite lit_1_1_value. reflexivity. }
  rewrite (Qeq_fl _ _ E). clear E.
  assert (HR0 : (0 <= inject_Z r)%Q) by (change 0%Q with (inject_Z 0); rewrite <- Zle_Qle; lia).
  assert (HR1 : (inject_Z r <= 255)%Q) by (change 255%Q with (inject_Z 255); rewrite <- Zle_Qle; lia).
  assert (HG0 : (0 <= inject_Z g)%Q) by (change 0%Q with (inject_Z 0); rewrite <- Zle_Qle; lia).
  set (x := (inject_Z r * (2476979795053773 # 2251799813685248))%Q).
  destruct (Z.ltb_spec (11 * r) (10 * g)) as [H|H].
  - apply ltb_lt.
    assert (HQ : (11 * inject_Z r + 1 <= 10 * inject_Z g)%Q).
    { change 11%Q with (inject_Z 11). change 10%Q with (inject_Z 10).
      change 1%Q with (inject_Z 1).
      rewrite <- !inject_Z_mult, <- inject_Z_plus, <- Zle_Qle. lia. }
    destruct (Qle_lt_or_eq 0 x ltac:(unfold x; lra)) as [Hx|Hx].
    + destruct (fl_err x Hx) as [_ Hhi].
      change (2 ^ (-53))%Q with (1 # 9007199254740992)%Q in Hhi.
      unfold x in *. nra.
    + rewrite <- (Qeq_fl 0 x Hx), fl_0. lra.
  - apply ltb_ge.
    assert (HQ : (10 * inject_Z g <= 11 * inject_Z r)%Q).
    { change 11%Q with (inject_Z 11). change 10%Q with (inject_Z 10).
      rewrite <- !inject_Z_mult, <- Zle_Qle. lia. }
    apply fl_ge_repr; [exact HG0 | unfold x; lra | apply fl_Z; lia].
Qed.

(** The colour test of the code is the specification's. *)
Lemma isGreen_spec r g b :
  (0 <= r <= 255)%Z -> (0 <= g <= 255)%Z -> (0 <= b <= 255)%Z ->
  isGreen r g b = Spec.green_dominant r g b.
Proof.
  intros Hr Hg Hb. unfold isGreen, Spec.green_dominant.
  rewrite !gt_times_1_1 by assumption. reflexivity.
Qed.

(** From pixel [p] on, [n] iterations with enough fuel count the
    non-transparent and the green-dominant pixels among the [n] points
    the loop visits before its index leaves the buffer. *)
Lemma scan_points data total stride n :
  forall fuel p greenish count,
    (0 < stride)%Z -> (n <= fuel)%nat ->
    (n <> O -> p + (Z.of_nat n - 1) * stride < total)%Z ->
    (total <= p + Z.of_nat n * stride)%Z ->
    scan fuel data (4 * total) stride (4 * p) greenish count
    = ((greenish + Z.of_nat (length (Spec.green_in data (Spec.points n p stride))))%Z,
       (count + Z.of_nat (length (Spec.opaque_in data (Spec.points n p stride))))%Z).
Proof.
  induction n as [|n IH]; intros fuel p greenish count Hs Hfuel Hlast Hend.
  - cbn [Spec.points]. unfold Spec.green_in, Spec.opaque_in. cbn [List.filter length].
    rewrite !Z.add_0_r.
    destruct fuel as [|fuel]; [reflexivity|]. cbn [scan].
    destruct (Z.ltb_spec (4 * p) (4 * total)) as [H|H]; [lia | reflexivity].
  - destruct fuel as [|fuel]; [lia|]. cbn [scan].
    assert (Hp : (p < total)%Z) by nia.
    destruct (Z.ltb_spec (4 * p) (4 * total)) as [_|H]; [|lia].
    replace (4 * p + 4 * stride)%Z with (4 * (p + stride))%Z by lia.
    assert (Ea : Spec.transparent (Spec.alpha data p)
                 = (u8 (data (4 * p + 3)%Z) <? 50)%Z) by reflexivity.
    assert (Eg : Spec.green_dominant (Spec.red data p) (Spec.green data p)
                                     (Spec.blue data p)
                 = isGreen (u8 (data (4 * p)%Z)) (u8 (data (4 * p + 1)%Z))
                           (u8 (data (4 * p + 2)%Z))).
    { symmetry. apply isGreen_spec; apply u8_range. }
    cbn [Spec.points]. unfold Spec.green_in, Spec.opaque_in in *.
    cbn [List.filter]. rewrite Ea.
    destruct (u8 (data (4 * p + 3)%Z) <? 50)%Z; cbn [negb].
    + apply IH; [exact Hs | lia | intros; nia | nia].
    + cbn [List.filter length]. rewrite Eg.
      destruct (isGreen _ _ _); cbn [length];
        rewrite IH by (try exact Hs; try lia; try (intros; nia); nia);
        f_equal; lia.
Qed.

(** The whole loop, on a buffer of [total] pixels with the
    specification's stride. *)
Lemma scan_samples data total : (0 <= total)%Z ->
  scan (Z.to_nat (4 * total)) data (4 * total) (Spec.stride total) 0 0 0
  = (Spec.green_count data total, Spec.opaque_count data total).
Proof.
  intros Ht. unfold Spec.green_count, Spec.opaque_count, Spec.samples.
  set (s := Spec.stride total).
  assert (Hs : (1 <= s)%Z) by (unfold s, Spec.stride; lia).
  pose proof (Z.div_mod (total + s - 1) s ltac:(lia)) as Hdm.
  pose proof (Z.mod_pos_bound (total + s - 1) s ltac:(lia)) as Hr.
  assert (Hq : (0 <= (total + s - 1) / s)%Z) by (apply Z.div_pos; lia).
  set (q := ((total + s - 1) / s)%Z) in *.
  change (scan (Z.to_nat (4 * total)) data (4 * total) s 0 0 0)
    with (scan (Z.to_nat (4 * total)) data (4 * total) s (4 * 0) 0 0).
  rewrite (scan_points data total s (Z.to_nat q)).
  - reflexivity.
  - lia.
  - nia.
  - intros _. rewrite Z2Nat.id by exact Hq. nia.
  - rewrite Z2Nat.id by exact Hq. nia.
Qed.
End Sampling.

(** ** The vegetation score *)
Section Score.
Import Binary64 Binary64Facts.

Lemma total_pixels_range img :
  (0 <= canvas_width img * canvas_height img < 2 ^ 53)%Z.
Proof. destruct (canvas_bounds img) as [Hw Hh]. split; nia. Qed.

(** With a 2D context, the score is the binary64 number nearest to the
    specification's ratio on the canvas buffer; without one it is 0. *)
Lemma computeVegetationScore_eq B img :
  computeVegetationScore B img
  = if context2d B
    then fl (Spec.score (HTMLImageElement.pixels img (canvas_width img) (canvas_height img))
                        (canvas_width img * canvas_height img))
    else 0%Q.
Proof.
  unfold computeVegetationScore.
  destruct (context2d B); cbn [negb]; [|reflexivity].
  pose proof (total_pixels_range img) as Hn.
  rewrite <- Z.mul_assoc.
  rewrite step_of_stride by exact Hn.
  rewrite scan_samples by lia.
  unfold Spec.score.
  destruct (Spec.opaque_count _ _ =? 0)%Z; reflexivity.
Qed.

Lemma counts_ordered data n :
  (0 <= Spec.green_count data n <= Spec.opaque_count data n)%Z.
Proof.
  unfold Spec.green_count, Spec.opaque_count, Spec.green_in.
  pose proof (List.filter_length_le
    (fun p => Spec.green_dominant (Spec.red data p) (Spec.green data p) (Spec.blue data p))
    (Spec.opaque_in data (Spec.samples n))).
  lia.
Qed.

(** The exact ratio lies in [0, 1]. *)
Lemma spec_score_range data n : (0 <= Spec.score data n <= 1)%Q.
Proof.
  unfold Spec.score. pose proof (counts_ordered data n) as [Hg Ho].
  destruct (Z.eqb_spec (Spec.opaque_count data n) 0) as [E|NE]; [lra|].
  set (g := Spec.green_count data n) in *. set (t := Spec.opaque_count data n) in *.
  assert (HT : (0 < inject_Z t)%Q) by (change 0%Q with (inject_Z 0); rewrite <- Zlt_Qlt; lia).
  assert (HG : (0 <= inject_Z g)%Q) by (change 0%Q with (inject_Z 0); rewrite <- Zle_Qle; lia).
  assert (HGT : (inject_Z g <= inject_Z t)%Q) by (rewrite <- Zle_Qle; lia).
  split.
  - apply Qle_shift_div_l; [exact HT | lra].
  - apply Qle_shift_div_r; [exact HT | lra].
Qed.

(** ... and so does the score the code computes. *)
Lemma computeVegetationScore_range B img :
  (0 <= computeVegetationScore B img <= 1)%Q.
Proof.
  rewrite computeVegetationScore_eq.
  destruct (context2d B); [|lra].
  destruct (spec_score_range
    (HTMLImageElement.pixels img (canvas_width img) (canvas_height img))
    (canvas_width img * canvas_height img)) as [H0 H1].
  split.
  - apply fl_nonneg. exact H0.
  - apply fl_le_repr; [exact H0 | exact H1 | vm_compute; reflexivity].
Qed.

(** No sample of a raster without opaque pixels counts. *)
Lemma opaque_in_all_transparent data ps :
  Spec.all_transparent data -> Spec.opaque_in data ps = [].
Proof.
  intros Ht. unfold Spec.opaque_in.
  induction ps as [|p ps IH]; [reflexivity|].
  cbn [List.filter]. unfold Spec.transparent at 1.
  destruct (Z.ltb_spec (Spec.alpha data p) 50) as [_|H]; [exact IH|].
  specialize (Ht p). lia.
Qed.

Lemma spec_score_all_transparent data n :
  Spec.all_transparent data -> Spec.score data n = 0%Q.
Proof.
  intros Ht. unfold Spec.score, Spec.opaque_count.
  rewrite opaque_in_all_transparent by exact Ht. reflexivity.
Qed.

Lemma computeVegetationScore_all_transparent B img :
  Spec.all_transparent
    (HTMLImageElement.pixels img (canvas_width img) (canvas_height img)) ->
  computeVegetationScore B img = 0%Q.
Proof.
  intros Ht. rewrite computeVegetationScore_eq.
  destruct (context2d B); [|reflexivity].
  rewrite spec_score_all_transparent by exact Ht. reflexivity.
Qed.
End Score.

(** ** The vegetation threshold in exact arithmetic *)
Section Threshold.
Import Binary64 Binary64Facts.

Lemma lit_0_08_value : (lit_0_08 == 5764607523034235 # 72057594037927936)%Q.
Proof. vm_compute. reflexivity. Qed.

(** For counts 0 <= g <= t with t below 2^40, the binary64 quotient g / t
    is below the literal 0.08 exactly when g / t < 8 / 100. *)
Lemma low_score_exact g t : (0 <= g <= t)%Z -> (0 < t < 2 ^ 40)%Z ->
  ltb (div (inject_Z g) (inject_Z t)) lit_0_08 = (25 * g <? 2 * t)%Z.
Proof.
  intros Hg Ht. unfold div.
  assert (HT0 : (0 < inject_Z t)%Q) by (change 0%Q with (inject_Z 0); rewrite <- Zlt_Qlt; lia).
  assert (HT1 : (inject_Z t < 1099511627776)%Q).
  { change 1099511627776%Q with (inject_Z (2 ^ 40)). rewrite <- Zlt_Qlt. lia. }
  assert (HG0 : (0 <= inject_Z g)%Q) by (change 0%Q with (inject_Z 0); rewrite <- Zle_Qle; lia).
  assert (Ex : (inject_Z g / inject_Z t * inject_Z t == inject_Z g)%Q) by (field; lra).
  set (G := inject_Z g) in *. set (T := inject_Z t) in *. set (x := (G / T)%Q) in *.
  assert (Hx0 : (0 <= x)%Q) by (apply Qle_shift_div_l; [exact HT0 | lra]).
  destruct (Z.ltb_spec (25 * g) (2 * t)) as [H|H].
  - apply ltb_lt. rewrite lit_0_08_value.
    assert (HQ : (25 * G + 1 <= 2 * T)%Q).
    { unfold G, T. change 25%Q with (inject_Z 25). change 2%Q with (inject_Z 2).
      change 1%Q with (inject_Z 1).
      rewrite <- !inject_Z_mult, <- inject_Z_plus, <- Zle_Qle. lia. }
    destruct (Qle_lt_or_eq 0 x Hx0) as [Hx|Hx].
    + destruct (fl_err x Hx) as [_ Hhi].
      change (2 ^ (-53))%Q with (1 # 9007199254740992)%Q in Hhi.
      apply Qle_lt_trans with (x * (1 + (1 # 9007199254740992)))%Q; [exact Hhi|].
      apply Qmult_lt_r with (z := T); [exact HT0|].
      assert (E : (x * (1 + (1 # 9007199254740992)) * T
                   == G * (1 + (1 # 9007199254740992)))%Q).
      { rewrite <- Ex. ring. }
      rewrite E. lra.
    + rewrite <- (Qeq_fl 0 x Hx), fl_0. reflexivity.
  - apply ltb_ge. unfold lit_0_08.
    assert (HQ : (2 * T <= 25 * G)%Q).
    { unfold G, T. change 25%Q with (inject_Z 25). change 2%Q with (inject_Z 2).
      rewrite <- !inject_Z_mult, <- Zle_Qle. lia. }
    apply fl_mono; [discriminate|].
    apply Qle_shift_div_l; [exact HT0|]. lra.
Qed.

Lemma points_length n p s : length (Spec.points n p s) = n.
Proof.
  revert p. induction n as [|n IH]; intros p; [reflexivity|].
  cbn [Spec.points length]. rewrite IH. reflexivity.
Qed.

(** At most one sample per pixel. *)
Lemma opaque_count_bound data n : (0 <= n)%Z ->
  (0 <= Spec.opaque_count data n <= n)%Z.
Proof.
  intros Hn. unfold Spec.opaque_count, Spec.opaque_in, Spec.samples.
  set (s := Spec.stride n).
  assert (Hs : (1 <= s)%Z) by (unfold s, Spec.stride; lia).
  pose proof (List.filter_length_le
                (fun p => negb (Spec.transparent (Spec.alpha data p)))
                (Spec.points (Z.to_nat ((n + s - 1) / s)) 0 s)) as Hle.
  rewrite points_length in Hle.
  pose proof (Z.div_mod (n + s - 1) s ltac:(lia)) as Hdm.
  pose proof (Z.mod_pos_bound (n + s - 1) s ltac:(lia)) as Hr.
  assert (Hq : (0 <= (n + s - 1) / s)%Z) by (apply Z.div_pos; lia).
  set (q := ((n + s - 1) / s)%Z) in *.
  split; [lia|].
  assert (q <= n)%Z by nia. lia.
Qed.

(** With a 2D context, the vegetation check of the code rejects an image
    exactly when no sampled pixel is opaque or fewer than 8 in 100 of the
    opaque samples are green-dominant. *)
Lemma vegetation_check_exact B img :
  let data := HTMLImageElement.pixels img (canvas_width img) (canvas_height img) in
  let n := (canvas_width img * canvas_height img)%Z in
  context2d B = true ->
  ltb (computeVegetationScore B img) MIN_VEG_SCORE
  = (Spec.opaque_count data n =? 0)%Z
    || (25 * Spec.green_count data n <? 2 * Spec.opaque_count data n)%Z.
Proof.
  intros data n Hctx. rewrite computeVegetationScore_eq, Hctx.
  fold data n. unfold Spec.score, MIN_VEG_SCORE.
  pose proof (total_pixels_range img) as Hn. fold n in Hn.
  pose proof (opaque_count_bound data n ltac:(lia)) as Ho.
  pose proof (counts_ordered data n) as Hg.
  destruct (Z.eqb_spec (Spec.opaque_count data n) 0) as [E|NE]; [reflexivity|].
  cbn [orb]. apply low_score_exact; [exact Hg|].
  destruct (canvas_bounds img) as [Hw Hh].
  assert (n <= 512 * 512)%Z by (unfold n; nia). lia.
Qed.
End Threshold.

(** ** The size in megabytes *)
Section Size.
Import Binary64 Binary64Facts.
Local Open Scope Q_scope.

Lemma inject_N_nonneg (n : N) : 0 <= inject_Z (Z.of_N n).
Proof. change 0 with (inject_Z 0). rewrite <- Zle_Qle. lia. Qed.

(** Dividing a size below 2^53 by 2^20 is exact. *)
Lemma sizeMB_exact file : (File.size file < 2 ^ 53)%N ->
  sizeMB_of file == inject_Z (Z.of_N (File.size file)) / 1048576.
Proof.
  intros H. unfold sizeMB_of, div.
  rewrite (of_N_exact _ H).
  assert (E : inject_Z (Z.of_N (File.size file)) / 1048576
              == inject_Z (Z.of_N (File.size file)) * 2 ^ (-20)).
  { change (2 ^ (-20)) with (1 # 1048576). field. }
  rewrite E. apply fl_exact.
  change (2 ^ 53)%Z with (Z.of_N (2 ^ 53)). lia.
Qed.

(** The test [sizeMB > MAX_IMAGE_MB] of the code is the exact
    comparison of bytes / 2^20 with 10, whatever the size. *)
Lemma size_check_exact file :
  gtb (sizeMB_of file) (of_N MAX_IMAGE_MB)
  = negb (Qle_bool (inject_Z (Z.of_N (File.size file)) / 1048576) 10).
Proof.
  assert (E10 : of_N MAX_IMAGE_MB == 10) by (vm_compute; reflexivity).
  unfold gtb. set (S := inject_Z (Z.of_N (File.size file))).
  assert (HS0 : 0 <= S) by apply inject_N_nonneg.
  pose proof (of_N_nonneg (File.size file)) as HF0. fold of_N in HF0.
  assert (ES : S == S / 1048576 * 1048576) by field.
  destruct (Qle_bool (S / 1048576) 10) eqn:Hb; cbn [negb].
  - apply Qle_bool_iff in Hb. apply ltb_ge. rewrite E10.
    assert (HS : S <= 10485760) by lra.
    assert (HF : of_N (File.size file) <= 10485760).
    { unfold of_N, of_Z. fold S.
      apply fl_le_repr; [exact HS0 | exact HS | vm_compute; reflexivity]. }
    unfold sizeMB_of, div.
    apply fl_le_repr; [ | | vm_compute; reflexivity].
    + apply Qle_shift_div_l; [reflexivity | lra].
    + apply Qle_shift_div_r; [reflexivity | lra].
  - apply ltb_lt. rewrite E10.
    assert (Hlt : 10 < S / 1048576).
    { apply Qnot_le_lt. intro H. apply Qle_bool_iff in H. congruence. }
    assert (HS : 10485761 <= S).
    { assert (Hz : (10485760 < Z.of_N (File.size file))%Z).
      { rewrite Zlt_Qlt. fold S. change (inject_Z 10485760) with 10485760. lra. }
      unfold S. change 10485761 with (inject_Z 10485761). rewrite <- Zle_Qle. lia. }
    assert (HF : 10485761 <= of_N (File.size file)).
    { unfold of_N, of_Z. fold S.
      apply fl_ge_repr; [lra | exact HS | vm_compute; reflexivity]. }
    unfold sizeMB_of, div.
    apply Qlt_le_trans with (10485761 / 1048576); [reflexivity|].
    apply fl_ge_repr; [ | | vm_compute; reflexivity].
    + apply Qle_shift_div_l; [reflexivity | lra].
    + apply Qmult_le_compat_r; [exact HF | discriminate].
Qed.
End Size.

(** ** Running the validator *)
Section Run.
(** [validateImageWith] always returns: the value is [verdict] and the
    store is [store_after]. *)
Lemma validateImageWith_run L B file s :
  validateImageWith L B file s = (Return (verdict L B file), store_after L file s).
Proof.
  unfold validateImageWith, verdict, store_after.
  destruct (negb (String.prefix "image/" (File.type file))); [reflexivity|].
  cbn [orb].
  destruct (Binary64.gtb (sizeMB_of file) (Binary64.of_N (maxImageMB L)));
    [reflexivity|].
  unfold bind, createObjectURL, try_catch_finally, loadImageFromBlob, revokeObjectURL.
  cbn [objectURLs nextURL].
  rewrite lookup_insert_eq. unfold ret, throw.
  destruct (decode B file) as [img|]; [|reflexivity].
  unfold verdict_on_image.
  destruct ((HTMLImageElement.width img <? minDim L)%N
            || (HTMLImageElement.height img <? minDim L)%N); [reflexivity|].
  destruct (Binary64.ltb (computeVegetationScore B img) (minVegScore L)); reflexivity.
Qed.

Lemma validateImage_run B file s :
  validateImage B file s
  = (Return (verdict source_limits B file), store_after source_limits file s).
Proof. apply validateImageWith_run. Qed.

(** The object URL made for the file is revoked on every path: no URL
    that was free before the call is bound after it. *)
Lemma object_url_revoked L B file s (url : N) :
  objectURLs s !! url = None ->
  objectURLs (snd (validateImageWith L B file s)) !! url = None.
Proof.
  intros Hfree. rewrite validateImageWith_run. cbn [snd]. unfold store_after.
  destruct (_ || _); [exact Hfree|]. cbn [objectURLs].
  destruct (decide (nextURL s = url)) as [->|Hne].
  - apply lookup_delete_eq.
  - rewrite lookup_delete_ne, lookup_insert_ne by exact Hne. exact Hfree.
Qed.
End Run.

(** ** Printing numbers *)
Section Printing.
Lemma append_length (s t : string) :
  String.length (s +:+ t) = (String.length s + String.length t)%nat.
Proof.
  induction s as [|c s IH]; [reflexivity|].
  change (S (String.length (s +:+ t)) = S (String.length s + String.length t)).
  f_equal. exact IH.
Qed.

Lemma append_assoc (s t u : string) : (s +:+ t) +:+ u = s +:+ (t +:+ u).
Proof.
  induction s as [|c s IH]; [reflexivity|].
  change (String c ((s +:+ t) +:+ u) = String c (s +:+ (t +:+ u))).
  f_equal. exact IH.
Qed.

Lemma substring_0_append (s t : string) :
  substring 0 (String.length s) (s +:+ t) = s.
Proof.
  induction s as [|c s IH]; [destruct t; reflexivity|].
  change (String c (substring 0 (String.length s) (s +:+ t)) = String c s).
  f_equal. exact IH.
Qed.

Lemma substring_drop_append (s t : string) :
  substring (String.length s) (String.length t) (s +:+ t) = t.
Proof.
  induction s as [|c s IH]; [|exact IH].
  change (EmptyString +:+ t) with t. change (String.length EmptyString) with O.
  induction t as [|c t IH]; [reflexivity|].
  change (String c (substring 0 (String.length t) t) = String c t).
  f_equal. exact IH.
Qed.

(** More fuel than digits changes nothing. *)
Lemma decimal_fuel_enough f1 : forall f2 n,
  (n < 2 ^ N.of_nat f1)%N -> (n < 2 ^ N.of_nat f2)%N -> f1 <> O -> f2 <> O ->
  JS.decimal_fuel f1 n = JS.decimal_fuel f2 n.
Proof.
  induction f1 as [|f1 IH]; intros f2 n H1 H2 Hf1 Hf2; [congruence|].
  destruct f2 as [|f2]; [congruence|]. cbn [JS.decimal_fuel].
  destruct (N.ltb_spec n 10) as [_|Hn]; [reflexivity|].
  assert (Hq : forall f, (n < 2 ^ N.of_nat (S f))%N ->
               (n / 10 < 2 ^ N.of_nat f)%N /\ f <> O).
  { intros f Hf. rewrite Nat2N.inj_succ, N.pow_succ_r' in Hf.
    split.
    - apply N.Div0.div_lt_upper_bound. lia.
    - intros ->. cbn in Hf. lia. }
  destruct (Hq f1 H1) as [Ha Hb]. destruct (Hq f2 H2) as [Hc Hd].
  rewrite (IH f2 (n / 10)%N Ha Hc Hb Hd). reflexivity.
Qed.

Lemma decimal_small n : (n < 10)%N -> JS.decimal n = String (JS.digit n) EmptyString.
Proof.
  intros H. unfold JS.decimal. cbn [JS.decimal_fuel].
  destruct (N.ltb_spec n 10); [reflexivity | lia].
Qed.

(** The digits of [n] are those of [n / 10] followed by the last one. *)
Lemma decimal_step n : (10 <= n)%N ->
  JS.decimal n = JS.decimal (n / 10) +:+ String (JS.digit (n mod 10)) EmptyString.
Proof.
  intros H. unfold JS.decimal at 1. cbn [JS.decimal_fuel].
  destruct (N.ltb_spec n 10) as [Hn|_]; [lia|].
  f_equal. unfold JS.decimal.
  assert (Hlog : (n < 2 ^ N.succ (N.log2 n))%N) by (apply N.log2_spec; lia).
  assert (Hl3 : (3 <= N.log2 n)%N) by (apply N.log2_le_pow2; [lia | cbn; lia]).
  apply decimal_fuel_enough.
  - rewrite N2Nat.id. rewrite N.pow_succ_r' in Hlog.
    apply N.Div0.div_lt_upper_bound. lia.
  - rewrite Nat2N.inj_succ, N2Nat.id.
    destruct (N.eq_dec (n / 10)%N 0%N) as [E|NE].
    + rewrite E. reflexivity.
    + apply N.log2_spec. apply N.neq_0_lt_0. exact NE.
  - lia.
  - lia.
Qed.

Lemma decimal_nonempty n : (1 <= String.length (JS.decimal n))%nat.
Proof.
  destruct (N.ltb_spec n 10) as [H|H].
  - rewrite decimal_small by exact H. cbn. lia.
  - rewrite decimal_step by exact H. rewrite append_length. cbn. lia.
Qed.

(** With one fraction digit, [toFixed] prints the tenths [n] nearest to
    the number as the digits of [n / 10], a point and the digit
    [n mod 10]. *)
Lemma toFixed_1 x :
  let n := Z.to_N (Qfloor (x * 10 + (1 # 2))%Q) in
  JS.toFixed x 1
  = JS.decimal (n / 10) +:+ "." +:+ String (JS.digit (n mod 10)) EmptyString.
Proof.
  intros n. unfold JS.toFixed. change (inject_Z (10 ^ Z.of_nat 1)) with 10%Q.
  fold n. cbn [Nat.eqb].
  destruct (N.ltb_spec n 10) as [H|H].
  - rewrite (decimal_small n H), (N.div_small n 10 H), (N.mod_small n 10 H).
    reflexivity.
  - rewrite (decimal_step n H).
    set (D := JS.decimal (n / 10)). set (d := String (JS.digit (n mod 10)) EmptyString).
    pose proof (decimal_nonempty (n / 10)) as HD. fold D in HD.
    rewrite append_length. change (String.length d) with 1%nat.
    destruct (Nat.leb_spec (String.length D + 1) 1) as [Hl|_]; [lia|].
    rewrite append_length. change (String.length d) with 1%nat.
    replace (String.length D + 1 - 1)%nat with (String.length D) by lia.
    rewrite substring_0_append.
    change 1%nat with (String.length d) at 1. rewrite substring_drop_append.
    reflexivity.
Qed.

(** The tenths nearest to bytes / 2^20, in integers. *)
Lemma tenths_of_size (size : N) :
  Z.to_N (Qfloor (inject_Z (Z.of_N size) / 1048576 * 10 + (1 # 2))%Q)
  = ((20 * size + 1048576) / 2097152)%N.
Proof.
  assert (E : (inject_Z (Z.of_N size) / 1048576 * 10 + (1 # 2)
               == inject_Z (20 * Z.of_N size + 1048576) / inject_Z 2097152)%Q).
  { rewrite inject_Z_plus, inject_Z_mult. field. }
  rewrite E, <- Zdiv_Qdiv.
  change 1048576%Z with (Z.of_N 1048576). change 20%Z with (Z.of_N 20).
  change 2097152%Z with (Z.of_N 2097152).
  rewrite <- N2Z.inj_mul, <- N2Z.inj_add, <- N2Z.inj_div, N2Z.id. reflexivity.
Qed.
End Printing.

(** ** The checks in the specification's terms *)
Section Checks.
Import Binary64 Binary64Facts.

(** The size check rejects exactly the files of more than 10 * 2^20
    bytes. *)
Lemma size_check_bytes file :
  gtb (sizeMB_of file) (of_N MAX_IMAGE_MB) = (10485760 <? File.size file)%N.
Proof.
  rewrite size_check_exact.
  set (S := inject_Z (Z.of_N (File.size file))).
  assert (ES : (S == S / 1048576 * 1048576)%Q) by field.
  destruct (N.ltb_spec 10485760 (File.size file)) as [H|H].
  - apply negb_true_iff.
    destruct (Qle_bool (S / 1048576) 10) eqn:Hb; [|reflexivity].
    apply Qle_bool_iff in Hb.
    assert (HS : (10485761 <= S)%Q).
    { unfold S. change 10485761%Q with (inject_Z 10485761). rewrite <- Zle_Qle. lia. }
    lra.
  - apply negb_false_iff. apply Qle_bool_iff.
    assert (HS : (S <= 10485760)%Q).
    { unfold S. change 10485760%Q with (inject_Z 10485760). rewrite <- Zle_Qle. lia. }
    lra.
Qed.

(** The score depends on the browser only through the 2D context. *)
Lemma computeVegetationScore_context B img :
  context2d B = true ->
  computeVegetationScore B img = computeVegetationScore (browser_with None) img.
Proof. intros H. unfold computeVegetationScore. rewrite H. reflexivity. Qed.

Lemma fl_1 : fl 1 = 1%Q.
Proof. reflexivity. Qed.

(** The scale factor is the binary64 number nearest to the
    specification's. *)
Lemma scale_of_spec img :
  let w := HTMLImageElement.width img in
  let h := HTMLImageElement.height img in
  (w < 2 ^ 32)%N -> (h < 2 ^ 32)%N -> (0 < N.max w h)%N ->
  (scale_of img == fl (Spec.scale w h))%Q.
Proof.
  intros w h Hw Hh Hm.
  assert (El : (longer_side img == inject_Z (Z.of_N (N.max w h)))%Q).
  { unfold longer_side, JS.max. fold w h.
    assert (Ew : (of_N w == inject_Z (Z.of_N w))%Q)
      by (apply of_N_exact; eapply N.lt_trans; [exact Hw | reflexivity]).
    assert (Eh : (of_N h == inject_Z (Z.of_N h))%Q)
      by (apply of_N_exact; eapply N.lt_trans; [exact Hh | reflexivity]).
    destruct (Qle_bool (of_N w) (of_N h)) eqn:E.
    - apply Qle_bool_iff in E. rewrite Ew, Eh, <- Zle_Qle in E.
      rewrite Eh. rewrite N.max_r by lia. reflexivity.
    - assert (E' : (of_N h < of_N w)%Q) by (apply ltb_lt; unfold ltb; rewrite E; reflexivity).
      rewrite Ew, Eh, <- Zlt_Qlt in E'.
      rewrite Ew. rewrite N.max_l by lia. reflexivity. }
  assert (Hpos : (0 < inject_Z (Z.of_N (N.max w h)))%Q).
  { change 0%Q with (inject_Z 0). rewrite <- Zlt_Qlt. lia. }
  unfold scale_of, Spec.scale. fold w h.
  destruct (Qeq_bool (longer_side img) 0) eqn:E0.
  { apply Qeq_bool_iff in E0. lra. }
  unfold div.
  assert (Eq : (512 / longer_side img == 512 / inject_Z (Z.of_N (N.max w h)))%Q)
    by (rewrite El; reflexivity).
  rewrite (Qeq_fl _ _ Eq).
  set (q := (512 / inject_Z (Z.of_N (N.max w h)))%Q).
  assert (Hq : (0 < q)%Q) by (apply Qlt_shift_div_l; [exact Hpos | lra]).
  unfold JS.min.
  destruct (Qle_bool 1 q) eqn:E1.
  - apply Qle_bool_iff in E1.
    assert (H1 : (1 <= fl q)%Q) by (apply fl_ge_repr; [lra | exact E1 | reflexivity]).
    apply Qle_bool_iff in H1. rewrite H1. reflexivity.
  - assert (E1' : (q < 1)%Q) by (apply ltb_lt; unfold ltb; rewrite E1; reflexivity).
    assert (H1 : (fl q <= 1)%Q) by (apply fl_le_repr; [lra | lra | reflexivity]).
    destruct (Qle_bool 1 (fl q)) eqn:E2; [|reflexivity].
    apply Qle_bool_iff in E2. lra.
Qed.

(** The binary64 quotient of two counts that are below 8 in 100 is below
    8 / 100 itself, not only below the literal [0.08]. *)
Lemma low_score_below g t : (0 <= g <= t)%Z -> (0 < t < 2 ^ 40)%Z ->
  (25 * g < 2 * t)%Z -> (div (inject_Z g) (inject_Z t) < 8 # 100)%Q.
Proof.
  intros Hg Ht H. unfold div.
  assert (HT0 : (0 < inject_Z t)%Q) by (change 0%Q with (inject_Z 0); rewrite <- Zlt_Qlt; lia).
  assert (HT1 : (inject_Z t < 1099511627776)%Q).
  { change 1099511627776%Q with (inject_Z (2 ^ 40)). rewrite <- Zlt_Qlt. lia. }
  assert (HG0 : (0 <= inject_Z g)%Q) by (change 0%Q with (inject_Z 0); rewrite <- Zle_Qle; lia).
  assert (Ex : (inject_Z g / inject_Z t * inject_Z t == inject_Z g)%Q) by (field; lra).
  assert (HQ : (25 * inject_Z g + 1 <= 2 * inject_Z t)%Q).
  { change 25%Q with (inject_Z 25). change 2%Q with (inject_Z 2).
    change 1%Q with (inject_Z 1).
    rewrite <- !inject_Z_mult, <- inject_Z_plus, <- Zle_Qle. lia. }
  set (G := inject_Z g) in *. set (T := inject_Z t) in *. set (x := (G / T)%Q) in *.
  assert (Hx0 : (0 <= x)%Q) by (apply Qle_shift_div_l; [exact HT0 | lra]).
  destruct (Qle_lt_or_eq 0 x Hx0) as [Hx|Hx].
  - destruct (fl_err x Hx) as [_ Hhi].
    change (2 ^ (-53))%Q with (1 # 9007199254740992)%Q in Hhi.
    apply Qle_lt_trans with (x * (1 + (1 # 9007199254740992)))%Q; [exact Hhi|].
    apply Qmult_lt_r with (z := T); [exact HT0|].
    assert (E : (x * (1 + (1 # 9007199254740992)) * T
                 == G * (1 + (1 # 9007199254740992)))%Q).
    { rewrite <- Ex. ring. }
    rewrite E. lra.
  - rewrite <- (Qeq_fl 0 x Hx), fl_0. reflexivity.
Qed.

(** The vegetation check of the code, on binary64 numbers and against
    the literal [0.08], decides whether the score is below 8 / 100. *)
Lemma threshold_in_rationals B img :
  ltb (computeVegetationScore B img) MIN_VEG_SCORE = true
  <-> (computeVegetationScore B img < 8 # 100)%Q.
Proof.
  split.
  - intros H.
    destruct (context2d B) eqn:Hctx.
    + rewrite vegetation_check_exact in H by exact Hctx.
      rewrite computeVegetationScore_eq, Hctx. unfold Spec.score.
      pose proof (total_pixels_range img) as Hn.
      set (data := HTMLImageElement.pixels img (canvas_width img) (canvas_height img)) in *.
      set (n := (canvas_width img * canvas_height img)%Z) in *.
      pose proof (opaque_count_bound data n ltac:(lia)) as Ho.
      pose proof (counts_ordered data n) as Hg.
      destruct (Z.eqb_spec (Spec.opaque_count data n) 0) as [E|NE].
      * rewrite fl_0. reflexivity.
      * cbn [orb] in H. apply Z.ltb_lt in H.
        apply low_score_below; [exact Hg | | exact H].
        destruct (canvas_bounds img) as [Hw Hh].
        assert (n <= 512 * 512)%Z by (unfold n; nia). lia.
    + rewrite computeVegetationScore_eq, Hctx. reflexivity.
  - intros H. apply ltb_lt. unfold MIN_VEG_SCORE. rewrite lit_0_08_value.
    eapply Qlt_le_trans; [exact H|]. discriminate.
Qed.
End Checks.

(* ================================================================== *)
(** * The claims *)
(* ================================================================== *)

Section Claims.
Import Binary64 Binary64Facts.

(** C1: for every file, [validateImage] applies five checks in order
    and stops at the first that fails, with a rejection ([ok] false)
    that carries the reason of that check, whatever the later checks
    would give:
    (1) a media type that does not start with "image/" is rejected with
        "File is not an image.";
    (2) past (1), a size above 10 MB (10 * 2^20 bytes) is rejected with
        "Image is too large (X MB). Max 10 MB.";
    (3) past (2), a content that does not decode is rejected with
        "Could not read the image. Try another file.";
    (4) past (3), a width or a height below 256 px is rejected with
        "Image is too small (WxH). Minimum 256x256.";
    (5) past (4), a vegetation score below 8 / 100 is rejected with
        "Wrong image: looks unlike a crop/leaf. ..." and the details;
    and a file that passes the five checks is accepted, with the details
    and no reason.  The conditions of the six cases exclude each other
    and cover every file, so no later reason is returned when an earlier
    check fails. *)
Theorem validate_checks_in_order :
  (forall B file s,
      String.prefix "image/" (File.type file) = false ->
      fst (validateImage B file s)
      = Return {| ok := false; reason := Some "File is not an image.";
                  details := None |})
  /\ (forall B file s,
        String.prefix "image/" (File.type file) = true ->
        (10485760 < File.size file)%N ->
        fst (validateImage B file s)
        = Return {| ok := false;
                    reason := Some ("Image is too large ("
                                    +:+ JS.toFixed (sizeMB_of file) 1
                                    +:+ " MB). Max 10 MB.");
                    details := None |})
  /\ (forall B file s,
        String.prefix "image/" (File.type file) = true ->
        (File.size file <= 10485760)%N ->
        decode B file = None ->
        fst (validateImage B file s)
        = Return {| ok := false;
                    reason := Some "Could not read the image. Try another file.";
                    details := None |})
  /\ (forall B file s img,
        String.prefix "image/" (File.type file) = true ->
        (File.size file <= 10485760)%N ->
        decode B file = Some img ->
        (HTMLImageElement.width img < 256 \/ HTMLImageElement.height img < 256)%N ->
        fst (validateImage B file s)
        = Return {| ok := false;
                    reason := Some ("Image is too small ("
                                    +:+ JS.decimal (HTMLImageElement.width img) +:+ "x"
                                    +:+ JS.decimal (HTMLImageElement.height img)
                                    +:+ "). Minimum 256x256.");
                    details := None |})
  /\ (forall B file s img,
        String.prefix "image/" (File.type file) = true ->
        (File.size file <= 10485760)%N ->
        decode B file = Some img ->
        (256 <= HTMLImageElement.width img)%N ->
        (256 <= HTMLImageElement.height img)%N ->
        (computeVegetationScore B img < 8 # 100)%Q ->
        fst (validateImage B file s)
        = Return {| ok := false;
                    reason := Some "Wrong image: looks unlike a crop/leaf. Please upload a clear leaf/plant photo.";
                    details := Some {| width := HTMLImageElement.width img;
                                       height := HTMLImageElement.height img;
                                       sizeMB := sizeMB_of file;
                                       type := File.type file;
                                       vegetationScore :=
                                         Some (computeVegetationScore B img) |} |})
  /\ (forall B file s img,
        String.prefix "image/" (File.type file) = true ->
        (File.size file <= 10485760)%N ->
        decode B file = Some img ->
        (256 <= HTMLImageElement.width img)%N ->
        (256 <= HTMLImageElement.height img)%N ->
        (8 # 100 <= computeVegetationScore B img)%Q ->
        fst (validateImage B file s)
        = Return {| ok := true;
                    reason := None;
                    details := Some {| width := HTMLImageElement.width img;
                                       height := HTMLImageElement.height img;
                                       sizeMB := sizeMB_of file;
                                       type := File.type file;
                                       vegetationScore :=
                                         Some (computeVegetationScore B img) |} |}).
Proof.
  assert (Hpast : forall B file s,
             String.prefix "image/" (File.type file) = true ->
             (File.size file <= 10485760)%N ->
             fst (validateImage B file s)
             = Return (match decode B file with
                       | Some img => verdict_on_image source_limits B file img
                       | None => rejected could_not_read
                       end)).
  { intros B file s Hty Hsz. rewrite validateImage_run. cbn [fst]. f_equal.
    unfold verdict. change (maxImageMB source_limits) with MAX_IMAGE_MB.
    rewrite Hty, size_check_bytes. cbn [negb].
    destruct (N.ltb_spec 10485760 (File.size file)) as [H|_]; [lia | reflexivity]. }
  assert (Hdims : forall img,
             (256 <= HTMLImageElement.width img)%N ->
             (256 <= HTMLImageElement.height img)%N ->
             ((HTMLImageElement.width img <? 256)%N
              || (HTMLImageElement.height img <? 256)%N) = false).
  { intros img Hw Hh. apply orb_false_iff. rewrite !N.ltb_ge. split; assumption. }
  split; [|split; [|split; [|split; [|split]]]].
  - intros B file s Hty. rewrite validateImage_run. cbn [fst]. f_equal.
    unfold verdict. rewrite Hty. reflexivity.
  - intros B file s Hty Hsz. rewrite validateImage_run. cbn [fst]. f_equal.
    unfold verdict. change (maxImageMB source_limits) with MAX_IMAGE_MB.
    rewrite Hty, size_check_bytes. cbn [negb].
    destruct (N.ltb_spec 10485760 (File.size file)) as [_|H]; [|lia].
    unfold rejected, too_large. f_equal.
  - intros B file s Hty Hsz Hdec. rewrite (Hpast B file s Hty Hsz), Hdec. reflexivity.
  - intros B file s img Hty Hsz Hdec Hdim.
    rewrite (Hpast B file s Hty Hsz), Hdec. f_equal.
    unfold verdict_on_image. change (minDim source_limits) with 256%N.
    assert (Ed : ((HTMLImageElement.width img <? 256)%N
                  || (HTMLImageElement.height img <? 256)%N) = true).
    { apply orb_true_iff. rewrite !N.ltb_lt. exact Hdim. }
    rewrite Ed. reflexivity.
  - intros B file s img Hty Hsz Hdec Hw Hh Hlow.
    rewrite (Hpast B file s Hty Hsz), Hdec. f_equal.
    unfold verdict_on_image. change (minDim source_limits) with 256%N.
    rewrite (Hdims img Hw Hh).
    change (minVegScore source_limits) with MIN_VEG_SCORE.
    rewrite (proj2 (threshold_in_rationals B img) Hlow). reflexivity.
  - intros B file s img Hty Hsz Hdec Hw Hh Hhigh.
    rewrite (Hpast B file s Hty Hsz), Hdec. f_equal.
    unfold verdict_on_image. change (minDim source_limits) with 256%N.
    rewrite (Hdims img Hw Hh).
    change (minVegScore source_limits) with MIN_VEG_SCORE.
    destruct (ltb (computeVegetationScore B img) MIN_VEG_SCORE) eqn:E; [|reflexivity].
    apply threshold_in_rationals in E. lra.
Qed.

Lemma validate_checks_in_order_witness :
  let green := uniform_image 5000 5000 green_data in
  let clear := uniform_image 300 400 clear_data in
  let tiny := uniform_image 120 80 green_data in
  let pdf := {| File.type := "application/pdf"; File.size := 3145728 |} in
  fst (validateImage (browser_with (Some green)) pdf empty_store)
  = Return {| ok := false; reason := Some "File is not an image."; details := None |}
  /\ fst (validateImage (browser_with (Some green)) (png 12897485) empty_store)
     = Return {| ok := false;
                 reason := Some "Image is too large (12.3 MB). Max 10 MB.";
                 details := None |}
  /\ fst (validateImage (browser_with None) (png 3145728) empty_store)
     = Return {| ok := false;
                 reason := Some "Could not read the image. Try another file.";
                 details := None |}
  /\ fst (validateImage (browser_with (Some tiny)) (png 3145728) empty_store)
     = Return {| ok := false;
                 reason := Some "Image is too small (120x80). Minimum 256x256.";
                 details := None |}
  /\ fst (validateImage (browser_with (Some clear)) (png 3145728) empty_store)
     = Return {| ok := false;
                 reason := Some "Wrong image: looks unlike a crop/leaf. Please upload a clear leaf/plant photo.";
                 details := Some {| width := 300; height := 400; sizeMB := 3;
                                    type := "image/png";
                                    vegetationScore := Some 0%Q |} |}
  /\ fst (validateImage (browser_with (Some green)) (png 3145728) empty_store)
     = Return {| ok := true;
                 reason := None;
                 details := Some {| width := 5000; height := 5000; sizeMB := 3;
                                    type := "image/png";
                                    vegetationScore := Some 1%Q |} |}.
Proof.
  intros green clear tiny pdf.
  destruct validate_checks_in_order as (H1 & H2 & H3 & H4 & H5 & H6).
  assert (Hsz : (File.size (png 3145728) <= 10485760)%N) by (vm_compute; discriminate).
  assert (Hbig : (10485760 < File.size (png 12897485))%N) by reflexivity.
  assert (Hw : (256 <= 300)%N) by (vm_compute; discriminate).
  assert (Hh : (256 <= 400)%N) by (vm_compute; discriminate).
  assert (HW : (256 <= 5000)%N) by (vm_compute; discriminate).
  assert (Hlow : (computeVegetationScore (browser_with (Some clear)) clear < 8 # 100)%Q)
    by (vm_compute; reflexivity).
  assert (Hhigh : (8 # 100 <= computeVegetationScore (browser_with (Some green)) green)%Q)
    by (vm_compute; discriminate).
  split; [exact (H1 (browser_with (Some green)) pdf empty_store eq_refl)|].
  split.
  { rewrite (H2 (browser_with (Some green)) (png 12897485) empty_store eq_refl Hbig).
    vm_compute. reflexivity. }
  split; [exact (H3 (browser_with None) (png 3145728) empty_store eq_refl Hsz eq_refl)|].
  split.
  { rewrite (H4 (browser_with (Some tiny)) (png 3145728) empty_store tiny eq_refl Hsz
               eq_refl (or_introl eq_refl)).
    vm_compute. reflexivity. }
  split.
  { rewrite (H5 (browser_with (Some clear)) (png 3145728) empty_store clear eq_refl Hsz
               eq_refl Hw Hh Hlow).
    vm_compute. reflexivity. }
  rewrite (H6 (browser_with (Some green)) (png 3145728) empty_store green eq_refl Hsz
             eq_refl HW HW Hhigh).
  vm_compute. reflexivity.
Defined.

(** C2: with a 2D context, the vegetation score of a decoded image is
    computed as specified.  The scale factor is (the binary64 number
    nearest to) min(1, 512 / max(width, height)), and both sides of the
    canvas, so the longer one, are at most 512 samples; the stride is
    max(1, totalPixels / 10000), the quotient taken in whole pixels; a
    sample counts as green-dominant exactly when green > red x 1.1,
    green > blue x 1.1 and green > 60, that is 10 green > 11 red and
    10 green > 11 blue in integers; and the score is the quotient of the
    number of green-dominant samples by the number of sampled pixels
    with alpha at least 50 (0 when there is none). *)
Theorem vegetation_score_as_specified B img :
  let w := HTMLImageElement.width img in
  let h := HTMLImageElement.height img in
  let cw := canvas_width img in
  let ch := canvas_height img in
  let data := HTMLImageElement.pixels img cw ch in
  let greens := Spec.green_count data (cw * ch) in
  let opaques := Spec.opaque_count data (cw * ch) in
  context2d B = true -> (w < 2 ^ 32)%N -> (h < 2 ^ 32)%N -> (0 < N.max w h)%N ->
  (scale_of img == fl (Spec.scale w h))%Q
  /\ cw = Z.max 1 (JS.floor (mul (of_N w) (scale_of img)))
  /\ ch = Z.max 1 (JS.floor (mul (of_N h) (scale_of img)))
  /\ (1 <= cw <= 512)%Z /\ (1 <= ch <= 512)%Z
  /\ step_of (4 * cw * ch) = Z.max 1 (cw * ch / 10000)
  /\ (forall r g b : byte,
        isGreen (u8 r) (u8 g) (u8 b) = true
        <-> (11 * u8 r < 10 * u8 g /\ 11 * u8 b < 10 * u8 g /\ 60 < u8 g)%Z)
  /\ computeVegetationScore B img
     = if (opaques =? 0)%Z then 0%Q else div (inject_Z greens) (inject_Z opaques).
Proof.
  intros w h cw ch data greens opaques Hctx Hw Hh Hm.
  destruct (canvas_bounds img) as [Hcw Hch].
  split; [apply scale_of_spec; assumption|].
  split; [reflexivity|]. split; [reflexivity|].
  split; [exact Hcw|]. split; [exact Hch|].
  split.
  { rewrite <- Z.mul_assoc. apply step_of_stride. apply total_pixels_range. }
  split.
  { intros r g b. rewrite isGreen_spec by apply u8_range.
    unfold Spec.green_dominant. rewrite !andb_true_iff, !Z.ltb_lt. tauto. }
  rewrite computeVegetationScore_eq, Hctx. unfold Spec.score.
  fold cw ch data greens opaques.
  destruct (opaques =? 0)%Z; reflexivity.
Qed.

Lemma vegetation_score_as_specified_witness :
  let img := uniform_image 5000 5000 green_data in
  let B := browser_with (Some img) in
  (scale_of img == fl (Spec.scale 5000 5000))%Q
  /\ canvas_width img = Z.max 1 (JS.floor (mul (of_N 5000) (scale_of img)))
  /\ canvas_height img = Z.max 1 (JS.floor (mul (of_N 5000) (scale_of img)))
  /\ (1 <= canvas_width img <= 512)%Z /\ (1 <= canvas_height img <= 512)%Z
  /\ step_of (4 * canvas_width img * canvas_height img)
     = Z.max 1 (canvas_width img * canvas_height img / 10000)
  /\ (forall r g b : byte,
        isGreen (u8 r) (u8 g) (u8 b) = true
        <-> (11 * u8 r < 10 * u8 g /\ 11 * u8 b < 10 * u8 g /\ 60 < u8 g)%Z)
  /\ computeVegetationScore B img
     = if (Spec.opaque_count green_data (canvas_width img * canvas_height img) =? 0)%Z
       then 0%Q
       else div (inject_Z (Spec.green_count green_data
                             (canvas_width img * canvas_height img)))
                (inject_Z (Spec.opaque_count green_data
                             (canvas_width img * canvas_height img))).
Proof.
  intros img B.
  apply (vegetation_score_as_specified B img); reflexivity.
Defined.

(** C3: a 5000 x 5000, 3 MB PNG that is uniformly green is accepted
    under the source's thresholds (256 px, 10 MB, 0.08), with the details
    width 5000, height 5000, sizeMB 3, type "image/png" and
    vegetationScore 1; and every accepted verdict carries a details block
    with the five fields, the vegetation score included: the sides of
    the decoded image, the size in MB and the type of the file. *)
Theorem accepted_with_details :
  (forall B s,
      decode B (png 3145728) = Some (uniform_image 5000 5000 green_data) ->
      context2d B = true ->
      fst (validateImage B (png 3145728) s)
      = Return {| ok := true; reason := None;
                  details := Some {| width := 5000; height := 5000; sizeMB := 3;
                                     type := "image/png";
                                     vegetationScore := Some 1%Q |} |})
  /\ (forall B file s v,
        fst (validateImage B file s) = Return v -> ok v = true ->
        exists img,
          decode B file = Some img
          /\ v = {| ok := true; reason := None;
                    details := Some {| width := HTMLImageElement.width img;
                                       height := HTMLImageElement.height img;
                                       sizeMB := sizeMB_of file;
                                       type := File.type file;
                                       vegetationScore :=
                                         Some (computeVegetationScore B img) |} |}).
Proof.
  split.
  - intros B s Hdec Hctx. rewrite validateImage_run. cbn [fst]. f_equal.
    unfold verdict. rewrite Hdec. unfold verdict_on_image.
    rewrite (computeVegetationScore_context B _ Hctx).
    vm_compute. reflexivity.
  - intros B file s v Hrun Hok. rewrite validateImage_run in Hrun. cbn [fst] in Hrun.
    injection Hrun as <-. unfold verdict in *.
    destruct (negb (String.prefix "image/" (File.type file))); [discriminate Hok|].
    destruct (gtb _ _); [discriminate Hok|].
    destruct (decode B file) as [img|]; [|discriminate Hok].
    exists img. split; [reflexivity|].
    unfold verdict_on_image in *.
    destruct (_ || _); [discriminate Hok|].
    destruct (ltb _ _); [discriminate Hok | reflexivity].
Qed.

Lemma accepted_with_details_witness :
  let B := browser_with (Some (uniform_image 5000 5000 green_data)) in
  fst (validateImage B (png 3145728) empty_store)
  = Return {| ok := true; reason := None;
              details := Some {| width := 5000; height := 5000; sizeMB := 3;
                                 type := "image/png";
                                 vegetationScore := Some 1%Q |} |}
  /\ exists img,
       decode B (png 3145728) = Some img
       /\ {| ok := true; reason := None;
              details := Some {| width := 5000; height := 5000; sizeMB := 3;
                                 type := "image/png";
                                 vegetationScore := Some 1%Q |} |}
          = {| ok := true; reason := None;
               details := Some {| width := HTMLImageElement.width img;
                                  height := HTMLImageElement.height img;
                                  sizeMB := sizeMB_of (png 3145728);
                                  type := File.type (png 3145728);
                                  vegetationScore :=
                                    Some (computeVegetationScore B img) |} |}.
Proof.
  intros B. destruct accepted_with_details as [Hex Hall].
  pose proof (Hex B empty_store eq_refl eq_refl) as Hrun.
  split; [exact Hrun|].
  exact (Hall B (png 3145728) empty_store _ Hrun eq_refl).
Defined.

(** C4: the vegetation score of every decoded image lies in [0, 1];
    it is 0 when no sampled pixel is non-transparent, as in a raster
    that is transparent throughout; and whatever the thresholds, as long
    as the minimum score is greater than 0, an image that reaches the
    vegetation check without a non-transparent sample is rejected with
    the reason "Wrong image: looks unlike a crop/leaf. ..." and the
    details, score 0 included. *)
Theorem score_in_unit_interval :
  (forall B img, (0 <= computeVegetationScore B img <= 1)%Q)
  /\ (forall data n, Spec.all_transparent data -> Spec.opaque_count data n = 0%Z)
  /\ (forall B img,
        let cw := canvas_width img in
        let ch := canvas_height img in
        Spec.opaque_count (HTMLImageElement.pixels img cw ch) (cw * ch) = 0%Z ->
        computeVegetationScore B img = 0%Q)
  /\ (forall L B file s img,
        let cw := canvas_width img in
        let ch := canvas_height img in
        (0 < minVegScore L)%Q ->
        String.prefix "image/" (File.type file) = true ->
        gtb (sizeMB_of file) (of_N (maxImageMB L)) = false ->
        decode B file = Some img ->
        (minDim L <= HTMLImageElement.width img)%N ->
        (minDim L <= HTMLImageElement.height img)%N ->
        Spec.opaque_count (HTMLImageElement.pixels img cw ch) (cw * ch) = 0%Z ->
        fst (validateImageWith L B file s)
        = Return {| ok := false;
                    reason := Some "Wrong image: looks unlike a crop/leaf. Please upload a clear leaf/plant photo.";
                    details := Some {| width := HTMLImageElement.width img;
                                       height := HTMLImageElement.height img;
                                       sizeMB := sizeMB_of file;
                                       type := File.type file;
                                       vegetationScore := Some 0%Q |} |}).
Proof.
  assert (Hzero : forall B img,
             Spec.opaque_count
               (HTMLImageElement.pixels img (canvas_width img) (canvas_height img))
               (canvas_width img * canvas_height img) = 0%Z ->
             computeVegetationScore B img = 0%Q).
  { intros B img H0. rewrite computeVegetationScore_eq.
    destruct (context2d B); [|reflexivity].
    unfold Spec.score. rewrite H0. reflexivity. }
  split; [exact computeVegetationScore_range|]. split.
  { intros data n Ht. unfold Spec.opaque_count.
    rewrite opaque_in_all_transparent by exact Ht. reflexivity. }
  split; [exact Hzero|].
  intros L B file s img cw ch Hmin Hty Hsz Hdec Hw Hh Hnone.
  rewrite validateImageWith_run. cbn [fst]. f_equal.
  unfold verdict. rewrite Hty, Hsz, Hdec. cbn [negb].
  unfold verdict_on_image.
  destruct (N.ltb_spec (HTMLImageElement.width img) (minDim L)) as [H|_]; [lia|].
  destruct (N.ltb_spec (HTMLImageElement.height img) (minDim L)) as [H|_]; [lia|].
  cbn [orb].
  rewrite (Hzero B img Hnone).
  assert (Hlt : ltb 0 (minVegScore L) = true) by (apply ltb_lt; exact Hmin).
  rewrite Hlt. reflexivity.
Qed.

Lemma score_in_unit_interval_witness :
  let img := uniform_image 300 400 clear_data in
  let B := browser_with (Some img) in
  (0 <= computeVegetationScore B img <= 1)%Q
  /\ Spec.opaque_count clear_data (canvas_width img * canvas_height img) = 0%Z
  /\ computeVegetationScore B img = 0%Q
  /\ fst (validateImageWith source_limits B (png 2000000) empty_store)
     = Return {| ok := false;
                 reason := Some "Wrong image: looks unlike a crop/leaf. Please upload a clear leaf/plant photo.";
                 details := Some {| width := 300; height := 400;
                                    sizeMB := sizeMB_of (png 2000000);
                                    type := "image/png";
                                    vegetationScore := Some 0%Q |} |}.
Proof.
  intros img B. destruct score_in_unit_interval as (Hrange & Hclear & Hzero & Hrej).
  assert (Hnone : Spec.opaque_count clear_data (canvas_width img * canvas_height img)
                  = 0%Z).
  { apply Hclear. intros p. vm_compute. reflexivity. }
  split; [apply Hrange|]. split; [exact Hnone|]. split.
  - apply Hzero. exact Hnone.
  - apply (Hrej source_limits B (png 2000000) empty_store img).
    + reflexivity.
    + reflexivity.
    + vm_compute. reflexivity.
    + reflexivity.
    + vm_compute. discriminate.
    + vm_compute. discriminate.
    + exact Hnone.
Defined.

(** C5: [validateImage] returns a verdict for every file and lets no
    exception escape; when the content of a file of an image type and of
    acceptable size does not decode, the rejected promise is caught and
    the verdict is the rejection "Could not read the image. Try another
    file.". *)
Theorem no_exception_escapes :
  (forall B file s, exists v, fst (validateImage B file s) = Return v)
  /\ (forall B file s,
        String.prefix "image/" (File.type file) = true ->
        (File.size file <= 10485760)%N ->
        decode B file = None ->
        fst (validateImage B file s)
        = Return {| ok := false;
                    reason := Some "Could not read the image. Try another file.";
                    details := None |}).
Proof.
  split.
  - intros B file s. rewrite validateImage_run. eexists. reflexivity.
  - intros B file s Hty Hsz Hdec. rewrite validateImage_run. cbn [fst]. f_equal.
    unfold verdict. change (maxImageMB source_limits) with MAX_IMAGE_MB.
    rewrite Hty, size_check_bytes, Hdec. cbn [negb].
    destruct (N.ltb_spec 10485760 (File.size file)) as [H|_]; [lia | reflexivity].
Qed.

Lemma no_exception_escapes_witness :
  (exists v, fst (validateImage (browser_with None) (png 2000000) empty_store) = Return v)
  /\ fst (validateImage (browser_with None) (png 2000000) empty_store)
     = Return {| ok := false;
                 reason := Some "Could not read the image. Try another file.";
                 details := None |}.
Proof.
  destruct no_exception_escapes as [Hret Hdec].
  split; [apply Hret|].
  apply Hdec; [reflexivity | vm_compute; discriminate | reflexivity].
Defined.

(** C6: a file of an image type whose size exceeds 10 MB (more than
    10 * 2^20 bytes) is rejected, before anything is decoded and with the
    store untouched, with the reason "Image is too large (X.X MB). Max 10
    MB.", where X.X is the size in MB to one decimal place: the digits
    of n / 10, a point and the digit n mod 10, for n the number of tenths
    of a MB nearest to the size (the larger one on a tie). *)
Theorem too_large_rejected B file s :
  let n := ((20 * File.size file + 1048576) / 2097152)%N in
  String.prefix "image/" (File.type file) = true ->
  (10485760 < File.size file)%N ->
  (File.size file < 2 ^ 53)%N ->
  validateImage B file s
  = (Return {| ok := false;
               reason := Some ("Image is too large ("
                               +:+ JS.decimal (n / 10) +:+ "."
                               +:+ String (JS.digit (n mod 10)) EmptyString
                               +:+ " MB). Max 10 MB.");
               details := None |}, s).
Proof.
  intros n Hty Hsz Hsafe. rewrite validateImage_run.
  unfold verdict, store_after. change (maxImageMB source_limits) with MAX_IMAGE_MB.
  rewrite Hty, size_check_bytes. cbn [negb orb].
  destruct (N.ltb_spec 10485760 (File.size file)) as [_|H]; [|lia].
  f_equal. f_equal. unfold rejected, too_large. f_equal. f_equal.
  rewrite toFixed_1.
  assert (En : Z.to_N (Qfloor (sizeMB_of file * 10 + (1 # 2))%Q) = n).
  { unfold n. rewrite <- tenths_of_size. f_equal. apply Qfloor_comp.
    rewrite (sizeMB_exact file Hsafe). reflexivity. }
  rewrite En, append_assoc. reflexivity.
Qed.

Lemma too_large_rejected_witness :
  String.prefix "image/" (File.type (png 12897485)) = true
  /\ (10485760 < File.size (png 12897485))%N
  /\ (File.size (png 12897485) < 2 ^ 53)%N
  /\ validateImage (browser_with None) (png 12897485) empty_store
     = (Return {| ok := false;
                  reason := Some "Image is too large (12.3 MB). Max 10 MB.";
                  details := None |}, empty_store).
Proof.
  split; [reflexivity|]. split; [reflexivity|]. split; [reflexivity|].
  apply (too_large_rejected (browser_with None) (png 12897485) empty_store);
    reflexivity.
Defined.

(** C7: a file of an image type and of acceptable size that decodes to
    an image whose width or height is below 256 px is rejected with the
    reason "Image is too small (WxH). Minimum 256x256.", W and H being
    the width and the height in decimal digits. *)
Theorem too_small_rejected B file s img :
  String.prefix "image/" (File.type file) = true ->
  (File.size file <= 10485760)%N ->
  decode B file = Some img ->
  (HTMLImageElement.width img < 256 \/ HTMLImageElement.height img < 256)%N ->
  fst (validateImage B file s)
  = Return {| ok := false;
              reason := Some ("Image is too small ("
                              +:+ JS.decimal (HTMLImageElement.width img) +:+ "x"
                              +:+ JS.decimal (HTMLImageElement.height img)
                              +:+ "). Minimum 256x256.");
              details := None |}.
Proof.
  intros Hty Hsz Hdec Hdim. rewrite validateImage_run. cbn [fst]. f_equal.
  unfold verdict. change (maxImageMB source_limits) with MAX_IMAGE_MB.
  rewrite Hty, size_check_bytes, Hdec. cbn [negb].
  destruct (N.ltb_spec 10485760 (File.size file)) as [H|_]; [lia|].
  unfold verdict_on_image. change (minDim source_limits) with 256%N.
  assert (Ed : ((HTMLImageElement.width img <? 256)%N
                || (HTMLImageElement.height img <? 256)%N) = true).
  { apply orb_true_iff. rewrite !N.ltb_lt. exact Hdim. }
  rewrite Ed. reflexivity.
Qed.

Lemma too_small_rejected_witness :
  let img := uniform_image 120 80 green_data in
  String.prefix "image/" (File.type (png 2000000)) = true
  /\ (File.size (png 2000000) <= 10485760)%N
  /\ decode (browser_with (Some img)) (png 2000000) = Some img
  /\ (HTMLImageElement.width img < 256 \/ HTMLImageElement.height img < 256)%N
  /\ fst (validateImage (browser_with (Some img)) (png 2000000) empty_store)
     = Return {| ok := false;
                 reason := Some "Image is too small (120x80). Minimum 256x256.";
                 details := None |}.
Proof.
  intros img.
  assert (Hsz : (File.size (png 2000000) <= 10485760)%N) by (vm_compute; discriminate).
  assert (Hdim : (HTMLImageElement.width img < 256 \/ HTMLImageElement.height img < 256)%N)
    by (left; reflexivity).
  split; [reflexivity|]. split; [exact Hsz|]. split; [reflexivity|].
  split; [exact Hdim|].
  apply (too_small_rejected (browser_with (Some img)) (png 2000000) empty_store img
           eq_refl Hsz eq_refl Hdim).
Defined.

(** C8: a file whose declared media type does not start with "image/"
    is rejected with the reason "File is not an image.", whatever its
    size, whatever the browser would decode from its content, and
    without touching the store. *)
Theorem not_an_image_rejected B file s :
  String.prefix "image/" (File.type file) = false ->
  validateImage B file s
  = (Return {| ok := false; reason := Some "File is not an image."; details := None |},
     s).
Proof.
  intros Hty. rewrite validateImage_run. unfold verdict, store_after.
  rewrite Hty. reflexivity.
Qed.

Lemma not_an_image_rejected_witness :
  let img := uniform_image 5000 5000 green_data in
  let pdf := {| File.type := "application/pdf"; File.size := 3145728 |} in
  String.prefix "image/" (File.type pdf) = false
  /\ validateImage (browser_with (Some img)) pdf empty_store
     = (Return {| ok := false; reason := Some "File is not an image.";
                  details := None |}, empty_store).
Proof.
  intros img pdf. split; [reflexivity|].
  apply (not_an_image_rejected (browser_with (Some img)) pdf empty_store).
  reflexivity.
Defined.

(** C9: validation is deterministic: two runs on the same file, in
    browsers that decode the file alike and agree on the 2D context,
    return the same verdict (acceptance, reason and details), whatever
    object URLs are registered in either run. *)
Theorem validate_deterministic B1 B2 file s1 s2 :
  decode B1 file = decode B2 file ->
  context2d B1 = context2d B2 ->
  fst (validateImage B1 file s1) = fst (validateImage B2 file s2).
Proof.
  intros Hdec Hctx. rewrite !validateImage_run. cbn [fst]. f_equal.
  unfold verdict. rewrite Hdec.
  destruct (negb _); [reflexivity|]. destruct (gtb _ _); [reflexivity|].
  destruct (decode B2 file) as [img|]; [|reflexivity].
  unfold verdict_on_image, computeVegetationScore. rewrite Hctx. reflexivity.
Qed.

Lemma validate_deterministic_witness :
  let img := uniform_image 5000 5000 green_data in
  let B1 := browser_with (Some img) in
  let B2 := {| decode := fun f => if (File.size f =? 3145728)%N then Some img else None;
               context2d := true |} in
  let s2 := {| objectURLs := <[0%N := png 7]> ∅; nextURL := 1 |} in
  decode B1 (png 3145728) = decode B2 (png 3145728)
  /\ context2d B1 = context2d B2
  /\ fst (validateImage B1 (png 3145728) empty_store)
     = fst (validateImage B2 (png 3145728) s2).
Proof.
  intros img B1 B2 s2. split; [reflexivity|]. split; [reflexivity|].
  apply (validate_deterministic B1 B2 (png 3145728) empty_store s2); reflexivity.
Defined.

(** C10: both limits are strict.  A file of exactly 10 MB (10485760
    bytes) is not rejected by the size check: validation goes on to
    decoding and returns what the later checks give.  And an image of
    exactly 256 by 256 px passes the dimension check: its verdict is
    that of the vegetation check. *)
Theorem limits_are_strict :
  (forall B file s,
      String.prefix "image/" (File.type file) = true ->
      File.size file = 10485760%N ->
      fst (validateImage B file s)
      = Return (match decode B file with
                | Some img => verdict_on_image source_limits B file img
                | None => rejected "Could not read the image. Try another file."
                end))
  /\ (forall B file s img,
        String.prefix "image/" (File.type file) = true ->
        (File.size file <= 10485760)%N ->
        decode B file = Some img ->
        HTMLImageElement.width img = 256%N ->
        HTMLImageElement.height img = 256%N ->
        let d := {| width := 256; height := 256; sizeMB := sizeMB_of file;
                    type := File.type file;
                    vegetationScore := Some (computeVegetationScore B img) |} in
        fst (validateImage B file s)
        = Return (if ltb (computeVegetationScore B img) MIN_VEG_SCORE
                  then {| ok := false; reason := Some not_a_plant; details := Some d |}
                  else {| ok := true; reason := None; details := Some d |})).
Proof.
  split.
  - intros B file s Hty Hsz. rewrite validateImage_run. cbn [fst]. f_equal.
    unfold verdict. change (maxImageMB source_limits) with MAX_IMAGE_MB.
    rewrite Hty, size_check_bytes, Hsz. reflexivity.
  - intros B file s img Hty Hsz Hdec Hw Hh d. rewrite validateImage_run.
    cbn [fst]. f_equal.
    unfold verdict. change (maxImageMB source_limits) with MAX_IMAGE_MB.
    rewrite Hty, size_check_bytes, Hdec. cbn [negb].
    destruct (N.ltb_spec 10485760 (File.size file)) as [H|_]; [lia|].
    unfold verdict_on_image. rewrite Hw, Hh. reflexivity.
Qed.

Lemma limits_are_strict_witness :
  let img := uniform_image 256 256 green_data in
  let B := browser_with (Some img) in
  fst (validateImage B (png 10485760) empty_store)
  = Return {| ok := true; reason := None;
              details := Some {| width := 256; height := 256; sizeMB := 10;
                                 type := "image/png";
                                 vegetationScore := Some 1%Q |} |}.
Proof.
  intros img B. destruct limits_are_strict as [Hsize Hdim].
  assert (Hsz : (File.size (png 10485760) <= 10485760)%N) by (vm_compute; discriminate).
  rewrite (Hdim B (png 10485760) empty_store img eq_refl Hsz eq_refl eq_refl eq_refl).
  vm_compute. reflexivity.
Defined.
End Claims.


(* ================================================================== *)
(** * Part III: further properties *)
(* ================================================================== *)

(** ** Products with a random number *)
Section RandomIndex.
Import Binary64 Binary64Facts.

Lemma inject_Z_pred z : (inject_Z (z - 1) == inject_Z z - 1)%Q.
Proof.
  replace (z - 1)%Z with (z + -1)%Z by lia.
  rewrite inject_Z_plus. change (inject_Z (-1)) with (-1)%Q. ring.
Qed.

(** A number below 1 is at most 1 - 2^-53. *)
Lemma random_le_pred x : is_random x -> (x <= 1 - 2 ^ (-53))%Q.
Proof.
  intros (Hfl & H0 & H1).
  change (2 ^ (-53))%Q with (1 # 9007199254740992)%Q.
  destruct (Qle_lt_or_eq 0 x H0) as [Hx|Hx]; [|lra].
  destruct (ilog2_spec x Hx) as [Hlo Hhi].
  pose proof (mant_range x Hx) as [Hm1 Hm2].
  pose proof (fl_pos_eq x Hx) as E. rewrite Hfl in E.
  assert (Hk : (ilog2 x < 0)%Z).
  { apply pow2_lt_inv. change (2 ^ 0)%Q with 1%Q. lra. }
  set (m := RNE (x / 2 ^ ulp_exp x)) in *.
  unfold ulp_exp in *. set (k := ilog2 x) in *.
  pose proof (pow2_pos (k - 52)) as Hp.
  destruct (Z.eq_dec k (-1)%Z) as [Ek|Nk].
  - rewrite Ek in *. change (2 ^ (-1 - 52))%Q with (1 # 9007199254740992)%Q in *.
    assert (Hm : (m < 2 ^ 53)%Z).
    { rewrite Zlt_Qlt. change (inject_Z (2 ^ 53)) with 9007199254740992%Q. lra. }
    assert (Hm' : (inject_Z m <= 9007199254740991)%Q).
    { change 9007199254740991%Q with (inject_Z 9007199254740991). rewrite <- Zle_Qle. lia. }
    lra.
  - assert (Hle : (2 ^ (k + 1) <= 2 ^ (-1))%Q) by (apply pow2_le; lia).
    change (2 ^ (-1))%Q with (1 # 2)%Q in Hle. lra.
Qed.

(** The product of a random number and a positive integer below 2^53,
    rounded, stays below the integer. *)
Lemma mul_random_lt x n : is_random x -> (1 <= n < 2 ^ 53)%Z ->
  (0 <= mul x (inject_Z n))%Q /\ (mul x (inject_Z n) < inject_Z n)%Q.
Proof.
  intros Hr Hn. pose proof (random_le_pred x Hr) as Hx. destruct Hr as (_ & H0 & _).
  change (2 ^ (-53))%Q with (1 # 9007199254740992)%Q in Hx.
  set (u := (1 # 9007199254740992)%Q) in *.
  assert (HN1 : (1 <= inject_Z n)%Q) by (change 1%Q with (inject_Z 1); rewrite <- Zle_Qle; lia).
  set (N := inject_Z n) in *.
  unfold mul. split; [apply fl_nonneg; nra|].
  set (y0 := (N * (1 - u))%Q).
  assert (Hy : (x * N <= y0)%Q) by (unfold y0; nra).
  apply Qle_lt_trans with (fl y0); [apply fl_mono; [nra | exact Hy]|].
  destruct (Zlog2_Q n ltac:(lia)) as [Hl1 Hl2]. fold N in Hl1, Hl2.
  assert (Hk : (0 <= Z.log2 n <= 52)%Z).
  { split; [apply Z.log2_nonneg|].
    assert (Z.log2 n < 53)%Z; [|lia]. apply Z.log2_lt_pow2; lia. }
  set (k := Z.log2 n) in *.
  pose proof (pow2_pos k) as Hpk.
  pose proof (pow2_pos (k - 52)) as Hpe.
  pose proof (pow2_pos (k - 53)) as Hpe'.
  assert (E53 : (2 ^ k == 9007199254740992 * 2 ^ (k - 53))%Q).
  { change 9007199254740992%Q with (2 ^ 53)%Q. rewrite <- pow2_add.
    replace (53 + (k - 53))%Z with k by lia. reflexivity. }
  assert (E52 : (2 ^ (k - 52) == 2 * 2 ^ (k - 53))%Q).
  { rewrite <- pow2_succ. replace (k - 53 + 1)%Z with (k - 52)%Z by lia. reflexivity. }
  assert (Ek1 : (2 ^ (k + 1) == 2 * 2 ^ k)%Q) by apply pow2_succ.
  destruct (Z.eq_dec n (2 ^ k)%Z) as [En|Nn].
  - (* a power of two: the product is a number *)
    assert (EN : (N == 2 ^ k)%Q).
    { unfold N. rewrite En. apply pow2_Z. lia. }
    assert (Ey : (y0 == inject_Z (2 ^ 53 - 1) * 2 ^ (k - 53))%Q).
    { unfold y0, u. rewrite EN, E53.
      change (inject_Z (2 ^ 53 - 1)) with 9007199254740991%Q. field. }
    rewrite (Qeq_fl _ _ Ey), fl_exact by lia.
    rewrite EN, E53. change (inject_Z (2 ^ 53 - 1)) with 9007199254740991%Q. lra.
  - assert (Hn1 : (2 ^ k + 1 <= n)%Z).
    { assert (2 ^ k <= n)%Z; [|lia].
      rewrite Zle_Qle. rewrite pow2_Z by lia. exact Hl1. }
    assert (HN2 : (2 ^ k + 1 <= N)%Q).
    { unfold N. rewrite <- (pow2_Z k) by lia. change 1%Q with (inject_Z 1).
      rewrite <- inject_Z_plus, <- Zle_Qle. exact Hn1. }
    assert (Hpk52 : (2 ^ k <= 4503599627370496)%Q).
    { change 4503599627370496%Q with (2 ^ 52)%Q. apply pow2_le. lia. }
    assert (Hy0 : (0 < y0)%Q) by (unfold y0, u; nra).
    assert (Hi : ilog2 y0 = k).
    { apply ilog2_unique; unfold y0, u; nra. }
    rewrite (fl_pos_eq y0 Hy0). unfold ulp_exp. rewrite Hi.
    (* the significand of the product is below M - 1/2 *)
    set (M := (n * 2 ^ (52 - k))%Z).
    assert (EM : (inject_Z M * 2 ^ (k - 52) == N)%Q).
    { unfold M. rewrite inject_Z_mult, pow2_Z by lia. fold N.
      rewrite <- Qmult_assoc, <- pow2_add.
      replace (52 - k + (k - 52))%Z with 0%Z by lia. change (2 ^ 0)%Q with 1%Q. ring. }
    set (z := (y0 / 2 ^ (k - 52))%Q).
    assert (Ez : (z * 2 ^ (k - 52) == y0)%Q) by (unfold z; field; lra).
    assert (Hz : (z < inject_Z M - (1 # 2))%Q).
    { apply Qmult_lt_r with (z := (2 ^ (k - 52))%Q); [exact Hpe|].
      rewrite Ez.
      assert (E : ((inject_Z M - (1 # 2)) * 2 ^ (k - 52) == N - 2 ^ (k - 53))%Q).
      { rewrite <- EM, E52. ring. }
      rewrite E. unfold y0, u. nra. }
    assert (HR : (RNE z <= M - 1)%Z).
    { destruct (Qfloor_bounds z) as [Hf1 Hf2].
      assert (Hf : (Qfloor z <= M - 1)%Z).
      { assert (Qfloor z < M)%Z; [|lia]. rewrite Zlt_Qlt. lra. }
      destruct (RNE_cases z) as [[-> _]|[-> Hc]]; [exact Hf|].
      assert (Qfloor z < M - 1)%Z; [|lia].
      rewrite Zlt_Qlt, inject_Z_pred. lra. }
    rewrite Zle_Qle, inject_Z_pred in HR.
    fold z. set (r := inject_Z (RNE z)) in *.
    apply Qle_lt_trans with ((inject_Z M - 1) * 2 ^ (k - 52))%Q; [nra|].
    rewrite <- EM. nra.
Qed.
End RandomIndex.

(** ** The random choice of a disease *)
Section RandomDisease.
Import Binary64 Binary64Facts.

(** The index [Math.floor(random * n)] lies in [0, n). *)
Lemma random_index_range random n : is_random random -> (1 <= n < 2 ^ 53)%Z ->
  (0 <= JS.floor (mul random (of_Z n)) < n)%Z.
Proof.
  intros Hr Hn.
  assert (E : (random * of_Z n == random * inject_Z n)%Q).
  { unfold of_Z. rewrite (fl_Z n) by lia. reflexivity. }
  unfold mul. rewrite (Qeq_fl _ _ E). fold (mul random (inject_Z n)).
  destruct (mul_random_lt random n Hr Hn) as [H0 H1].
  unfold JS.floor. split.
  - apply Qfloor_resp_le in H0. exact H0.
  - rewrite Zlt_Qlt. eapply Qle_lt_trans; [apply Qfloor_le | exact H1].
Qed.

(** X1: whatever number in [0, 1) [Math.random()] returns, indexing a
    non-empty array at [Math.floor(random * length)] yields one of its
    elements, never [undefined]: the rounded product stays below the
    length (for lengths below 2^53). *)
Theorem random_element_in_range {A : Type} (random : Q) (l : list A) :
  is_random random -> l <> [] -> (Z.of_nat (length l) < 2 ^ 53)%Z ->
  exists x, random_element random l = Some x /\ In x l.
Proof.
  intros Hr Hl Hlen.
  assert (Hn : (1 <= Z.of_nat (length l) < 2 ^ 53)%Z).
  { destruct l; [congruence|]. cbn [length] in *. lia. }
  pose proof (random_index_range random _ Hr Hn) as Hi.
  unfold random_element.
  set (i := JS.floor (mul random (of_Z (Z.of_nat (length l))))) in *.
  destruct (Z.ltb_spec i 0) as [H|_]; [lia|].
  destruct (nth_error l (Z.to_nat i)) as [x|] eqn:E.
  - exists x. split; [reflexivity|]. eapply nth_error_In. exact E.
  - exfalso. apply (proj2 (nth_error_Some l (Z.to_nat i))); [lia | exact E].
Qed.

Lemma random_element_in_range_witness :
  let top := (9007199254740991 # 9007199254740992)%Q in
  is_random top /\ [10; 20; 30]%N <> []
  /\ (Z.of_nat (length [10; 20; 30]%N) < 2 ^ 53)%Z
  /\ exists x, random_element top [10; 20; 30]%N = Some x /\ In x [10; 20; 30]%N.
Proof.
  intros top.
  assert (Hr : is_random top).
  { split; [vm_compute; reflexivity|]. split; [discriminate | reflexivity]. }
  assert (Hl : [10; 20; 30]%N <> []) by discriminate.
  assert (Hn : (Z.of_nat (length [10; 20; 30]%N) < 2 ^ 53)%Z) by reflexivity.
  split; [exact Hr|]. split; [exact Hl|]. split; [exact Hn|].
  exact (random_element_in_range top [10; 20; 30]%N Hr Hl Hn).
Defined.

(** The one element of a one-element array is chosen. *)
Lemma random_element_single {A : Type} (random : Q) (x : A) :
  is_random random -> random_element random [x] = Some x.
Proof.
  intros Hr.
  pose proof (random_index_range random 1 Hr ltac:(lia)) as Hi.
  unfold random_element. cbn [length]. change (Z.of_nat 1) with 1%Z.
  set (i := JS.floor (mul random (of_Z 1))) in *.
  assert (E : i = 0%Z) by lia. rewrite E. reflexivity.
Qed.

(** X2: for every option of the crop selects and whatever
    [Math.random()] returns, [getRandomDisease] returns a record: the
    Early Blight record for "Tomato", Blast Disease for "Rice", Late Blight
    for "Potato", and the default Fungal Leaf Spot record for each of the
    ten other crops and for the empty placeholder. *)
Theorem getRandomDisease_by_crop random c :
  is_random random -> In c crop_options ->
  (c = "Tomato" -> getRandomDisease random c = Some early_blight)
  /\ (c = "Rice" -> getRandomDisease random c = Some blast_disease)
  /\ (c = "Potato" -> getRandomDisease random c = Some late_blight)
  /\ (c <> "Tomato" -> c <> "Rice" -> c <> "Potato" ->
      getRandomDisease random c = Some default_disease).
Proof.
  intros Hr Hc.
  assert (Ht : getRandomDisease random "Tomato" = Some early_blight)
    by (apply (random_element_single random early_blight Hr)).
  assert (Hri : getRandomDisease random "Rice" = Some blast_disease)
    by (apply (random_element_single random blast_disease Hr)).
  assert (Hp : getRandomDisease random "Potato" = Some late_blight)
    by (apply (random_element_single random late_blight Hr)).
  split; [intros ->; exact Ht|]. split; [intros ->; exact Hri|].
  split; [intros ->; exact Hp|].
  intros N1 N2 N3.
  unfold crop_options, CROP_TYPES in Hc. cbn [In] in Hc.
  repeat (destruct Hc as [<-|Hc]; [first [congruence | reflexivity]|]).
  contradiction.
Qed.

Lemma getRandomDisease_by_crop_witness :
  is_random (3 # 8) /\ In "Wheat" crop_options /\ In "Tomato" crop_options
  /\ getRandomDisease (3 # 8) "Tomato" = Some early_blight
  /\ getRandomDisease (3 # 8) "Wheat" = Some default_disease.
Proof.
  assert (Hr : is_random (3 # 8)).
  { split; [vm_compute; reflexivity|]. split; [discriminate | reflexivity]. }
  assert (Hw : In "Wheat" crop_options) by (cbn; tauto).
  assert (Ht : In "Tomato" crop_options) by (cbn; tauto).
  split; [exact Hr|]. split; [exact Hw|]. split; [exact Ht|]. split.
  - apply (getRandomDisease_by_crop (3 # 8) "Tomato" Hr Ht). reflexivity.
  - apply (getRandomDisease_by_crop (3 # 8) "Wheat" Hr Hw); discriminate.
Defined.

(** For the options of the crop selects a record is always returned. *)
Lemma getRandomDisease_some random c :
  is_random random -> In c crop_options ->
  exists d, getRandomDisease random c = Some d.
Proof.
  intros Hr Hc.
  assert (Ht : getRandomDisease random "Tomato" = Some early_blight)
    by (apply (random_element_single random early_blight Hr)).
  assert (Hri : getRandomDisease random "Rice" = Some blast_disease)
    by (apply (random_element_single random blast_disease Hr)).
  assert (Hp : getRandomDisease random "Potato" = Some late_blight)
    by (apply (random_element_single random late_blight Hr)).
  unfold crop_options, CROP_TYPES in Hc. cbn [In] in Hc.
  repeat (destruct Hc as [<-|Hc]; [eexists; first [exact Ht | exact Hri | exact Hp | reflexivity]|]).
  contradiction.
Qed.
End RandomDisease.

(** ** The request to the backend *)
Section Request.

Lemma kind_eqb_eq a b : kind_eqb a b = true <-> a = b.
Proof. destruct a, b; cbn; split; congruence. Qed.

Lemma treatments_of_In k d t :
  In t (treatments_of k d) <-> In t (Disease.treatments d) /\ Treatment.type t = k.
Proof.
  unfold treatments_of. rewrite List.filter_In, kind_eqb_eq. reflexivity.
Qed.

(** X3: the three treatment arrays of the request split the treatments
    of the disease: every treatment is sent in exactly the array of its
    type, none is dropped and none is sent twice, whatever the disease. *)
Theorem request_splits_treatments st d :
  let p := payload_of st d in
  (forall t, In t (Disease.treatments d)
             <-> In t (Payload.fertilizer p) \/ In t (Payload.pesticide p)
                 \/ In t (Payload.organic p))
  /\ (forall t, In t (Payload.fertilizer p) -> Treatment.type t = Treatment.fertilizer)
  /\ (forall t, In t (Payload.pesticide p) -> Treatment.type t = Treatment.pesticide)
  /\ (forall t, In t (Payload.organic p) -> Treatment.type t = Treatment.organic)
  /\ (length (Payload.fertilizer p) + length (Payload.pesticide p)
      + length (Payload.organic p) = length (Disease.treatments d))%nat.
Proof.
  cbn [payload_of Payload.fertilizer Payload.pesticide Payload.organic].
  split.
  { intros t. rewrite !treatments_of_In.
    destruct (Treatment.type t) eqn:E; split; intros H; try tauto;
      repeat match goal with
             | H : _ \/ _ |- _ => destruct H
             | H : _ /\ _ |- _ => destruct H
             end; try assumption; try discriminate; tauto. }
  split; [intros t H; apply treatments_of_In in H; tauto|].
  split; [intros t H; apply treatments_of_In in H; tauto|].
  split; [intros t H; apply treatments_of_In in H; tauto|].
  unfold treatments_of.
  induction (Disease.treatments d) as [|t l IH]; [reflexivity|].
  cbn [List.filter]. destruct (Treatment.type t); cbn [kind_eqb length]; lia.
Qed.
End Request.

(** ** The handlers of the application *)
Section Handlers.
Import Binary64 Binary64Facts.


(** For a file of an image type the first reason is never given. *)
Lemma verdict_of_image_file B file :
  String.prefix "image/" (File.type file) = true ->
  reason (verdict source_limits B file) <> Some "File is not an image.".
Proof.
  intros Hty. unfold verdict, verdict_on_image, rejected. rewrite Hty. cbn [negb].
  destruct (gtb _ _); [cbn; discriminate|].
  destruct (decode B file) as [img|]; [|cbn; discriminate].
  destruct (_ || _); [cbn; discriminate|].
  destruct (ltb _ _); cbn; discriminate.
Qed.

Ltac split_state st :=
  destruct st as [img sy ct an ia cs am em im];
  cbn [App.selectedImage App.symptoms App.cropType App.analysis App.isAnalyzing
       App.currentStep App.analysisMode App.errorMsg App.infoMsg] in *.

Ltac analyze_paths W :=
  unfold handleAnalyze, analyze_and_save;
  cbn [App.selectedImage App.symptoms App.cropType];
  repeat match goal with
  | |- context [match ?m with Mode.image => _ | Mode.text => _ end] =>
      is_var m; destruct m
  | |- context [validateImage ?B ?f ?s] => rewrite (validateImage_run B f s)
  | |- context [match ?o with Some _ => _ | None => _ end] =>
      lazymatch o with
      | getRandomDisease _ _ => fail
      | _ => is_var o; destruct o
      end
  | |- context [negb (ok ?v)] => destruct (ok v) eqn:?; cbn [negb]
  | |- context [if (?a && ?b) then _ else _] => destruct (a && b) eqn:?
  end.

(** [handleAnalyze] changes neither the selected image, nor the symptoms,
    nor the crop type. *)
Lemma handleAnalyze_keeps_inputs W m st s :
  let st' := run (fst (fst (handleAnalyze W m st s))) st in
  App.selectedImage st' = App.selectedImage st
  /\ App.symptoms st' = App.symptoms st
  /\ App.cropType st' = App.cropType st.
Proof.
  split_state st. analyze_paths W; cbn [fst]; try (cbn; tauto);
    destruct (getRandomDisease _ _); try destruct (backend W _); cbn; tauto.
Qed.

(** [validateImage] is its start followed by its finish. *)
Lemma validateImage_split L B file s :
  validateImageWith L B file s
  = match validateImage_start L file s with
    | (Return (inl validation), s') => (Return validation, s')
    | (Return (inr blobUrl), s') => validateImage_finish L B file blobUrl s'
    | (Throw, s') => (Throw, s')
    end.
Proof.
  unfold validateImageWith, validateImage_start, validateImage_finish.
  destruct (negb (String.prefix "image/" (File.type file))); [reflexivity|].
  destruct (gtb _ _); reflexivity.
Qed.

(** A run of [handleAnalyze] that nothing interrupts makes the setter
    calls of its parts one after the other, sends their request and
    leaves their store. *)
Lemma handleAnalyze_uninterrupted W m st s :
  handleAnalyze W m st s
  = let '(acts, next, s1) := handleAnalyze_start W m st s in
    let '(acts', request, s2) := to_the_end 3 next s1 in
    (acts ++ acts', request, s2).
Proof.
  unfold handleAnalyze, handleAnalyze_start, analyze_and_save.
  destruct m.
  - destruct (App.selectedImage st) as [file|]; [|reflexivity].
    unfold validateImage. rewrite validateImage_split.
    destruct (validateImage_start source_limits file s) as [[[v|url]|] s1].
    + unfold after_validation. destruct (ok v); cbn [negb]; [|reflexivity].
      cbn [to_the_end handleAnalyze_resume].
      destruct (getRandomDisease _ _) as [d|]; [|reflexivity].
      cbn [to_the_end handleAnalyze_resume].
      destruct (backend W _); reflexivity.
    + cbn [to_the_end handleAnalyze_resume].
      destruct (validateImage_finish _ _ _ _ _) as [[v|] s2]; [|reflexivity].
      unfold after_validation. destruct (ok v); cbn [negb]; [|reflexivity].
      cbn [to_the_end handleAnalyze_resume].
      destruct (getRandomDisease _ _) as [d|]; [|reflexivity].
      cbn [to_the_end handleAnalyze_resume].
      destruct (backend W _); reflexivity.
    + reflexivity.
  - destruct (_ && _); [reflexivity|].
    cbn [to_the_end handleAnalyze_resume].
    destruct (getRandomDisease _ _) as [d|]; [|reflexivity].
    cbn [to_the_end handleAnalyze_resume].
    destruct (backend W _); reflexivity.
Qed.

Lemma run_keeps_inputs acts : forall st,
  forallb keeps_inputs acts = true ->
  App.selectedImage (run acts st) = App.selectedImage st
  /\ App.symptoms (run acts st) = App.symptoms st
  /\ App.cropType (run acts st) = App.cropType st.
Proof.
  induction acts as [|a acts IH]; intros st H; [cbn; tauto|].
  cbn [forallb] in H. apply andb_true_iff in H. destruct H as [Ha H].
  change (run (a :: acts) st) with (run acts (apply_action st a)).
  destruct (IH (apply_action st a) H) as (Ki & Ks & Kc).
  rewrite Ki, Ks, Kc.
  destruct a; try discriminate Ha; split_state st; cbn; tauto.
Qed.

Lemma after_validation_keeps_inputs W st v :
  forallb keeps_inputs (fst (after_validation W st v)) = true.
Proof. unfold after_validation. destruct (negb (ok v)); reflexivity. Qed.

(** No part of a run touches the selected image, the symptoms or the
    crop type. *)
Lemma handleAnalyze_start_keeps_inputs W m st s :
  forallb keeps_inputs (fst (fst (handleAnalyze_start W m st s))) = true.
Proof.
  unfold handleAnalyze_start. destruct m.
  - destruct (App.selectedImage st) as [file|]; [|reflexivity].
    destruct (validateImage_start source_limits file s) as [[[v|url]|] s1];
      [|reflexivity|reflexivity].
    pose proof (after_validation_keeps_inputs W st v) as H.
    destruct (after_validation W st v) as [acts next]. cbn [fst] in *.
    exact H.
  - destruct (_ && _); reflexivity.
Qed.

Lemma handleAnalyze_resume_keeps_inputs t s :
  forallb keeps_inputs (fst (fst (fst (handleAnalyze_resume t s)))) = true.
Proof.
  destruct t as [W st file url | W m st | W st d]; cbn [handleAnalyze_resume].
  - destruct (validateImage_finish _ _ _ _ _) as [[v|] s1]; [|reflexivity].
    pose proof (after_validation_keeps_inputs W st v) as H.
    destruct (after_validation W st v) as [acts next]. exact H.
  - destruct (getRandomDisease _ _); reflexivity.
  - destruct (backend W _); reflexivity.
Qed.

(** What holds of every state the application passes through, whatever
    runs wait and in whatever order they are resumed: the crop type is
    an option of the selects and the selected file is of an image
    type. *)
Lemma reachable_invariant sys :
  reachable_system sys ->
  In (App.cropType (state sys)) crop_options
  /\ (forall file, App.selectedImage (state sys) = Some file ->
                   String.prefix "image/" (File.type file) = true).
Proof.
  induction 1 as [s | e sys Hreach (Hcrop & Himg) Hposs].
  - cbn. split; [tauto | discriminate].
  - destruct sys as [st s ts]. cbn [state] in Hcrop, Himg.
    destruct e; cbn [possible] in Hposs; cbn [handle state store pending].
    + (* a file is dropped or picked *)
      unfold handleFile.
      destruct (String.prefix "image/" (File.type file)) eqn:Hty; split_state st;
        cbn; (split; [exact Hcrop|]).
      * intros f [= <-]. exact Hty.
      * exact Himg.
    + split_state st. cbn. split; [exact Hcrop | discriminate].
    + split_state st. cbn. split; [tauto | discriminate].
    + split_state st. cbn. split; [exact Hcrop | exact Himg].
    + split_state st. cbn. split; [exact Hcrop | exact Himg].
    + split_state st. cbn. split; [exact Hcrop | exact Himg].
    + split_state st. cbn. split; [exact Hposs | exact Himg].
    + split_state st. cbn. split; [exact Hcrop | exact Himg].
    + (* a run is started *)
      pose proof (handleAnalyze_start_keeps_inputs W m st s) as Hk.
      destruct (handleAnalyze_start W m st s) as [[acts next] s']. cbn [fst] in Hk.
      cbn [state]. destruct (run_keeps_inputs acts st Hk) as (Ki & _ & Kc).
      rewrite Ki, Kc. split; [exact Hcrop | exact Himg].
    + (* a run is resumed *)
      destruct (ts !! i) as [t|]; [|cbn [state]; split; [exact Hcrop | exact Himg]].
      pose proof (handleAnalyze_resume_keeps_inputs t s) as Hk.
      destruct (handleAnalyze_resume t s) as [[[acts next] request] s']. cbn [fst] in Hk.
      cbn [state]. destruct (run_keeps_inputs acts st Hk) as (Ki & _ & Kc).
      rewrite Ki, Kc. split; [exact Hcrop | exact Himg].
Qed.

(** A list of events the states offer leads from a state the application
    passes through to another. *)
Lemma play_reachable es : forall sys sys',
  reachable_system sys -> Forall possible es -> play es sys = Some sys' ->
  reachable_system sys'.
Proof.
  induction es as [|e es IH]; intros sys sys' Hreach Hposs Hplay.
  - cbn in Hplay. injection Hplay as <-. exact Hreach.
  - cbn [play] in Hplay. destruct (enabled e sys); [|discriminate Hplay].
    inversion Hposs as [|e' es' He Hes]; subst.
    apply (IH (handle e sys) sys'); [|exact Hes | exact Hplay].
    apply reachable_step; assumption.
Qed.

(** A run that nothing interrupts is one of the ways the events can go:
    a state the application is in after a run handled to its end is a
    state it passes through. *)
Lemma to_the_end_reachable fuel : forall st s ts t,
  reachable_system {| state := st; store := s;
                      pending := match t with Some t' => ts ++ [t'] | None => ts end |} ->
  exists ts',
    reachable_system {| state := run (fst (fst (to_the_end fuel t s))) st;
                        store := snd (to_the_end fuel t s); pending := ts' |}.
Proof.
  induction fuel as [|fuel IH]; intros st s ts t Hreach.
  - destruct t; cbn; eexists; exact Hreach.
  - destruct t as [t|]; [|cbn; eexists; exact Hreach].
    cbn [to_the_end].
    pose proof (reachable_step (Resumed (length ts)) _ Hreach I) as Hstep.
    cbn [handle state store pending] in Hstep.
    rewrite (list_lookup_middle ts [] t (length ts) eq_refl) in Hstep.
    destruct (handleAnalyze_resume t s) as [[[acts next] request] s1].
    assert (E : match next with
                | Some t' => <[length ts := t']> (ts ++ [t])
                | None => delete (length ts) (ts ++ [t])
                end
                = match next with Some t' => ts ++ [t'] | None => ts end).
    { destruct next as [t'|].
      - rewrite <- (Nat.add_0_r (length ts)) at 1. rewrite insert_app_r. reflexivity.
      - rewrite (delete_middle ts [] t). apply app_nil_r. }
    rewrite E in Hstep.
    destruct (IH (run acts st) s1 ts next Hstep) as [ts' H'].
    destruct (to_the_end fuel next s1) as [[acts' request'] s2]. cbn [fst snd] in *.
    exists ts'. unfold run in *. rewrite fold_left_app. exact H'.
Qed.

Lemma whole_run_reachable W m st s :
  reachable st s -> is_random (random W) ->
  reachable (run (fst (fst (handleAnalyze W m st s))) st) (snd (handleAnalyze W m st s)).
Proof.
  intros [ts Hreach] Hr.
  rewrite handleAnalyze_uninterrupted.
  pose proof (reachable_step (AnalyzeClicked m W) _ Hreach Hr) as Hstep.
  cbn [handle state store pending] in Hstep.
  destruct (handleAnalyze_start W m st s) as [[acts next] s1].
  destruct (to_the_end_reachable 3 (run acts st) s1 ts next Hstep) as [ts' H'].
  destruct (to_the_end 3 next s1) as [[acts' request] s2]. cbn [fst snd] in *.
  exists ts'. unfold run in *. rewrite fold_left_app. exact H'.
Qed.

(** X4: in every state the application passes through, whatever runs of
    [handleAnalyze] wait and in whatever order they are resumed, the
    selected file, if there is one, is of an image type, since the upload
    component hands over no other file; so the validation the analysis
    runs on it never answers "File is not an image.". *)
Theorem selected_file_is_image st s file :
  reachable st s -> App.selectedImage st = Some file ->
  String.prefix "image/" (File.type file) = true
  /\ forall B s' v, fst (validateImage B file s') = Return v ->
                    reason v <> Some "File is not an image.".
Proof.
  intros [ts Hreach] Hsel.
  destruct (reachable_invariant _ Hreach) as (_ & Himg).
  pose proof (Himg file Hsel) as Hty. split; [exact Hty|].
  intros B s' v Hrun. rewrite validateImage_run in Hrun. cbn [fst] in Hrun.
  injection Hrun as <-. apply verdict_of_image_file. exact Hty.
Qed.

Lemma selected_file_is_image_witness :
  let W := {| browser := browser_with None; random := 3 # 8;
              backend := fun _ => Saved; type_error := "TypeError" |} in
  let pdf := {| File.type := "application/pdf"; File.size := 3145728 |} in
  let es := [ImageAnalysisStarted; FileChosen (png 5); AnalyzeClicked Mode.image W;
             FileChosen pdf; FileChosen (png 7)] in
  let sys := fold_left (fun sys e => handle e sys) es (initial_system empty_store) in
  reachable (state sys) (store sys) /\ App.selectedImage (state sys) = Some (png 7)
  /\ pending sys = [AwaitImage W (run (handleFile (png 5)) (run startImageAnalysis initial_state))
                               (png 5) 0]
  /\ String.prefix "image/" (File.type (png 7)) = true
  /\ forall B s' v, fst (validateImage B (png 7) s') = Return v ->
                    reason v <> Some "File is not an image.".
Proof.
  intros W pdf es sys.
  assert (Hr : is_random (random W)).
  { split; [vm_compute; reflexivity|]. split; [discriminate | reflexivity]. }
  assert (Hreach : reachable (state sys) (store sys)).
  { exists (pending sys).
    change {| state := state sys; store := store sys; pending := pending sys |}
      with (handle (FileChosen (png 7))
             (handle (FileChosen pdf)
               (handle (AnalyzeClicked Mode.image W)
                 (handle (FileChosen (png 5))
                   (handle ImageAnalysisStarted (initial_system empty_store)))))).
    repeat (apply reachable_step; [|first [exact I | exact Hr]]).
    apply reachable_initial. }
  split; [exact Hreach|]. split; [reflexivity|]. split; [reflexivity|].
  exact (selected_file_is_image (state sys) (store sys) (png 7) Hreach eq_refl).
Defined.


Lemma message_or_default_nonempty message :
  message <> EmptyString -> message_or_default message = message.
Proof.
  intros H. unfold message_or_default.
  destruct (String.eqb_spec message EmptyString); [contradiction | reflexivity].
Qed.



(** A run that is given the answer of the backend lowers the analysing
    flag and touches neither the step nor the result, whatever they are
    by then. *)
Lemma backend_answer_lowers_flag W st0 d st :
  let st' := run (save_actions (backend W (payload_of st0 d)) ++ [setIsAnalyzing false]) st in
  App.isAnalyzing st' = false
  /\ App.currentStep st' = App.currentStep st
  /\ App.analysis st' = App.analysis st.
Proof.
  split_state st. destruct (backend W _); cbn; tauto.
Qed.

(** X7: a result can be missing on the results step with no analysis
    running, where the results view reads the fields of the result
    (l.666, l.71): two runs of [handleAnalyze] overlap.  A first text
    analysis is started and its timer ends, so the result is set and the
    request sent; while the backend has not answered, New Analysis is
    clicked and a second text analysis is started, which shows the
    results step and waits for its timer; then the answer of the backend
    to the first run arrives, and the first run lowers the analysing
    flag.  This holds for any crops chosen, any symptoms typed and any
    answer of the backend.  Every event of the list is offered by the
    state it meets; the state reached is one the application passes
    through, on the results step, not analysing, without a result, and
    the second run still waits for its timer. *)
Theorem result_missing_after_overlap W1 W2 c1 v1 c2 v2 s :
  is_random (random W1) -> is_random (random W2) ->
  In c1 CROP_TYPES -> In c2 CROP_TYPES ->
  v1 <> EmptyString -> v2 <> EmptyString ->
  exists sys,
    play [TextAnalysisStarted; CropChosen c1; SymptomsTyped v1;
          AnalyzeClicked Mode.text W1; Resumed 0;
          NewAnalysis;
          TextAnalysisStarted; CropChosen c2; SymptomsTyped v2;
          AnalyzeClicked Mode.text W2;
          Resumed 0]
         (initial_system s) = Some sys
    /\ reachable (state sys) (store sys)
    /\ App.currentStep (state sys) = Step.results
    /\ App.isAnalyzing (state sys) = false
    /\ App.analysis (state sys) = None
    /\ exists st2, pending sys = [AwaitTimer W2 Mode.text st2].
Proof.
  intros Hr1 Hr2 Hc1 Hc2 Hv1 Hv2.
  assert (Ho1 : In c1 crop_options) by (right; exact Hc1).
  assert (Ho2 : In c2 crop_options) by (right; exact Hc2).
  destruct (getRandomDisease_some (random W1) c1 Hr1 Ho1) as [d1 Hd1].
  assert (T1 : truthy v1 || truthy c1 = true).
  { unfold truthy. apply orb_true_iff. left. apply negb_true_iff, String.eqb_neq, Hv1. }
  assert (T2 : truthy v2 || truthy c2 = true).
  { unfold truthy. apply orb_true_iff. left. apply negb_true_iff, String.eqb_neq, Hv2. }
  assert (G1 : String.eqb v1 EmptyString && String.eqb c1 EmptyString = false).
  { apply andb_false_iff. left. apply String.eqb_neq, Hv1. }
  assert (G2 : String.eqb v2 EmptyString && String.eqb c2 EmptyString = false).
  { apply andb_false_iff. left. apply String.eqb_neq, Hv2. }
  set (es := [TextAnalysisStarted; CropChosen c1; SymptomsTyped v1;
              AnalyzeClicked Mode.text W1; Resumed 0; NewAnalysis;
              TextAnalysisStarted; CropChosen c2; SymptomsTyped v2;
              AnalyzeClicked Mode.text W2; Resumed 0]).
  assert (Hposs : Forall possible es).
  { unfold es.
    repeat (constructor 2; [cbn [possible]; first [exact I | assumption]|]).
    constructor 1. }
  assert (Hplay : exists sys,
             play es (initial_system s) = Some sys
             /\ App.currentStep (state sys) = Step.results
             /\ App.isAnalyzing (state sys) = false
             /\ App.analysis (state sys) = None
             /\ exists st2, pending sys = [AwaitTimer W2 Mode.text st2]).
  { unfold es, initial_system, initial_state.
    cbn -[getRandomDisease payload_of save_actions String.eqb truthy].
    rewrite T1. cbn -[getRandomDisease payload_of save_actions String.eqb truthy].
    rewrite G1. cbn -[getRandomDisease payload_of save_actions String.eqb truthy].
    rewrite Hd1. cbn -[getRandomDisease payload_of save_actions String.eqb truthy].
    rewrite T2. cbn -[getRandomDisease payload_of save_actions String.eqb truthy].
    rewrite G2. cbn -[getRandomDisease payload_of save_actions String.eqb truthy].
    destruct (backend W1 _); cbn; eexists; repeat split; eauto. }
  destruct Hplay as (sys & Hplay & Hstep & Hflag & Hres & Hwait).
  exists sys. split; [exact Hplay|]. split; [|tauto].
  exists (pending sys).
  assert (Hreach : reachable_system sys).
  { apply (play_reachable es (initial_system s) sys);
      [apply reachable_initial | exact Hposs | exact Hplay]. }
  destruct sys. exact Hreach.
Qed.

Lemma result_missing_after_overlap_witness :
  let W1 := {| browser := browser_with None; random := 3 # 8;
               backend := fun _ => Saved; type_error := "TypeError" |} in
  let W2 := {| browser := browser_with None; random := 5 # 8;
               backend := fun _ => Failed EmptyString; type_error := "TypeError" |} in
  is_random (random W1) /\ is_random (random W2)
  /\ exists sys,
       play [TextAnalysisStarted; CropChosen "Rice"; SymptomsTyped "brown lesions";
             AnalyzeClicked Mode.text W1; Resumed 0;
             NewAnalysis;
             TextAnalysisStarted; CropChosen "Tomato"; SymptomsTyped "yellow spots";
             AnalyzeClicked Mode.text W2;
             Resumed 0]
            (initial_system empty_store) = Some sys
       /\ reachable (state sys) (store sys)
       /\ App.currentStep (state sys) = Step.results
       /\ App.isAnalyzing (state sys) = false
       /\ App.analysis (state sys) = None
       /\ exists st2, pending sys = [AwaitTimer W2 Mode.text st2].
Proof.
  intros W1 W2.
  assert (Hr1 : is_random (random W1)).
  { split; [vm_compute; reflexivity|]. split; [discriminate | reflexivity]. }
  assert (Hr2 : is_random (random W2)).
  { split; [vm_compute; reflexivity|]. split; [discriminate | reflexivity]. }
  split; [exact Hr1|]. split; [exact Hr2|].
  apply (result_missing_after_overlap W1 W2 "Rice" "brown lesions" "Tomato" "yellow spots"
           empty_store Hr1 Hr2).
  - cbn. tauto.
  - cbn. tauto.
  - discriminate.
  - discriminate.
Defined.

(** X8: a request is sent to the backend exactly when the analysis goes
    past its guards: none for a missing or rejected image, none for an
    empty description.  The request carries the selected image whenever
    one is selected, in text mode too, where no validation is run, with
    the crop type and the symptoms of the state. *)
Theorem request_sent_iff W m st s :
  is_random (random W) -> In (App.cropType st) crop_options ->
  match snd (fst (handleAnalyze W m st s)) with
  | Some p =>
      goes_through W m st s
      /\ Payload.image p = App.selectedImage st
      /\ Payload.cropName p = App.cropType st
      /\ Payload.symptoms p = App.symptoms st
  | None => ~ goes_through W m st s
  end.
Proof.
  intros Hr Hc.
  destruct (getRandomDisease_some (random W) (App.cropType st) Hr Hc) as [d Hd].
  unfold handleAnalyze, analyze_and_save, goes_through. rewrite Hd.
  destruct m.
  - destruct (App.selectedImage st) as [file|] eqn:Hsel.
    + rewrite !validateImage_run.
      destruct (ok (verdict source_limits (browser W) file)) eqn:Hok; cbn [negb fst snd].
      * split; [|split; [rewrite <- Hsel; reflexivity | split; reflexivity]].
        exists file, (verdict source_limits (browser W) file).
        rewrite validateImage_run. cbn [fst]. tauto.
      * intros (f & v & [= <-] & Hrun & Hv).
        rewrite validateImage_run in Hrun. cbn [fst] in Hrun. injection Hrun as <-.
        congruence.
    + cbn [fst snd]. intros (f & v & Hf & _). discriminate Hf.
  - destruct (String.eqb_spec (App.symptoms st) EmptyString) as [E1|N1];
    destruct (String.eqb_spec (App.cropType st) EmptyString) as [E2|N2];
      cbn [andb fst snd]; try tauto.
    all: split; [tauto | split; [reflexivity | split; reflexivity]].
Qed.

Lemma request_sent_iff_witness :
  let W := {| browser := browser_with None; random := 3 # 8;
              backend := fun _ => Saved; type_error := "TypeError" |} in
  let st := run [setSymptoms "yellow spots"]
                (run startTextAnalysis (run (handleFile (png 5)) initial_state)) in
  is_random (random W) /\ In (App.cropType st) crop_options
  /\ match snd (fst (handleAnalyze W Mode.text st empty_store)) with
     | Some p =>
         goes_through W Mode.text st empty_store
         /\ Payload.image p = Some (png 5)
         /\ Payload.cropName p = EmptyString
         /\ Payload.symptoms p = "yellow spots"
     | None => ~ goes_through W Mode.text st empty_store
     end.
Proof.
  intros W st.
  assert (Hr : is_random (random W)).
  { split; [vm_compute; reflexivity|]. split; [discriminate | reflexivity]. }
  assert (Hc : In (App.cropType st) crop_options) by (cbn; tauto).
  split; [exact Hr|]. split; [exact Hc|].
  exact (request_sent_iff W Mode.text st empty_store Hr Hc).
Defined.

(** X15: a run of [handleAnalyze] never leaves the analysing flag set:
    started with the flag down, as the analyse buttons are disabled while
    it is up, it ends with the flag down on every path, the returns at the
    guards, the rejection of the image, and the saving whether it succeeds
    or fails, since the validation never throws and every failure of the
    request is caught. *)
Theorem analysing_flag_is_cleared W m st s :
  App.isAnalyzing st = false ->
  App.isAnalyzing (run (fst (fst (handleAnalyze W m st s))) st) = false.
Proof.
  split_state st. intros ->.
  analyze_paths W; cbn [fst]; try reflexivity;
    destruct (getRandomDisease _ _); try destruct (backend W _); reflexivity.
Qed.

Lemma analysing_flag_is_cleared_witness :
  let W := {| browser := browser_with (Some (uniform_image 5000 5000 green_data));
              random := 3 # 8;
              backend := fun _ => Failed "Failed to fetch"; type_error := "TypeError" |} in
  let st := run (handleFile (png 3145728)) (run startImageAnalysis initial_state) in
  App.isAnalyzing st = false
  /\ App.isAnalyzing (run (fst (fst (handleAnalyze W Mode.image st empty_store))) st)
     = false
  /\ App.errorMsg (run (fst (fst (handleAnalyze W Mode.image st empty_store))) st)
     = Some "Failed to fetch".
Proof.
  intros W st. split; [reflexivity|]. split.
  - exact (analysing_flag_is_cleared W Mode.image st empty_store eq_refl).
  - vm_compute. reflexivity.
Defined.
End Handlers.

(** ** Further properties of the validator *)
Section Validator.
Import Binary64 Binary64Facts.

(** X9: the validation leaves no object URL behind.  Whatever the
    thresholds, the browser and the file, a URL bound in the registry
    after the call was bound to the same file before it; and when the
    serial number of the next URL is free, the registry after the call is
    the registry before it.  The same holds of a whole run of
    [handleAnalyze]. *)
Theorem object_urls_released :
  (forall L B file s url f,
      objectURLs (snd (validateImageWith L B file s)) !! url = Some f ->
      objectURLs s !! url = Some f)
  /\ (forall L B file s,
        objectURLs s !! nextURL s = None ->
        objectURLs (snd (validateImageWith L B file s)) = objectURLs s)
  /\ (forall W m st s,
        objectURLs s !! nextURL s = None ->
        objectURLs (snd (handleAnalyze W m st s)) = objectURLs s).
Proof.
  assert (Hfresh : forall L B file s,
             objectURLs s !! nextURL s = None ->
             objectURLs (snd (validateImageWith L B file s)) = objectURLs s).
  { intros L B file s Hfree. rewrite validateImageWith_run. cbn [snd].
    unfold store_after. destruct (_ || _); [reflexivity|]. cbn [objectURLs].
    apply delete_insert_id. exact Hfree. }
  split; [|split; [exact Hfresh|]].
  - intros L B file s url f. rewrite validateImageWith_run. cbn [snd].
    unfold store_after. destruct (_ || _); [tauto|]. cbn [objectURLs].
    rewrite lookup_delete_Some, lookup_insert_Some. intros [Hne [[He _]|[_ H]]]; congruence.
  - intros W m st s Hfree. unfold handleAnalyze.
    destruct m.
    + destruct (App.selectedImage st) as [file|]; [|reflexivity].
      pose proof (Hfresh source_limits (browser W) file s Hfree) as H.
      fold (validateImage (browser W) file s) in H.
      destruct (validateImage (browser W) file s) as [[v|] s'] eqn:E; cbn [snd] in H.
      * destruct (negb (ok v)); [exact H|].
        destruct (analyze_and_save W Mode.image st). exact H.
      * exact H.
    + destruct (_ && _); [reflexivity|].
      destruct (analyze_and_save W Mode.text st). reflexivity.
Qed.

Lemma object_urls_released_witness :
  let s := {| objectURLs := <[0%N := png 7]> ∅; nextURL := 1 |} in
  let B := browser_with (Some (uniform_image 5000 5000 green_data)) in
  objectURLs s !! nextURL s = None
  /\ objectURLs (snd (validateImageWith source_limits B (png 3145728) s)) = objectURLs s.
Proof.
  intros s B.
  assert (Hfree : objectURLs s !! nextURL s = None) by reflexivity.
  split; [exact Hfree|].
  exact (proj1 (proj2 object_urls_released) source_limits B (png 3145728) s Hfree).
Defined.

(** X10: the vegetation check in whole numbers.  With a 2D context, an
    image that reaches the check is turned down exactly when no sampled
    pixel is opaque (alpha at least 50) or fewer than 8 in 100 of the
    opaque samples are green-dominant: comparing the rounded quotient with
    the number 0.08 never decides otherwise than 25 x greens < 2 x opaques. *)
Theorem vegetation_check_in_integers B img :
  let data := HTMLImageElement.pixels img (canvas_width img) (canvas_height img) in
  let n := (canvas_width img * canvas_height img)%Z in
  context2d B = true ->
  ltb (computeVegetationScore B img) MIN_VEG_SCORE = true
  <-> (Spec.opaque_count data n = 0
       \/ 25 * Spec.green_count data n < 2 * Spec.opaque_count data n)%Z.
Proof.
  intros data n Hctx. rewrite (vegetation_check_exact B img Hctx). fold data n.
  rewrite orb_true_iff, Z.eqb_eq, Z.ltb_lt. reflexivity.
Qed.

Lemma vegetation_check_in_integers_witness :
  let img := uniform_image 300 400 clear_data in
  let B := browser_with (Some img) in
  let n := (canvas_width img * canvas_height img)%Z in
  context2d B = true
  /\ (ltb (computeVegetationScore B img) MIN_VEG_SCORE = true
      <-> (Spec.opaque_count clear_data n = 0
           \/ 25 * Spec.green_count clear_data n < 2 * Spec.opaque_count clear_data n)%Z).
Proof.
  intros img B n. split; [reflexivity|].
  exact (vegetation_check_in_integers B img eq_refl).
Defined.

(** X11: an image whose sides are at most 512 px is not scaled: the
    canvas has the size of the image (a side of 0 gives a canvas side of
    1). *)
Theorem small_image_not_scaled img :
  (HTMLImageElement.width img <= 512)%N -> (HTMLImageElement.height img <= 512)%N ->
  canvas_width img = Z.max 1 (Z.of_N (HTMLImageElement.width img))
  /\ canvas_height img = Z.max 1 (Z.of_N (HTMLImageElement.height img)).
Proof.
  intros Hw Hh.
  set (w := HTMLImageElement.width img) in *. set (h := HTMLImageElement.height img) in *.
  assert (Ew : (of_N w == inject_Z (Z.of_N w))%Q).
  { apply of_N_exact. eapply N.le_lt_trans; [exact Hw | reflexivity]. }
  assert (Eh : (of_N h == inject_Z (Z.of_N h))%Q).
  { apply of_N_exact. eapply N.le_lt_trans; [exact Hh | reflexivity]. }
  assert (Hw1 : (0 <= inject_Z (Z.of_N w) <= 512)%Q).
  { split; [apply inject_N_nonneg|].
    change 512%Q with (inject_Z 512). rewrite <- Zle_Qle. lia. }
  assert (Hh1 : (0 <= inject_Z (Z.of_N h) <= 512)%Q).
  { split; [apply inject_N_nonneg|].
    change 512%Q with (inject_Z 512). rewrite <- Zle_Qle. lia. }
  assert (Hl : (0 <= longer_side img <= 512)%Q).
  { unfold longer_side, JS.max. fold w h.
    destruct (Qle_bool (of_N w) (of_N h)); [rewrite Eh | rewrite Ew]; assumption. }
  assert (Hs : scale_of img = 1%Q).
  { unfold scale_of. destruct (Qeq_bool (longer_side img) 0) eqn:E0; [reflexivity|].
    apply Qeq_bool_neq in E0.
    assert (Hq : (1 <= 512 / longer_side img)%Q)
      by (apply Qle_shift_div_l; lra).
    assert (H1 : (1 <= div 512 (longer_side img))%Q).
    { unfold div. apply fl_ge_repr; [lra | exact Hq | reflexivity]. }
    unfold JS.min. apply Qle_bool_iff in H1. rewrite H1. reflexivity. }
  assert (side : forall k : N, (of_N k == inject_Z (Z.of_N k))%Q -> (k <= 512)%N ->
            JS.floor (mul (of_N k) 1) = Z.of_N k).
  { intros k Ek Hk. unfold JS.floor, mul.
    assert (E : (of_N k * 1 == inject_Z (Z.of_N k))%Q) by (rewrite Ek; ring).
    rewrite (Qeq_fl _ _ E).
    assert (E2 : (fl (inject_Z (Z.of_N k)) == inject_Z (Z.of_N k))%Q).
    { apply fl_Z. split; [lia|]. change (2 ^ 53)%Z with (Z.of_N (2 ^ 53)). lia. }
    rewrite E2. apply Qfloor_Z. }
  unfold canvas_width, canvas_height. fold w h. rewrite Hs.
  rewrite (side w Ew Hw), (side h Eh Hh). split; reflexivity.
Qed.

Lemma small_image_not_scaled_witness :
  let img := uniform_image 300 400 green_data in
  (HTMLImageElement.width img <= 512)%N /\ (HTMLImageElement.height img <= 512)%N
  /\ canvas_width img = 300%Z /\ canvas_height img = 400%Z.
Proof.
  intros img.
  assert (Hw : (HTMLImageElement.width img <= 512)%N) by (vm_compute; discriminate).
  assert (Hh : (HTMLImageElement.height img <= 512)%N) by (vm_compute; discriminate).
  split; [exact Hw|]. split; [exact Hh|].
  exact (small_image_not_scaled img Hw Hh).
Defined.

(** The loop with any fuel that covers the samples. *)
Lemma scan_samples_fuel data total fuel : (0 <= total)%Z ->
  (length (Spec.samples total) <= fuel)%nat ->
  scan fuel data (4 * total) (Spec.stride total) 0 0 0
  = (Spec.green_count data total, Spec.opaque_count data total).
Proof.
  intros Ht Hfuel. unfold Spec.green_count, Spec.opaque_count.
  unfold Spec.samples in *. rewrite points_length in Hfuel.
  set (s := Spec.stride total) in *.
  assert (Hs : (1 <= s)%Z) by (unfold s, Spec.stride; lia).
  pose proof (Z.div_mod (total + s - 1) s ltac:(lia)) as Hdm.
  pose proof (Z.mod_pos_bound (total + s - 1) s ltac:(lia)) as Hr.
  assert (Hq : (0 <= (total + s - 1) / s)%Z) by (apply Z.div_pos; lia).
  set (q := ((total + s - 1) / s)%Z) in *.
  change (scan fuel data (4 * total) s 0 0 0)
    with (scan fuel data (4 * total) s (4 * 0) 0 0).
  rewrite (scan_points data total s (Z.to_nat q)).
  - reflexivity.
  - lia.
  - exact Hfuel.
  - intros _. rewrite Z2Nat.id by exact Hq. nia.
  - rewrite Z2Nat.id by exact Hq. nia.
Qed.

Lemma samples_count total : (1 <= total)%Z ->
  (1 <= Z.of_nat (length (Spec.samples total)) <= 19999)%Z.
Proof.
  intros Ht. unfold Spec.samples. rewrite points_length.
  unfold Spec.stride.
  pose proof (Z.div_mod total 10000 ltac:(lia)) as Hdm.
  pose proof (Z.mod_pos_bound total 10000 ltac:(lia)) as Hr.
  assert (Hk : (0 <= total / 10000)%Z) by (apply Z.div_pos; lia).
  set (k := (total / 10000)%Z) in *. set (s := Z.max 1 k).
  assert (Hs : (1 <= s)%Z) by (unfold s; lia).
  pose proof (Z.div_mod (total + s - 1) s ltac:(lia)) as Hdm'.
  pose proof (Z.mod_pos_bound (total + s - 1) s ltac:(lia)) as Hr'.
  set (q := ((total + s - 1) / s)%Z) in *.
  assert (Hq : (1 <= q <= 19999)%Z).
  { destruct (Z.max_spec 1 k) as [[Hlt E]|[Hge E]]; fold s in E; rewrite E in *; nia. }
  lia.
Qed.

(** X12: the sampling loop is short.  For every image it visits at
    least 1 and at most 19999 pixels of the canvas, so 19999 iterations
    always bring it to its end, with the counters it has on leaving the
    buffer. *)
Theorem sampling_is_bounded img fuel :
  let cw := canvas_width img in
  let ch := canvas_height img in
  let data := HTMLImageElement.pixels img cw ch in
  let length_ := (4 * cw * ch)%Z in
  (19999 <= Z.of_nat fuel)%Z ->
  (1 <= Z.of_nat (length (Spec.samples (cw * ch))) <= 19999)%Z
  /\ scan fuel data length_ (step_of length_) 0 0 0
     = scan (Z.to_nat length_) data length_ (step_of length_) 0 0 0
  /\ scan fuel data length_ (step_of length_) 0 0 0
     = (Spec.green_count data (cw * ch), Spec.opaque_count data (cw * ch)).
Proof.
  intros cw ch data length_ Hfuel.
  destruct (canvas_bounds img) as [Hw Hh]. fold cw ch in Hw, Hh.
  assert (Hn : (1 <= cw * ch)%Z) by nia.
  pose proof (samples_count (cw * ch) Hn) as Hc.
  pose proof (total_pixels_range img) as Hr. fold cw ch in Hr.
  assert (El : length_ = (4 * (cw * ch))%Z) by (unfold length_; lia).
  rewrite El, step_of_stride by exact Hr.
  split; [exact Hc|].
  rewrite scan_samples by lia.
  rewrite scan_samples_fuel by lia. split; reflexivity.
Qed.

Lemma sampling_is_bounded_witness :
  let img := uniform_image 5000 5000 green_data in
  let fuel := Z.to_nat 19999 in
  (19999 <= Z.of_nat fuel)%Z
  /\ (1 <= Z.of_nat (length (Spec.samples (canvas_width img * canvas_height img)))
      <= 19999)%Z.
Proof.
  intros img fuel.
  assert (H : (19999 <= Z.of_nat fuel)%Z) by (unfold fuel; rewrite Z2Nat.id; lia).
  split; [exact H|].
  exact (proj1 (sampling_is_bounded img fuel H)).
Defined.

(** X13: the size shown under the preview of the upload component,
    [(size / 1024 / 1024).toFixed(2)], is the size in MB the validator
    compares and prints, [size / (1024 * 1024)], to two decimal places:
    both quotients are exact for a size below 2^53. *)
Theorem preview_size_is_sizeMB file :
  (File.size file < 2 ^ 53)%N ->
  preview_size file = JS.toFixed (sizeMB_of file) 2
  /\ (sizeMB_of file == inject_Z (Z.of_N (File.size file)) / 1048576)%Q.
Proof.
  intros H. split; [|apply sizeMB_exact; exact H].
  assert (Hz : (0 <= Z.of_N (File.size file) < 2 ^ 53)%Z).
  { split; [lia|]. change (2 ^ 53)%Z with (Z.of_N (2 ^ 53)). lia. }
  assert (E : (div (div (of_N (File.size file)) 1024) 1024 == sizeMB_of file)%Q).
  { rewrite (sizeMB_exact file H). unfold div. rewrite (of_N_exact _ H).
    assert (E1 : (inject_Z (Z.of_N (File.size file)) / 1024
                  == inject_Z (Z.of_N (File.size file)) * 2 ^ (-10))%Q).
    { change (2 ^ (-10))%Q with (1 # 1024)%Q. field. }
    rewrite E1, (fl_exact _ (-10) Hz).
    assert (E2 : (inject_Z (Z.of_N (File.size file)) * 2 ^ (-10) / 1024
                  == inject_Z (Z.of_N (File.size file)) * 2 ^ (-20))%Q).
    { change (2 ^ (-10))%Q with (1 # 1024)%Q. change (2 ^ (-20))%Q with (1 # 1048576)%Q.
      field. }
    rewrite E2, (fl_exact _ (-20) Hz).
    change (2 ^ (-20))%Q with (1 # 1048576)%Q. field. }
  unfold preview_size, JS.toFixed.
  assert (En : Qfloor (div (div (of_N (File.size file)) 1024) 1024
                       * inject_Z (10 ^ Z.of_nat 2) + (1 # 2))%Q
               = Qfloor (sizeMB_of file * inject_Z (10 ^ Z.of_nat 2) + (1 # 2))%Q).
  { apply Qfloor_comp. rewrite E. reflexivity. }
  rewrite En. reflexivity.
Qed.

Lemma preview_size_is_sizeMB_witness :
  (File.size (png 12897485) < 2 ^ 53)%N
  /\ preview_size (png 12897485) = "12.30"
  /\ JS.toFixed (sizeMB_of (png 12897485)) 2 = "12.30".
Proof.
  assert (H : (File.size (png 12897485) < 2 ^ 53)%N) by reflexivity.
  split; [exact H|].
  pose proof (proj1 (preview_size_is_sizeMB (png 12897485) H)) as E.
  split; [rewrite E|]; vm_compute; reflexivity.
Defined.

Lemma filter_none {A : Type} (f : A -> bool) (l : list A) :
  (forall x, In x l -> f x = false) -> List.filter f l = [].
Proof.
  induction l as [|x l IH]; intros H; [reflexivity|].
  cbn [List.filter]. rewrite (H x (or_introl eq_refl)).
  apply IH. intros y Hy. apply H. right. exact Hy.
Qed.

Lemma filter_all {A : Type} (f : A -> bool) (l : list A) :
  (forall x, In x l -> f x = true) -> List.filter f l = l.
Proof.
  intros H. apply List.forallb_filter_id. apply List.forallb_forall. exact H.
Qed.

(** X14: the two ends of the score.  With a 2D context, when every
    sampled pixel is opaque (alpha at least 50) and green-dominant the
    score is exactly 1, and when no sampled pixel is green-dominant it is
    exactly 0, whatever the other pixels of the image are. *)
Theorem extreme_scores B img :
  let cw := canvas_width img in
  let ch := canvas_height img in
  let data := HTMLImageElement.pixels img cw ch in
  context2d B = true ->
  ((forall p, In p (Spec.samples (cw * ch)) ->
              (50 <= Spec.alpha data p)%Z
              /\ Spec.green_dominant (Spec.red data p) (Spec.green data p)
                                     (Spec.blue data p) = true) ->
   computeVegetationScore B img = 1%Q)
  /\ ((forall p, In p (Spec.samples (cw * ch)) ->
                 Spec.green_dominant (Spec.red data p) (Spec.green data p)
                                     (Spec.blue data p) = false) ->
      computeVegetationScore B img = 0%Q).
Proof.
  intros cw ch data Hctx.
  rewrite computeVegetationScore_eq, Hctx. fold cw ch data.
  destruct (canvas_bounds img) as [Hw Hh]. fold cw ch in Hw, Hh.
  assert (Hn : (1 <= cw * ch)%Z) by nia.
  pose proof (samples_count (cw * ch) Hn) as Hc.
  unfold Spec.score, Spec.green_count, Spec.opaque_count, Spec.green_in, Spec.opaque_in.
  set (l := Spec.samples (cw * ch)) in *.
  split; intros H.
  - rewrite (filter_all (fun p => negb (Spec.transparent (Spec.alpha data p))) l).
    2:{ intros p Hp. destruct (H p Hp) as [Ha _]. unfold Spec.transparent.
        apply negb_true_iff. apply Z.ltb_ge. exact Ha. }
    rewrite (filter_all _ l) by (intros p Hp; apply (H p Hp)).
    destruct (Z.eqb_spec (Z.of_nat (length l)) 0) as [E|NE]; [lia|].
    assert (E1 : (inject_Z (Z.of_nat (length l)) / inject_Z (Z.of_nat (length l)) == 1)%Q).
    { field. intros Habs. apply NE.
      apply (proj1 (inject_Z_injective _ 0%Z)). exact Habs. }
    rewrite (Qeq_fl _ _ E1). reflexivity.
  - rewrite (filter_none _ (List.filter _ l)).
    2:{ intros p Hp. apply List.filter_In in Hp. apply (H p (proj1 Hp)). }
    cbn [length]. change (Z.of_nat 0) with 0%Z.
    destruct (_ =? 0)%Z; [reflexivity|].
    assert (E0 : (inject_Z 0 / inject_Z (Z.of_nat (length
                    (List.filter (fun p => negb (Spec.transparent (Spec.alpha data p))) l)))
                  == 0)%Q).
    { unfold Qdiv. change (inject_Z 0) with 0%Q. ring. }
    rewrite (Qeq_fl _ _ E0). reflexivity.
Qed.

Lemma green_data_pixel p :
  Spec.red green_data p = 0%Z /\ Spec.green green_data p = 200%Z
  /\ Spec.blue green_data p = 0%Z /\ Spec.alpha green_data p = 255%Z.
Proof.
  unfold Spec.red, Spec.green, Spec.blue, Spec.alpha, green_data.
  assert (E0 : ((4 * p) mod 4 = 0)%Z).
  { rewrite Z.mul_comm. apply Z.mod_mul. lia. }
  assert (Ek : forall k, (0 <= k < 4)%Z -> ((4 * p + k) mod 4 = k)%Z).
  { intros k Hk. rewrite Z.add_comm, Z.mul_comm, Z.mod_add by lia.
    apply Z.mod_small. exact Hk. }
  rewrite E0, !Ek by lia. repeat split; reflexivity.
Qed.

Lemma extreme_scores_witness :
  let img := uniform_image 5000 5000 green_data in
  let B := browser_with (Some img) in
  context2d B = true /\ computeVegetationScore B img = 1%Q.
Proof.
  intros img B. split; [reflexivity|].
  apply (proj1 (extreme_scores B img eq_refl)).
  intros p _.
  change (HTMLImageElement.pixels img (canvas_width img) (canvas_height img))
    with green_data.
  destruct (green_data_pixel p) as (-> & -> & -> & ->).
  split; [discriminate | reflexivity].
Defined.
End Validator.

(** ** Validation while other runs go on *)
Section Waiting.
Import Binary64 Binary64Facts.

Lemma waiting_urls_app l1 l2 :
  waiting_urls (l1 ++ l2) = waiting_urls l1 ++ waiting_urls l2.
Proof.
  induction l1 as [|t l1 IH]; [reflexivity|].
  destruct t; cbn [waiting_urls app]; rewrite IH; reflexivity.
Qed.

Lemma waiting_urls_middle ts i t :
  ts !! i = Some t ->
  waiting_urls ts
  = waiting_urls (take i ts) ++ waiting_urls [t] ++ waiting_urls (drop (S i) ts).
Proof.
  intros Hi. rewrite <- (take_drop_middle ts i t Hi) at 1.
  rewrite waiting_urls_app. change (t :: drop (S i) ts) with ([t] ++ drop (S i) ts).
  rewrite waiting_urls_app. reflexivity.
Qed.

(** A run that goes on, or ends, no longer waits for an image. *)
Lemma waiting_urls_insert ts i t t' :
  ts !! i = Some t -> waiting_urls [t'] = [] ->
  waiting_urls (<[i := t']> ts)
  = waiting_urls (take i ts) ++ waiting_urls (drop (S i) ts).
Proof.
  intros Hi Hnext.
  rewrite insert_take_drop by (eapply lookup_lt_Some; exact Hi).
  rewrite waiting_urls_app. change (t' :: drop (S i) ts) with ([t'] ++ drop (S i) ts).
  rewrite waiting_urls_app, Hnext. reflexivity.
Qed.

Lemma waiting_urls_delete ts i :
  waiting_urls (delete i ts)
  = waiting_urls (take i ts) ++ waiting_urls (drop (S i) ts).
Proof. rewrite delete_take_drop. apply waiting_urls_app. Qed.

Lemma waiting_urls_resumed ts i t next :
  ts !! i = Some t ->
  match next with Some t' => waiting_urls [t'] = [] | None => True end ->
  waiting_urls (match next with Some t' => <[i := t']> ts | None => delete i ts end)
  = waiting_urls (take i ts) ++ waiting_urls (drop (S i) ts).
Proof.
  intros Hi Hnext. destruct next as [t'|].
  - apply (waiting_urls_insert ts i t t' Hi Hnext).
  - apply waiting_urls_delete.
Qed.

Lemma after_validation_next W st v :
  match snd (after_validation W st v) with
  | Some t' => waiting_urls [t'] = []
  | None => True
  end.
Proof. unfold after_validation. destruct (negb (ok v)); cbn; tauto. Qed.

(** What [validateImage] does from its [await] on: the verdict on what
    the URL stands for, and the URL revoked. *)
Lemma validateImage_finish_run L B file blobUrl s :
  validateImage_finish L B file blobUrl s
  = (Return (match objectURLs s !! blobUrl with
             | Some target =>
                 match decode B target with
                 | Some img => verdict_on_image L B file img
                 | None => rejected could_not_read
                 end
             | None => rejected could_not_read
             end),
     {| objectURLs := delete blobUrl (objectURLs s); nextURL := nextURL s |}).
Proof.
  unfold validateImage_finish, try_catch_finally, bind, loadImageFromBlob,
    revokeObjectURL, ret, throw.
  destruct (objectURLs s !! blobUrl) as [target|]; [|reflexivity].
  destruct (decode B target) as [img|]; [|reflexivity].
  unfold verdict_on_image.
  destruct (_ || _); [reflexivity|]. destruct (ltb _ _); reflexivity.
Qed.

Lemma urls_kept_same st st' s ts :
  urls_kept {| state := st; store := s; pending := ts |} ->
  urls_kept {| state := st'; store := s; pending := ts |}.
Proof. intros H. exact H. Qed.

(** Every state the application passes through keeps the URLs of the
    runs that wait: a new URL is a fresh one, and a run revokes only its
    own. *)
Lemma urls_kept_invariant sys : reachable_system sys -> urls_kept sys.
Proof.
  induction 1 as [s | e sys Hreach IH Hposs].
  - split; [intros u f Hin; cbn in Hin; inversion Hin | apply NoDup_nil_2].
  - destruct sys as [st s ts].
    destruct e; cbn [handle state store pending];
      try (exact (urls_kept_same _ _ _ _ IH)).
    + (* a run is started *)
      unfold handleAnalyze_start. destruct m.
      * destruct (App.selectedImage st) as [file|];
          [|exact (urls_kept_same _ _ _ _ IH)].
        unfold validateImage_start.
        destruct (negb (String.prefix "image/" (File.type file))) eqn:Hty;
          [exact (urls_kept_same _ _ _ _ IH)|].
        destruct (gtb (sizeMB_of file) (of_N (maxImageMB source_limits))) eqn:Hsz;
          [exact (urls_kept_same _ _ _ _ IH)|].
        destruct IH as [K1 K2]. cbn [store pending] in K1, K2.
        unfold bind, createObjectURL, ret. cbn [fst snd].
        split; cbn [store pending objectURLs nextURL]; rewrite waiting_urls_app;
          cbn [waiting_urls].
        -- intros u f Hin. apply elem_of_app in Hin. destruct Hin as [Hin|Hin].
           ++ destruct (K1 u f Hin) as (Hlt & Hlook & Hpast).
              split; [lia|]. split; [|exact Hpast].
              rewrite lookup_insert_ne; [exact Hlook | lia].
           ++ apply list_elem_of_singleton in Hin. injection Hin as -> ->.
              split; [lia|]. split; [apply lookup_insert_eq|].
              split; [apply negb_false_iff; exact Hty | exact Hsz].
        -- rewrite fmap_app. apply NoDup_app. split; [exact K2|].
           split; [|apply NoDup_singleton].
           intros u Hu Hu'. cbn in Hu'. apply list_elem_of_singleton in Hu'. subst u.
           apply list_elem_of_fmap in Hu. destruct Hu as ([u f] & Hu & Hin).
           cbn in Hu. subst u. destruct (K1 _ f Hin) as (Hlt & _). lia.
      * destruct (_ && _); [exact (urls_kept_same _ _ _ _ IH)|].
        destruct IH as [K1 K2]. cbn [store pending] in K1, K2.
        split; cbn [store pending]; rewrite waiting_urls_app; cbn [waiting_urls];
          rewrite app_nil_r; assumption.
    + (* a run is resumed *)
      destruct (ts !! i) as [t|] eqn:Hi; [|exact IH].
      destruct IH as [K1 K2]. cbn [store pending] in K1, K2.
      rewrite (waiting_urls_middle ts i t Hi) in K1, K2.
      destruct t as [W st0 file url | W m st0 | W st0 d]; cbn [handleAnalyze_resume].
      * rewrite validateImage_finish_run.
        set (v := match objectURLs s !! url with Some _ => _ | None => _ end).
        pose proof (after_validation_next W st0 v) as Hnext.
        destruct (after_validation W st0 v) as [acts next]. cbn [snd] in Hnext.
        cbn [waiting_urls app] in K1, K2.
        rewrite fmap_app, fmap_cons in K2. cbn [fst] in K2.
        apply NoDup_app in K2. destruct K2 as (N1 & N12 & N2).
        apply NoDup_cons in N2. destruct N2 as [N2 N3].
        split; cbn [store pending objectURLs nextURL];
          rewrite (waiting_urls_resumed ts i _ next Hi Hnext).
        -- intros u f Hin.
           assert (Hold : (u, f) ∈ waiting_urls (take i ts)
                                   ++ (url, file) :: waiting_urls (drop (S i) ts)).
           { apply elem_of_app in Hin. apply elem_of_app.
             destruct Hin as [Hin|Hin]; [left; exact Hin|].
             right. apply elem_of_cons. right. exact Hin. }
           destruct (K1 u f Hold) as (Hlt & Hlook & Hpast).
           split; [exact Hlt|]. split; [|exact Hpast].
           rewrite lookup_delete_ne; [exact Hlook|].
           intros <-. apply elem_of_app in Hin. destruct Hin as [Hin|Hin].
           ++ apply (N12 url).
              ** apply list_elem_of_fmap. exists (url, f). split; [reflexivity | exact Hin].
              ** apply elem_of_cons. left. reflexivity.
           ++ apply N2. apply list_elem_of_fmap. exists (url, f).
              split; [reflexivity | exact Hin].
        -- rewrite fmap_app. apply NoDup_app. split; [exact N1|]. split; [|exact N3].
           intros u Hu Hu'. apply (N12 u Hu). apply elem_of_cons. right. exact Hu'.
      * cbn [waiting_urls app] in K1, K2.
        destruct (getRandomDisease _ _) as [d|]; split; cbn [store pending];
          first [ rewrite (waiting_urls_insert ts i _ (AwaitBackend W st0 d) Hi eq_refl)
                | rewrite waiting_urls_delete ];
          assumption.
      * cbn [waiting_urls app] in K1, K2.
        split; cbn [store pending]; rewrite waiting_urls_delete; assumption.
Qed.

(** X16: a run that waits for its image gets the verdict of
    [validateImage] on the file it was started with, whatever happened
    while it waited: in every state the application passes through, for
    every run that waits at the [await] of [validateImage], the object
    URL of the run is still bound to its file, and what [validateImage]
    does when it is resumed is to return the value of a call of
    [validateImage] that nothing interrupts and to revoke that URL,
    leaving the other URLs as they are. *)
Theorem waiting_run_gets_its_verdict sys i W st file blobUrl :
  reachable_system sys ->
  pending sys !! i = Some (AwaitImage W st file blobUrl) ->
  objectURLs (store sys) !! blobUrl = Some file
  /\ forall s,
       validateImage_finish source_limits (browser W) file blobUrl (store sys)
       = (fst (validateImage (browser W) file s),
          {| objectURLs := delete blobUrl (objectURLs (store sys));
             nextURL := nextURL (store sys) |}).
Proof.
  intros Hreach Hi.
  destruct (urls_kept_invariant sys Hreach) as [K1 _].
  rewrite (waiting_urls_middle _ i _ Hi) in K1.
  destruct (K1 blobUrl file) as (_ & Hlook & Hty & Hsz).
  { apply elem_of_app. right. cbn. apply elem_of_cons. left. reflexivity. }
  split; [exact Hlook|].
  intros s. rewrite validateImage_finish_run, Hlook, validateImage_run. cbn [fst].
  unfold verdict. change (maxImageMB source_limits) with MAX_IMAGE_MB.
  rewrite Hty, Hsz. reflexivity.
Qed.

Lemma waiting_run_gets_its_verdict_witness :
  let W := {| browser := browser_with (Some (uniform_image 120 80 green_data));
              random := 3 # 8; backend := fun _ => Saved; type_error := "TypeError" |} in
  let es := [ImageAnalysisStarted; FileChosen (png 5); AnalyzeClicked Mode.image W;
             FileChosen (png 7); AnalyzeClicked Mode.image W; Resumed 1] in
  let sys := fold_left (fun sys e => handle e sys) es (initial_system empty_store) in
  let st := run (handleFile (png 5)) (run startImageAnalysis initial_state) in
  reachable_system sys
  /\ pending sys !! 0%nat = Some (AwaitImage W st (png 5) 0)
  /\ objectURLs (store sys) !! 0%N = Some (png 5)
  /\ forall s,
       validateImage_finish source_limits (browser W) (png 5) 0 (store sys)
       = (fst (validateImage (browser W) (png 5) s),
          {| objectURLs := delete 0%N (objectURLs (store sys));
             nextURL := nextURL (store sys) |}).
Proof.
  intros W es sys st.
  assert (Hr : is_random (random W)).
  { split; [vm_compute; reflexivity|]. split; [discriminate | reflexivity]. }
  assert (Hreach : reachable_system sys).
  { change sys
      with (handle (Resumed 1)
             (handle (AnalyzeClicked Mode.image W)
               (handle (FileChosen (png 7))
                 (handle (AnalyzeClicked Mode.image W)
                   (handle (FileChosen (png 5))
                     (handle ImageAnalysisStarted (initial_system empty_store))))))).
    repeat (apply reachable_step; [|first [exact I | exact Hr]]).
    apply reachable_initial. }
  assert (Hi : pending sys !! 0%nat = Some (AwaitImage W st (png 5) 0)) by reflexivity.
  split; [exact Hreach|]. split; [exact Hi|].
  exact (waiting_run_gets_its_verdict sys 0 W st (png 5) 0%N Hreach Hi).
Defined.
End Waiting.
